(** * Entry security camera (main.py): a shallow embedding and its properties

    The program keeps the last [fps * buffer_seconds] frames of a USB camera
    in a bounded deque, samples a person detector every half second, switches
    a recording flag on and off, and hands a copy of the buffer to a freshly
    started thread that writes it to a video file.

    Conventions of the embedding:
    - [time.time()] readings are rationals ([Q]), as every binary64 number
      is one; the program copies them and compares their differences, which
      are rounded as binary64 subtraction rounds ([Binary64.sub]);
    - Python exceptions are values of [pyexc], and code that may raise
      returns [res];
    - everything the program prints is an [Output] appended to a log;
    - the file system is a finite map from paths to the frames written so
      far, with a journal of the operations performed on it. *)

From Stdlib Require Import ZArith QArith Qround Qabs Qpower Lqa Lia Ascii String.
From stdpp Require Import base option list strings gmap.

Open Scope Z_scope.

(** ** Exceptions *)

Module Py.

(** Python's hierarchy has [BaseException] at the root and [Exception] below
    it; [except Exception] catches the second kind only (KeyboardInterrupt
    and SystemExit are of the first kind), a bare [except:] catches both. *)
Inductive pyexc : Type :=
| PyException (msg : string)
| PyBaseException (msg : string).

Definition exc_msg (e : pyexc) : string :=
  match e with PyException m | PyBaseException m => m end.

Definition is_Exception (e : pyexc) : bool :=
  match e with PyException _ => true | PyBaseException _ => false end.

Inductive res (A : Type) : Type :=
| Ok (a : A)
| Raise (e : pyexc).
Arguments Ok {A} a.
Arguments Raise {A} e.

Definition bind {A B} (m : res A) (k : A -> res B) : res B :=
  match m with
  | Ok a => k a
  | Raise e => Raise e
  end.

End Py.
Import Py.

(** [res] is a monad; the notation [x ← m; k] runs [m] and, unless it
    raised, continues with [k]. *)
#[global] Instance res_ret : MRet res := @Ok.
#[global] Instance res_bind : MBind res := fun A B k m => bind m k.

(** ** collections.deque with a maxlen *)

Module Deque.

Record deque (A : Type) : Type := mkDeque { items : list A; maxlen : Z }.
Arguments mkDeque {A} items maxlen.
Arguments items {A} _.
Arguments maxlen {A} _.

(** [sys.maxsize] of a 64-bit build: the largest C [Py_ssize_t] *)
Definition PY_SSIZE_T_MAX : Z := 2 ^ 63 - 1.

(** [deque(maxlen=n)]: the bound is first converted to a C [Py_ssize_t],
    which is an OverflowError when it does not fit; a negative bound is then
    a ValueError. *)
Definition new {A} (n : Z) : res (deque A) :=
  if (n <? - PY_SSIZE_T_MAX - 1) || (PY_SSIZE_T_MAX <? n)
  then Raise (PyException "Python int too large to convert to C ssize_t")
  else if n <? 0 then Raise (PyException "maxlen must be non-negative")
  else Ok (mkDeque [] n).

(** [d.append(x)]: the element goes in on the right, and when the deque has
    grown past its bound one element is dropped on the left. *)
Definition append {A} (d : deque A) (x : A) : deque A :=
  let l := items d ++ [x] in
  mkDeque (if maxlen d <? Z.of_nat (length l) then drop 1 l else l) (maxlen d).

(** [list(d)] *)
Definition to_list {A} (d : deque A) : list A := items d.

(** [len(d)] *)
Definition len {A} (d : deque A) : Z := Z.of_nat (length (items d)).

(** a run of appends, left to right *)
Definition extend {A} (d : deque A) (xs : list A) : deque A :=
  foldl append d xs.

(** The contents are the last [maxlen] elements of everything pushed. *)
Definition keeps_last {A} (hist : list A) (d : deque A) : Prop :=
  items d = drop (length hist - Z.to_nat (maxlen d)) hist.

End Deque.
Import Deque.

(** ** binary64 subtraction of clock readings *)

Module Binary64.

Definition pow2 (e : Z) : Q := Qpower 2 e.

(** The binade of a positive rational: the [e] with
    [2^e <= x < 2^(e+1)]. *)
Definition binade (x : Q) : Z :=
  let a := Z.log2 (Qnum x) - Z.log2 (Zpos (Qden x)) in
  if Qle_bool (pow2 a) x then a else a - 1.

(** The nearest integer, a tie going to the even one. *)
Definition rint (y : Q) : Z :=
  let f := Qfloor y in
  match (y - inject_Z f ?= 1 # 2)%Q with
  | Lt => f
  | Gt => f + 1
  | Eq => if Z.even f then f else f + 1
  end.

(** Rounding to 53 significant bits: the significand [x / 2^(e-52)] lies
    between [2^52] and [2^53] and is rounded to the nearest integer. *)
Definition round53_pos (x : Q) : Q :=
  let ulp := pow2 (binade x - 52) in
  (inject_Z (rint (x / ulp)) * ulp)%Q.

Definition round53 (x : Q) : Q :=
  match Qnum x with
  | Z0 => 0%Q
  | Zpos _ => round53_pos x
  | Zneg _ => (- round53_pos (- x))%Q
  end.

(** [a - b] on floats: the exact difference rounded to the nearest
    binary64 number, ties to even. The exponent range is not bounded here:
    the difference of two binary64 numbers is a multiple of [2^-1074], so
    where binary64 is subnormal the difference is exact either way, and
    differences of clock readings are far from overflow. *)
Definition sub (a b : Q) : Q := Qred (round53 (Qred (a - b))).

(** [2^-53], the largest relative error of one rounding *)
Definition eps : Q := 1 # 9007199254740992.

(** a rational with at most 53 significant bits: a binary64 number, as far
    as its exponent is in range *)
Definition representable (x : Q) : bool := Qeq_bool (round53 (Qred x)) x.

End Binary64.

(** ** Frames, the detector, printed output *)

(** A frame is an image array; the program reads its [shape[:2]], that is
    (height, width), and copies it ([frame.copy()] is the same value). *)
Class FrameLike (Frame : Type) : Type := { shape : Frame -> Z * Z }.

(** The loaded YOLO model, with the two thresholds the program sets. *)
Record Model : Type := mkModel { conf : Q; iou : Q }.

(** What [self.model(frame)] followed by [results.pandas().xyxy[0]] does for
    one frame: it raises, or it yields the ['class'] column of the table of
    detections. *)
Inductive DetOutcome : Type :=
| DetRaises (e : pyexc)
| DetResults (classes : list Z).

Inductive Output : Type :=
| OutCameraInit
| OutCameraReady (w h fps : Z)
| OutYoloUnavailable
| OutYoloInit
| OutLocalModelLoaded (path : string)
| OutLocalModelError (e : string)
| OutPretrainedDownloading
| OutPretrainedLoaded
| OutYoloInitError (e : string)
| OutYoloReady
| OutDetectError (e : string)
| OutNoFrames
| OutMkdirError (e : string)
| OutOpenError (path : string)
| OutSaved (filename : string) (bytes : Z)
| OutSavedTo (dir : string)
| OutSaveError (e : string)
| OutMonitoringStarted
| OutFrameError
| OutStatusRecording (hms : string) (duration : Q) (frames : Z)
| OutStatusMonitoring (hms : string) (frames : Z)
| OutRecordingStarted (hms : string)
| OutRecordingStopped
| OutBanner
| OutContinueWithoutDetection
| OutAllFramesRecorded
| OutSaveDestination (path : string)
| OutSystemStarted (buffer_seconds : Z) (recording_after_seconds : Q) (fps w h : Z)
| OutSystemError (e : string)
| OutStopping
| OutStopped.

(** The arguments of one [threading.Thread(target=self.save_video, ...)]. *)
Record SaveJob (Frame : Type) : Type :=
  mkJob { job_frames : list Frame; job_filename : string }.
Arguments mkJob {Frame} job_frames job_filename.
Arguments job_frames {Frame} _.
Arguments job_filename {Frame} _.

(** ** os.path *)

Module OsPath.

Definition starts_with_slash (s : string) : bool :=
  match s with
  | String c _ => Ascii.eqb c "/"%char
  | EmptyString => false
  end.

Fixpoint ends_with_slash (s : string) : bool :=
  match s with
  | EmptyString => false
  | String c EmptyString => Ascii.eqb c "/"%char
  | String _ r => ends_with_slash r
  end.

(** [os.path.join(a, b)] of posixpath, for two components *)
Definition join (a b : string) : string :=
  if starts_with_slash b then b
  else if String.eqb a "" then b
  else if ends_with_slash a then a +:+ b
  else a +:+ "/" +:+ b.

End OsPath.

(** ** The object state *)

(** A [cv2.VideoCapture] object: the index it was made for and whether the
    device is open ([isOpened()]); [release()] closes it. *)
Record Capture : Type := mkCapture { cap_index : Z; cap_opened : bool }.

Record Camera (Frame : Type) : Type := mkCamera {
  camera_index : Z;
  buffer_seconds : Z;
  recording_after_seconds : Q;
  usb_mount_path : string;
  cap : option Capture;
  model : option Model;
  frame_width : Z;
  frame_height : Z;
  fps : Z;
  frame_buffer : deque Frame;
  is_recording : bool;
  recording_start_time : option Q;
  person_detected : bool;
  last_detection_time : Q;
  running : bool;
  last_status_time : Q
}.
Arguments mkCamera {Frame}.
Arguments camera_index {Frame} _.
Arguments buffer_seconds {Frame} _.
Arguments recording_after_seconds {Frame} _.
Arguments usb_mount_path {Frame} _.
Arguments cap {Frame} _.
Arguments model {Frame} _.
Arguments frame_width {Frame} _.
Arguments frame_height {Frame} _.
Arguments fps {Frame} _.
Arguments frame_buffer {Frame} _.
Arguments is_recording {Frame} _.
Arguments recording_start_time {Frame} _.
Arguments person_detected {Frame} _.
Arguments last_detection_time {Frame} _.
Arguments running {Frame} _.
Arguments last_status_time {Frame} _.

(** Assignments to the attributes of [self]. *)

Definition set_cap {Frame} (v : option Capture) (c : Camera Frame)
  : Camera Frame :=
  mkCamera (camera_index c) (buffer_seconds c) (recording_after_seconds c)
    (usb_mount_path c) v (model c) (frame_width c) (frame_height c) (fps c)
    (frame_buffer c) (is_recording c) (recording_start_time c)
    (person_detected c) (last_detection_time c) (running c)
    (last_status_time c).

Definition set_model {Frame} (v : option Model) (c : Camera Frame)
  : Camera Frame :=
  mkCamera (camera_index c) (buffer_seconds c) (recording_after_seconds c)
    (usb_mount_path c) (cap c) v (frame_width c) (frame_height c) (fps c)
    (frame_buffer c) (is_recording c) (recording_start_time c)
    (person_detected c) (last_detection_time c) (running c)
    (last_status_time c).

Definition set_frame_width {Frame} (v : Z) (c : Camera Frame)
  : Camera Frame :=
  mkCamera (camera_index c) (buffer_seconds c) (recording_after_seconds c)
    (usb_mount_path c) (cap c) (model c) v (frame_height c) (fps c)
    (frame_buffer c) (is_recording c) (recording_start_time c)
    (person_detected c) (last_detection_time c) (running c)
    (last_status_time c).

Definition set_frame_height {Frame} (v : Z) (c : Camera Frame)
  : Camera Frame :=
  mkCamera (camera_index c) (buffer_seconds c) (recording_after_seconds c)
    (usb_mount_path c) (cap c) (model c) (frame_width c) v (fps c)
    (frame_buffer c) (is_recording c) (recording_start_time c)
    (person_detected c) (last_detection_time c) (running c)
    (last_status_time c).

Definition set_fps {Frame} (v : Z) (c : Camera Frame)
  : Camera Frame :=
  mkCamera (camera_index c) (buffer_seconds c) (recording_after_seconds c)
    (usb_mount_path c) (cap c) (model c) (frame_width c) (frame_height c) v
    (frame_buffer c) (is_recording c) (recording_start_time c)
    (person_detected c) (last_detection_time c) (running c)
    (last_status_time c).

Definition set_frame_buffer {Frame} (v : deque Frame) (c : Camera Frame)
  : Camera Frame :=
  mkCamera (camera_index c) (buffer_seconds c) (recording_after_seconds c)
    (usb_mount_path c) (cap c) (model c) (frame_width c) (frame_height c)
    (fps c) v (is_recording c) (recording_start_time c) (person_detected c)
    (last_detection_time c) (running c) (last_status_time c).

Definition set_is_recording {Frame} (v : bool) (c : Camera Frame)
  : Camera Frame :=
  mkCamera (camera_index c) (buffer_seconds c) (recording_after_seconds c)
    (usb_mount_path c) (cap c) (model c) (frame_width c) (frame_height c)
    (fps c) (frame_buffer c) v (recording_start_time c) (person_detected c)
    (last_detection_time c) (running c) (last_status_time c).

Definition set_recording_start_time {Frame} (v : option Q) (c : Camera Frame)
  : Camera Frame :=
  mkCamera (camera_index c) (buffer_seconds c) (recording_after_seconds c)
    (usb_mount_path c) (cap c) (model c) (frame_width c) (frame_height c)
    (fps c) (frame_buffer c) (is_recording c) v (person_detected c)
    (last_detection_time c) (running c) (last_status_time c).

Definition set_person_detected {Frame} (v : bool) (c : Camera Frame)
  : Camera Frame :=
  mkCamera (camera_index c) (buffer_seconds c) (recording_after_seconds c)
    (usb_mount_path c) (cap c) (model c) (frame_width c) (frame_height c)
    (fps c) (frame_buffer c) (is_recording c) (recording_start_time c) v
    (last_detection_time c) (running c) (last_status_time c).

Definition set_last_detection_time {Frame} (v : Q) (c : Camera Frame)
  : Camera Frame :=
  mkCamera (camera_index c) (buffer_seconds c) (recording_after_seconds c)
    (usb_mount_path c) (cap c) (model c) (frame_width c) (frame_height c)
    (fps c) (frame_buffer c) (is_recording c) (recording_start_time c)
    (person_detected c) v (running c) (last_status_time c).

Definition set_running {Frame} (v : bool) (c : Camera Frame)
  : Camera Frame :=
  mkCamera (camera_index c) (buffer_seconds c) (recording_after_seconds c)
    (usb_mount_path c) (cap c) (model c) (frame_width c) (frame_height c)
    (fps c) (frame_buffer c) (is_recording c) (recording_start_time c)
    (person_detected c) (last_detection_time c) v (last_status_time c).

Definition set_last_status_time {Frame} (v : Q) (c : Camera Frame)
  : Camera Frame :=
  mkCamera (camera_index c) (buffer_seconds c) (recording_after_seconds c)
    (usb_mount_path c) (cap c) (model c) (frame_width c) (frame_height c)
    (fps c) (frame_buffer c) (is_recording c) (recording_start_time c)
    (person_detected c) (last_detection_time c) (running c) v.
(** ** The world around the object *)

Inductive FsOp : Type :=
| OpMakedirs (path : string)
| OpOpenWriter (path : string) (fps : Z) (width height : Z)
| OpWrite (path : string) (index : nat)
| OpRelease (path : string)
| OpGetsize (path : string)
| OpRemove (path : string).

(** Directories, files (a video file holds the frames written to it so far)
    and the journal of operations, oldest first. *)
Record FS (Frame : Type) : Type := mkFS {
  dirs : gset string;
  files : gmap string (list Frame);
  journal : list FsOp
}.
Arguments mkFS {Frame}.
Arguments dirs {Frame} _.
Arguments files {Frame} _.
Arguments journal {Frame} _.

(** A started thread and whether its target has returned. *)
Record Thread (Frame : Type) : Type :=
  mkThread { th_job : SaveJob Frame; th_done : bool }.
Arguments mkThread {Frame}.
Arguments th_job {Frame} _.
Arguments th_done {Frame} _.

Record State (Frame : Type) : Type := mkState {
  self : Camera Frame;
  out : list Output;
  threads : list (Thread Frame);
  detector_calls : list Frame;
  fs : FS Frame
}.
Arguments mkState {Frame}.
Arguments self {Frame} _.
Arguments out {Frame} _.
Arguments threads {Frame} _.
Arguments detector_calls {Frame} _.
Arguments fs {Frame} _.

(** ** Computations: state that survives a raise *)

Definition M (Frame A : Type) : Type := State Frame -> State Frame * res A.

#[global] Instance M_ret {Frame} : MRet (M Frame) :=
  fun A a s => (s, Ok a).

#[global] Instance M_bind {Frame} : MBind (M Frame) :=
  fun A B k m s =>
    match m s with
    | (s', Ok a) => k a s'
    | (s', Raise e) => (s', Raise e)
    end.

Definition raise {Frame A} (e : pyexc) : M Frame A := fun s => (s, Raise e).

Definition lift {Frame A} (r : res A) : M Frame A := fun s => (s, r).

Definition gets {Frame A} (f : State Frame -> A) : M Frame A :=
  fun s => (s, Ok (f s)).

Definition modify {Frame} (f : State Frame -> State Frame) : M Frame unit :=
  fun s => (f s, Ok tt).

(** [try: body / except Exception as e: handler e] *)
Definition try_ {Frame A} (body : M Frame A) (handler : pyexc -> M Frame A)
  : M Frame A :=
  fun s =>
    match body s with
    | (s', Ok a) => (s', Ok a)
    | (s', Raise e) => if is_Exception e then handler e s' else (s', Raise e)
    end.

(** [try: body / except: handler] *)
Definition try_all {Frame A} (body : M Frame A) (handler : M Frame A)
  : M Frame A :=
  fun s =>
    match body s with
    | (s', Ok a) => (s', Ok a)
    | (s', Raise _) => handler s'
    end.

Definition upd_self {Frame} (f : Camera Frame -> Camera Frame) (s : State Frame)
  : State Frame :=
  mkState (f (self s)) (out s) (threads s) (detector_calls s) (fs s).

Definition upd_fs {Frame} (f : FS Frame -> FS Frame) (s : State Frame)
  : State Frame :=
  mkState (self s) (out s) (threads s) (detector_calls s) (f (fs s)).

(** [self.x = v] *)
Definition assign {Frame} (f : Camera Frame -> Camera Frame) : M Frame unit :=
  modify (upd_self f).

(** [self.x] *)
Definition attr {Frame A} (f : Camera Frame -> A) : M Frame A :=
  gets (fun s => f (self s)).

Definition add_out {Frame} (o : Output) (s : State Frame) : State Frame :=
  mkState (self s) (out s ++ [o]) (threads s) (detector_calls s) (fs s).

Definition add_thread {Frame} (j : SaveJob Frame) (s : State Frame)
  : State Frame :=
  mkState (self s) (out s) (threads s ++ [mkThread j false])
          (detector_calls s) (fs s).

Definition add_call {Frame} (f : Frame) (s : State Frame) : State Frame :=
  mkState (self s) (out s) (threads s) (detector_calls s ++ [f]) (fs s).

(** [print(...)] *)
Definition emit {Frame} (o : Output) : M Frame unit := modify (add_out o).

(** [threading.Thread(target=self.save_video, args=..., daemon=True).start()] *)
Definition thread_start {Frame} (j : SaveJob Frame) : M Frame unit :=
  modify (add_thread j).

(** one call [self.model(frame)] reaching the detector *)
Definition note_detector_call {Frame} (f : Frame) : M Frame unit :=
  modify (add_call f).

Definition journal_op {Frame} (o : FsOp) : M Frame unit :=
  modify (upd_fs (fun d => mkFS (dirs d) (files d) (journal d ++ [o]))).

(** ** The environment: camera device, torch hub, mount points, video sink *)

(** What [cv2.VideoCapture] reports once opened and configured. *)
Record Device : Type := mkDevice {
  dev_opens : bool;
  actual_width : Z;
  actual_height : Z;
  actual_fps : Z
}.

(** The outcome of [import torch] and of the two [torch.hub.load] calls. *)
Record Hub : Type := mkHub {
  YOLO_AVAILABLE : bool;
  local_model_exists : bool;
  load_custom : res Model;
  load_pretrained : res Model
}.

Inductive Listing : Type :=
| ListEntries (names : list string)
| ListPermissionError
| ListError (e : pyexc).

(** What [os.path.exists], [os.listdir], [os.path.isdir] and [os.access]
    answer, and the directory of the script. *)
Record Mounts : Type := mkMounts {
  path_exists : string -> bool;
  listdir : string -> Listing;
  isdir : string -> bool;
  access_W_OK : string -> bool;
  script_dir : string
}.

(** How the destination behaves: whether the directory can be made, whether
    the writer opens, which frame (by index) makes [out.write] raise, which
    frame [out.write] loses without raising (cv2 reports a failed write to
    nobody), what [os.remove] raises, and the size of the encoded file. *)
Record Sink (Frame : Type) : Type := mkSink {
  makedirs_error : option pyexc;
  writer_opens : bool;
  write_error : nat -> option pyexc;
  write_lost : nat -> bool;
  remove_error : option pyexc;
  encoded_size : list Frame -> Z
}.
Arguments mkSink {Frame}.
Arguments makedirs_error {Frame} _.
Arguments writer_opens {Frame} _.
Arguments write_error {Frame} _.
Arguments write_lost {Frame} _.
Arguments remove_error {Frame} _.
Arguments encoded_size {Frame} _.

(** One pass of the monitoring loop sees: the result of [cap.read()], the
    clock at the top of the pass, what the detector would do with this
    frame, and the clock readings taken inside [start_recording],
    [stop_recording] and [display_status]. *)
Record Tick (Frame : Type) : Type := mkTick {
  ret : bool;
  frame : Frame;
  t_now : Q;
  detector : DetOutcome;
  t_start : Q;
  hms_start : string;
  stamp : string;
  t_status : Q;
  hms_status : string
}.
Arguments mkTick {Frame}.
Arguments ret {Frame} _.
Arguments frame {Frame} _.
Arguments t_now {Frame} _.
Arguments detector {Frame} _.
Arguments t_start {Frame} _.
Arguments hms_start {Frame} _.
Arguments stamp {Frame} _.
Arguments t_status {Frame} _.
Arguments hms_status {Frame} _.

(** The local variables of [monitoring_loop]. *)
Record Loop : Type := mkLoop {
  loop_last_detection_time : Q;
  frame_count : Z
}.

Inductive StartOutcome : Type :=
| Started
| Exited (code : Z).

(** ** class SecurityCamera *)

Module SecurityCamera.

Section Methods.
Context {Frame : Type} `{FrameLike Frame}.

Definition __init__ (camera_index buffer_seconds : Z)
    (recording_after_seconds : Q) (usb_mount_path : string)
  : res (Camera Frame) :=
  let fps := 30 in
  let buffer_size := fps * buffer_seconds in
  frame_buffer ← Deque.new buffer_size;
  Ok (mkCamera camera_index buffer_seconds recording_after_seconds
        usb_mount_path None None 640 480 fps frame_buffer
        false None false 0%Q false 0%Q).

Definition initialize_camera (dev : Device) : M Frame unit :=
  emit OutCameraInit;;
  index ← attr camera_index;
  assign (set_cap (Some (mkCapture index (dev_opens dev))));;
  opened ← attr (fun c => from_option cap_opened false (cap c));
  if negb (opened : bool) then raise (PyException "camera cannot be opened")
  else
    emit (OutCameraReady (actual_width dev) (actual_height dev) (actual_fps dev));;
    assign (set_frame_width (actual_width dev));;
    assign (set_frame_height (actual_height dev));;
    if 0 <? actual_fps dev then
      assign (set_fps (actual_fps dev));;
      fps' ← attr fps;
      seconds ← attr buffer_seconds;
      let buffer_size := fps' * seconds in
      d ← lift (Deque.new buffer_size);
      assign (set_frame_buffer d)
    else mret tt.

Definition _load_pretrained_model (hub : Hub) : M Frame bool :=
  try_ (emit OutPretrainedDownloading;;
        m ← lift (load_pretrained hub);
        assign (set_model (Some m));;
        emit OutPretrainedLoaded;;
        mret true)
       (fun e => emit (OutYoloInitError (exc_msg e));; mret false).

Definition initialize_yolo (hub : Hub) : M Frame bool :=
  if negb (YOLO_AVAILABLE hub) then emit OutYoloUnavailable;; mret false
  else
    emit OutYoloInit;;
    let model_path := OsPath.join "models" "yolov5n.pt" in
    if local_model_exists hub then
      early ← try_ (m ← lift (load_custom hub);
                    assign (set_model (Some m));;
                    emit (OutLocalModelLoaded model_path);;
                    mret None)
                   (fun e => emit (OutLocalModelError (exc_msg e));;
                             b ← _load_pretrained_model hub;
                             mret (Some b));
      match early with
      | Some b => mret b
      | None =>
          m ← attr model;
          match m with
          | None => raise (PyException "'NoneType' object has no attribute 'conf'")
          | Some _ =>
              assign (set_model (Some (mkModel (1 # 2) (45 # 100))));;
              emit OutYoloReady;;
              mret true
          end
      end
    else _load_pretrained_model hub.

Definition has_person (classes : list Z) : bool :=
  let person_detections := filter (fun c => c = 0) classes in
  (0 <? length person_detections)%nat.

Definition detect_person (f : Frame) (outcome : DetOutcome) : M Frame bool :=
  m ← attr model;
  match m with
  | None => mret false
  | Some _ =>
      try_ (note_detector_call f;;
            match outcome with
            | DetRaises e => raise e
            | DetResults classes => mret (has_person classes)
            end)
           (fun e => emit (OutDetectError (exc_msg e));; mret false)
  end.

Definition possible_paths : list string :=
  ["/media/pi"; "/mnt"; "/media"; "/Volumes"].

(** the inner [for item in os.listdir(base_path)] *)
Fixpoint first_writable_dir (mounts : Mounts) (base_path : string)
    (names : list string) : option string :=
  match names with
  | [] => None
  | item :: rest =>
      let item_path := OsPath.join base_path item in
      if isdir mounts item_path && access_W_OK mounts item_path
      then Some item_path
      else first_writable_dir mounts base_path rest
  end.

(** the outer [for base_path in possible_paths] *)
Fixpoint scan_mount_points (mounts : Mounts) (bases : list string)
  : res (option string) :=
  match bases with
  | [] => Ok None
  | base_path :: rest =>
      if path_exists mounts base_path then
        match listdir mounts base_path with
        | ListEntries names =>
            match first_writable_dir mounts base_path names with
            | Some item_path => Ok (Some item_path)
            | None => scan_mount_points mounts rest
            end
        | ListPermissionError => scan_mount_points mounts rest
        | ListError e => Raise e
        end
      else scan_mount_points mounts rest
  end.

Definition find_usb_drive (mounts : Mounts) : res string :=
  found ← scan_mount_points mounts possible_paths;
  match found with
  | Some item_path => Ok item_path
  | None =>
      let local_path := OsPath.join (script_dir mounts) "recordings" in
      Ok local_path
  end.

(** *** Writing the video file *)

Definition makedirs (sink : Sink Frame) (path : string) : M Frame unit :=
  journal_op (OpMakedirs path);;
  match makedirs_error sink with
  | Some e => raise e
  | None =>
      modify (upd_fs (fun d => mkFS (dirs d ∪ {[path]}) (files d) (journal d)))
  end.

(** [cv2.VideoWriter(path, fourcc, fps, size)] and [out.isOpened()]: a
    writer that opens starts the file afresh. *)
Definition VideoWriter (sink : Sink Frame) (path : string) (fps : Z)
    (size : Z * Z) : M Frame bool :=
  journal_op (OpOpenWriter path fps (fst size) (snd size));;
  if writer_opens sink then
    modify (upd_fs (fun d => mkFS (dirs d) (<[path := []]> (files d)) (journal d)));;
    mret true
  else mret false.

(** [out.write(frame)] for the frame at position [index]: the call raises,
    or returns having stored the frame, or returns having stored nothing. *)
Definition write (sink : Sink Frame) (path : string) (index : nat) (f : Frame)
  : M Frame unit :=
  journal_op (OpWrite path index);;
  match write_error sink index with
  | Some e => raise e
  | None =>
      if write_lost sink index then mret tt
      else
        modify (upd_fs (fun d =>
          mkFS (dirs d) (alter (fun written => written ++ [f]) path (files d))
               (journal d)))
  end.

(** [for frame in frames: out.write(frame)] *)
Fixpoint write_all (sink : Sink Frame) (path : string) (index : nat)
    (frames : list Frame) : M Frame unit :=
  match frames with
  | [] => mret tt
  | f :: rest => write sink path index f;; write_all sink path (S index) rest
  end.

Definition release (path : string) : M Frame unit :=
  journal_op (OpRelease path).

(** [os.path.getsize(path)] *)
Definition getsize (sink : Sink Frame) (path : string) : M Frame Z :=
  journal_op (OpGetsize path);;
  content ← gets (fun s => files (fs s) !! path);
  match content with
  | Some written => mret (encoded_size sink written)
  | None => raise (PyException "No such file or directory")
  end.

(** [os.remove(path)]: it may fail on a file that exists (a medium that
    was pulled or is mounted read-only), and then the file stays. *)
Definition remove (sink : Sink Frame) (path : string) : M Frame unit :=
  journal_op (OpRemove path);;
  match remove_error sink with
  | Some e => raise e
  | None =>
      content ← gets (fun s => files (fs s) !! path);
      match content with
      | Some _ =>
          modify (upd_fs (fun d =>
            mkFS (dirs d) (delete path (files d)) (journal d)))
      | None => raise (PyException "No such file or directory")
      end
  end.

Definition save_dir_of (usb_path : string) : string :=
  OsPath.join usb_path "security_recordings".

Definition video_path_of (usb_path filename : string) : string :=
  OsPath.join (save_dir_of usb_path) filename.

(** the body of the [try] around the writes *)
Definition write_and_report (sink : Sink Frame) (video_path : string)
    (frames : list Frame) (filename save_dir : string) : M Frame bool :=
  write_all sink video_path 0 frames;;
  release video_path;;
  file_size ← getsize sink video_path;
  emit (OutSaved filename file_size);;
  emit (OutSavedTo save_dir);;
  mret true.

(** its [except Exception as e] handler *)
Definition discard (sink : Sink Frame) (video_path : string) (e : pyexc)
  : M Frame bool :=
  emit (OutSaveError (exc_msg e));;
  release video_path;;
  try_all (remove sink video_path) (mret tt);;
  mret false.

Definition save_video (mounts : Mounts) (sink : Sink Frame)
    (frames : list Frame) (filename : string) : M Frame bool :=
  match frames with
  | [] => emit OutNoFrames;; mret false
  | first :: _ =>
      usb_path ← lift (find_usb_drive mounts);
      let save_dir := save_dir_of usb_path in
      made ← try_ (makedirs sink save_dir;; mret true)
                  (fun e => emit (OutMkdirError (exc_msg e));; mret false);
      if negb (made : bool) then mret false
      else
        let video_path := OsPath.join save_dir filename in
        let height := fst (shape first) in
        let width := snd (shape first) in
        fps' ← attr fps;
        opened ← VideoWriter sink video_path fps' (width, height);
        if negb (opened : bool) then emit (OutOpenError video_path);; mret false
        else
          try_ (write_and_report sink video_path frames filename save_dir)
               (discard sink video_path)
  end.

(** *** The recording flag *)

Definition start_recording (i : Tick Frame) : M Frame unit :=
  recording ← attr is_recording;
  if (recording : bool) then mret tt
  else
    assign (set_is_recording true);;
    assign (set_recording_start_time (Some (t_start i)));;
    emit (OutRecordingStarted (hms_start i)).

Definition stop_recording (i : Tick Frame) : M Frame unit :=
  recording ← attr is_recording;
  if negb (recording : bool) then mret tt
  else
    assign (set_is_recording false);;
    assign (set_person_detected false);;
    frames_to_save ← attr (fun c => Deque.to_list (frame_buffer c));
    let filename := "security_" +:+ stamp i +:+ ".mp4" in
    emit OutRecordingStopped;;
    thread_start (mkJob frames_to_save filename).

Definition display_status (i : Tick Frame) (frame_count : Z) : M Frame unit :=
  recording ← attr is_recording;
  if (recording : bool) then
    started ← attr recording_start_time;
    match started with
    | Some t0 =>
        emit (OutStatusRecording (hms_status i)
                (Binary64.sub (t_status i) t0) frame_count)
    | None => raise (PyException "unsupported operand type(s) for -")
    end
  else emit (OutStatusMonitoring (hms_status i) frame_count).

(** [time.sleep(1.0 / self.fps)] *)
Definition pace : M Frame unit :=
  fps' ← attr fps;
  if (fps' : Z) =? 0 then raise (PyException "float division by zero")
  else if fps' <? 0 then raise (PyException "sleep length must be non-negative")
  else mret tt.

(** *** The monitoring loop *)

Definition detection_interval : Q := 1 # 2.

(** [current_time - last >= interval], the form of the three timing tests
    of the loop: the difference is a float subtraction, the comparison with
    the interval (0.5, 1.0 or the number of seconds given to the
    constructor) is exact. *)
Definition elapsed (current_time last interval : Q) : bool :=
  Qle_bool interval (Binary64.sub current_time last).

(** The block under [if current_time - last_detection_time >=
    detection_interval]; it returns the new value of the local
    [last_detection_time]. *)
Definition sample (i : Tick Frame) (current_time : Q) : M Frame Q :=
  person_detected ← detect_person (frame i) (detector i);
  (if (person_detected : bool) then
     assign (set_person_detected true);;
     assign (set_last_detection_time current_time);;
     recording ← attr is_recording;
     if negb (recording : bool) then start_recording i else mret tt
   else
     recording ← attr is_recording;
     if (recording : bool) && negb person_detected then
       last ← attr last_detection_time;
       after ← attr recording_after_seconds;
       if elapsed current_time last after then stop_recording i
       else mret tt
     else mret tt);;
  mret current_time.

(** The detection block of one pass, run every [detection_interval]; it
    returns the local [last_detection_time] for the next pass. *)
Definition detection_phase (i : Tick Frame) (current_time last : Q)
  : M Frame Q :=
  if elapsed current_time last detection_interval
  then sample i current_time
  else mret last.

(** The status block of one pass, run every second; it returns the local
    [frame_count] for the next pass. *)
Definition status_phase (i : Tick Frame) (current_time : Q) (count : Z)
  : M Frame Z :=
  last_status ← attr last_status_time;
  if elapsed current_time last_status 1
  then display_status i count;;
       assign (set_last_status_time current_time);;
       mret 0
  else mret count.

(** [self.frame_buffer.append(frame.copy())] *)
Definition push_frame (f : Frame) : M Frame unit :=
  assign (fun c => set_frame_buffer (Deque.append (frame_buffer c) f) c).

(** One pass of [while self.running]; it returns the locals for the next. *)
Definition iteration (i : Tick Frame) (l : Loop) : M Frame Loop :=
  if negb (ret i) then emit OutFrameError;; mret l
  else
    let count := frame_count l + 1 in
    push_frame (frame i);;
    let current_time := t_now i in
    last ← detection_phase i current_time (loop_last_detection_time l);
    count ← status_phase i current_time count;
    pace;;
    mret (mkLoop last count).

Fixpoint iterations (ticks : list (Tick Frame)) (l : Loop) : M Frame Loop :=
  match ticks with
  | [] => mret l
  | i :: rest =>
      go_on ← attr running;
      if (go_on : bool) then l' ← iteration i l; iterations rest l'
      else mret l
  end.

Definition monitoring_loop (ticks : list (Tick Frame)) : M Frame Loop :=
  let l := mkLoop 0 0 in
  emit OutMonitoringStarted;;
  iterations ticks l.

(** [self.cap.release()] *)
Definition release_capture (c : Capture) : Capture :=
  mkCapture (cap_index c) false.

(** [cv2.destroyAllWindows()]: the program opens no window, and with the
    opencv-python build it depends on the call returns. *)
Definition destroyAllWindows : M Frame unit := mret tt.

(** [cleanup] is called by the main thread. The monitoring thread reads
    [running] at the test of its loop only, so a pass that is under way at
    that moment is carried out to its end; see [stopped_during]. *)
Definition cleanup : M Frame unit :=
  assign (set_running false);;
  device ← attr cap;
  match device with
  | Some c => assign (set_cap (Some (release_capture c)))
  | None => mret tt
  end;;
  destroyAllWindows.





(** [start], up to the point where the monitoring thread has been started
    and the main thread begins to wait. *)
Definition start (dev : Device) (hub : Hub) (mounts : Mounts)
  : M Frame StartOutcome :=
  emit OutBanner;;
  try_ (initialize_camera dev;;
        yolo_success ← initialize_yolo hub;
        (if negb (yolo_success : bool)
         then emit OutContinueWithoutDetection;; emit OutAllFramesRecorded
         else mret tt);;
        usb_path ← lift (find_usb_drive mounts);
        emit (OutSaveDestination usb_path);;
        assign (set_running true);;
        c ← gets self;
        emit (OutSystemStarted (buffer_seconds c) (recording_after_seconds c)
                (fps c) (frame_width c) (frame_height c));;
        mret Started)
       (fun e => emit (OutSystemError (exc_msg e));; cleanup;; mret (Exited 1)).

(** Ctrl+C while the main thread waits. *)
Definition interrupt : M Frame StartOutcome :=
  emit OutStopping;; cleanup;; emit OutStopped;; mret (Exited 0).

(** *** Threads started by [stop_recording] *)

Definition mark_done (k : nat) (s : State Frame) : State Frame :=
  mkState (self s) (out s)
          (alter (fun t => mkThread (th_job t) true) k (threads s))
          (detector_calls s) (fs s).

(** Thread [k] runs its target to the end; an exception ends the thread. *)
Definition thread_run (mounts : Mounts) (sink : Sink Frame) (k : nat)
  : M Frame unit :=
  fun s =>
    match threads s !! k with
    | Some t =>
        if th_done t then (s, Ok tt)
        else
          let j := th_job t in
          let r := save_video mounts sink (job_frames j) (job_filename j) s in
          (mark_done k (fst r), Ok tt)
    | None => (s, Ok tt)
    end.

Definition in_flight (s : State Frame) : nat :=
  length (filter (fun t => th_done t = false) (threads s)).

(** [main]: the object it builds, and the state in which [start] runs. *)
Definition main_camera (camera_index : Z) : res (Camera Frame) :=
  __init__ camera_index 5 5 "/media/pi".

Definition boot (c : Camera Frame) (disk : FS Frame) : State Frame :=
  mkState c [] [] [] disk.

End Methods.

End SecurityCamera.
Import SecurityCamera.

(** ** Vocabulary of the properties *)

Section Vocabulary.
Context {Frame : Type} `{FrameLike Frame}.

(** States the loop can be in: a positive frame rate, and a start time
    whenever the recording flag is up. *)
Definition consistent (c : Camera Frame) : Prop :=
  0 < fps c /\ (is_recording c = true -> recording_start_time c <> None).

(** What [detect_person] returns for a detector outcome: a verdict, or
    nothing when an exception outside [Exception] passes through. *)
Definition reported (m : option Model) (d : DetOutcome) : option bool :=
  match m with
  | None => Some false
  | Some _ =>
      match d with
      | DetResults classes => Some (has_person classes)
      | DetRaises e => if is_Exception e then Some false else None
      end
  end.

(** The pass reads a frame and the detection interval has elapsed. *)
Definition sampled (i : Tick Frame) (last : Q) : bool :=
  ret i && elapsed (t_now i) last detection_interval.

(** The sequence of detection samples a run of passes gives rise to: the
    time of each sample and whether it reports a person. *)
Fixpoint samples_of (m : option Model) (last : Q) (ticks : list (Tick Frame))
  : list (Q * bool) :=
  match ticks with
  | [] => []
  | i :: rest =>
      if sampled i last
      then match reported m (detector i) with
           | Some b => (t_now i, b) :: samples_of m (t_now i) rest
           | None => []
           end
      else samples_of m last rest
  end.

(** Present samples are never more than [gap] apart, counting from the
    present sample at [p] that precedes the sequence. *)
Fixpoint presents_within (gap p : Q) (ss : list (Q * bool)) : Prop :=
  match ss with
  | [] => True
  | (t, true) :: rest => (t - p <= gap)%Q /\ presents_within gap t rest
  | (_, false) :: rest => presents_within gap p rest
  end.

(** Every absent sample is followed by a present one. *)
Fixpoint absences_end (ss : list (Q * bool)) : Prop :=
  match ss with
  | [] => True
  | (_, true) :: rest => absences_end rest
  | (_, false) :: rest => rest <> [] /\ absences_end rest
  end.

Definition is_session_event (o : Output) : bool :=
  match o with
  | OutRecordingStarted _ | OutRecordingStopped => true
  | _ => false
  end.

Definition session_events (s : State Frame) : list Output :=
  filter (fun o => is_session_event o = true) (out s).

Definition is_failure_report (o : Output) : bool :=
  match o with
  | OutMkdirError _ | OutOpenError _ | OutSaveError _ => true
  | _ => false
  end.

Definition is_open_writer (o : FsOp) : bool :=
  match o with OpOpenWriter _ _ _ _ => true | _ => false end.

Definition write_indices (ops : list FsOp) : list nat :=
  omap (fun o => match o with OpWrite _ k => Some k | _ => None end) ops.

(** The frames that [out.write] stores, of those offered to it from
    position [index] on. *)
Fixpoint kept (sink : Sink Frame) (index : nat) (frames : list Frame)
  : list Frame :=
  match frames with
  | [] => []
  | f :: rest =>
      if write_lost sink index then kept sink (S index) rest
      else f :: kept sink (S index) rest
  end.

(** The part of the state that the timing of status lines does not touch. *)
Definition core (s : State Frame) :=
  (set_last_status_time 0%Q (self s), session_events s, threads s,
   detector_calls s, fs s).

(** What the recording state machine consists of. *)
Definition session_view (s : State Frame) :=
  (is_recording (self s), last_detection_time (self s), model (self s),
   recording_after_seconds (self s), threads s, session_events s).

(** The first sentence of the claim on leaving the recording state, read in
    exact time: whenever a pass takes the program out of the recording
    state, at least [recording_after_seconds] lie between the last
    detection and that pass. *)
Definition stops_only_after_the_gap : Prop :=
  forall (i : Tick Frame) (l : Loop) (s : State Frame),
    is_recording (self s) = true ->
    is_recording (self (fst (iteration i l s))) = false ->
    (recording_after_seconds (self s)
     <= t_now i - last_detection_time (self s))%Q.

(** The claim on failed writes as the spec has it: after an attempt in
    which a write of a frame raised, no file is left at the destination
    path. *)
Definition failed_write_leaves_no_file : Prop :=
  forall (mounts : Mounts) (sink : Sink Frame) (frames : list Frame)
         (filename : string) (s : State Frame) (usb_path : string)
         (k : nat) (e : pyexc),
    find_usb_drive mounts = Ok usb_path ->
    makedirs_error sink = None ->
    writer_opens sink = true ->
    (k < length frames)%nat ->
    write_error sink k = Some e ->
    is_Exception e = true ->
    files (fs (fst (save_video mounts sink frames filename s)))
      !! video_path_of usb_path filename
    = None.

(** The state after [k] of the given passes. *)
Definition after_passes (ticks : list (Tick Frame)) (k : nat) (l : Loop)
    (s : State Frame) : State Frame :=
  fst (iterations (take k ticks) l s).

End Vocabulary.

(** ** The state after each block of a pass *)

Section Blocks.
Context {Frame : Type} `{FrameLike Frame}.

Definition pushed (f : Frame) (s : State Frame) : State Frame :=
  upd_self (fun c => set_frame_buffer (Deque.append (frame_buffer c) f) c) s.

(** after a sample that reports a person *)
Definition seen_person (now : Q) (i : Tick Frame) (s : State Frame)
  : State Frame :=
  fst (start_recording i
         (upd_self (set_last_detection_time now)
            (upd_self (set_person_detected true) s))).

(** after a sample that reports nobody *)
Definition seen_nobody (now : Q) (i : Tick Frame) (s : State Frame)
  : State Frame :=
  if is_recording (self s)
     && elapsed now (last_detection_time (self s))
          (recording_after_seconds (self s))
  then fst (stop_recording i s)
  else s.

End Blocks.

Section Heard.
Context {Frame : Type} `{FrameLike Frame}.

(** the state in which [detect_person] leaves the program *)
Definition heard (f : Frame) (d : DetOutcome) (s : State Frame) : State Frame :=
  fst (detect_person f d s).

(** the same pass with another detector outcome *)
Definition with_detector (d : DetOutcome) (i : Tick Frame) : Tick Frame :=
  mkTick (ret i) (frame i) (t_now i) d (t_start i) (hms_start i) (stamp i)
         (t_status i) (hms_status i).

(** every detector failure in the passes is an [Exception] *)
Definition failures_are_exceptions (ticks : list (Tick Frame)) : Prop :=
  Forall (fun i => forall e, detector i = DetRaises e -> is_Exception e = true)
         ticks.

End Heard.

(** ** Schedules: passes of the loop interleaved with thread completions *)

Inductive Step (Frame : Type) : Type :=
| Pass (i : Tick Frame)
| Finish (k : nat) (sink : Sink Frame).
Arguments Pass {Frame} i.
Arguments Finish {Frame} k sink.

Section Schedules.
Context {Frame : Type} `{FrameLike Frame}.

Fixpoint run_schedule (mounts : Mounts) (steps : list (Step Frame)) (l : Loop)
  : M Frame Loop :=
  match steps with
  | [] => mret l
  | Pass i :: rest =>
      l' ← iteration i l; run_schedule mounts rest l'
  | Finish k sink :: rest =>
      thread_run mounts sink k;; run_schedule mounts rest l
  end.

(** At most [K] artifacts are being written at any moment of any schedule. *)
Definition persistence_bounded (K : nat) : Prop :=
  forall mounts steps l (s : State Frame),
    threads s = [] ->
    (in_flight (fst (run_schedule mounts steps l s)) <= K)%nat.

End Schedules.

(** ** A concrete installation *)

Module Demo.

(** Frames are numbered in capture order; all are 640x480. *)
#[export] Instance numbered_frame : FrameLike nat := {| shape _ := (480, 640) |}.

(** Pass [k] happens [k * period] seconds after [t0]; the detector, if
    asked, sees a person exactly on the frames selected by [present]. *)
Definition tick_at (period t0 : Q) (present : nat -> bool) (k : nat) : Tick nat :=
  let t := (t0 + inject_Z (Z.of_nat k) * period)%Q in
  mkTick true k t (DetResults (if present k then [0] else []))
         t "12:00:00" "2024-01-01_12-00-00" t "12:00:00".

Definition trace (period t0 : Q) (present : nat -> bool) (n : nat)
  : list (Tick nat) :=
  map (tick_at period t0 present) (seq 0 n).

(** a camera that delivers 640x480 at 30 frames per second *)
Definition camera30 : Device := mkDevice true 640 480 30.

(** torch is installed and the pretrained model loads *)
Definition hub_ok : Hub :=
  mkHub true false (Raise (PyException "no local model"))
        (Ok (mkModel (25 # 100) (45 # 100))).

(** torch is not installed *)
Definition hub_missing : Hub :=
  mkHub false false (Raise (PyException "No module named 'torch'"))
        (Raise (PyException "No module named 'torch'")).

(** no removable medium is mounted *)
Definition no_mounts : Mounts :=
  mkMounts (fun _ => false) (fun _ => ListEntries []) (fun _ => false)
           (fun _ => false) "".

Definition empty_disk : FS nat := mkFS ∅ ∅ [].

(** [main()] up to the start of the monitoring thread *)
Definition power_on (dev : Device) (hub : Hub) (mounts : Mounts) (disk : FS nat)
  : option (State nat) :=
  match main_camera 0 with
  | Ok c =>
      match start dev hub mounts (boot c disk) with
      | (s, Ok Started) => Some s
      | _ => None
      end
  | Raise _ => None
  end.

(** the state after the first [n] passes of a trace *)
Definition watch (s : State nat) (ticks : list (Tick nat)) (n : nat)
  : State nat :=
  fst (monitoring_loop (take n ticks) s).

(** a sink on which everything succeeds *)
Definition good_sink : Sink nat :=
  mkSink None true (fun _ => None) (fun _ => false) None
         (fun written => Z.of_nat (length written)).

(** a sink whose third [out.write] raises *)
Definition failing_sink : Sink nat :=
  mkSink None true
         (fun k => if Nat.eqb k 2 then Some (PyException "write failed") else None)
         (fun _ => false) None
         (fun written => Z.of_nat (length written)).

(** a medium that is pulled during the third [out.write]: the write raises
    and the file can no longer be removed *)
Definition pulled_sink : Sink nat :=
  mkSink None true
         (fun k => if Nat.eqb k 2 then Some (PyException "write failed") else None)
         (fun _ => false) (Some (PyException "Input/output error"))
         (fun written => Z.of_nat (length written)).

(** the object as [main] builds it, with a model loaded and the loop running *)
Definition idle_camera : Camera nat :=
  mkCamera 0 5 5 "/media/pi" (Some (mkCapture 0 true))
           (Some (mkModel (25 # 100) (45 # 100)))
           640 480 30 (mkDeque [] 150) false None false 0 true 0.

Definition idle_state : State nat := boot idle_camera empty_disk.

(** the same object in the middle of a session that began at second 1000 *)
Definition recording_camera : Camera nat :=
  mkCamera 0 5 5 "/media/pi" (Some (mkCapture 0 true))
           (Some (mkModel (25 # 100) (45 # 100)))
           640 480 30 (mkDeque [7; 8; 9]%nat 150) true (Some 1000%Q) true
           1000 true 1000.

Definition recording_state : State nat := boot recording_camera empty_disk.

(** a pass at second [t] in which the detector would report [classes] *)
Definition pass_at (t : Q) (f : nat) (classes : list Z) : Tick nat :=
  mkTick true f t (DetResults classes) t "12:00:00" "2024-01-01_12-00-00"
         t "12:00:00".

(** a pass at second [t] in which the detector raises *)
Definition pass_raising (t : Q) (f : nat) (e : pyexc) : Tick nat :=
  mkTick true f t (DetRaises e) t "12:00:00" "2024-01-01_12-00-00"
         t "12:00:00".

(** Sessions back to back: session [j] has a person in front of the camera
    at second [session_start j] and an empty picture five seconds later. *)
Fixpoint session_start (j : nat) : Q :=
  match j with
  | O => 1000
  | S j' => session_start j' + 10
  end.

Definition session (j : nat) : list (Step nat) :=
  [Pass (pass_at (session_start j) 0 [0]);
   Pass (pass_at (session_start j + 5) 1 [])].

Fixpoint sessions (j n : nat) : list (Step nat) :=
  match n with
  | O => []
  | S n' => session j ++ sessions (S j) n'
  end.

(** what a session finds and leaves behind *)
Definition between_sessions (j : nat) (l : Loop) (s : State nat) : Prop :=
  consistent (self s)
  /\ is_recording (self s) = false
  /\ model (self s) <> None
  /\ recording_after_seconds (self s) = 5%Q
  /\ (loop_last_detection_time l + detection_interval <= session_start j)%Q.

(** Thirty passes a second with a person on frames 0 and 165: two sessions,
    the second ending eleven seconds after the first began. *)
Definition two_visits : list (Step nat) :=
  map Pass (trace (1 # 30) 1000 (fun k => Nat.eqb k 0 || Nat.eqb k 165) 316).

End Demo.

(** ** Vocabulary for the start-up, the mount points and the sink *)

Section MoreVocabulary.
Context {Frame : Type} `{FrameLike Frame}.

(** a directory the program may write to *)
Definition writable_dir (mounts : Mounts) (path : string) : bool :=
  isdir mounts path && access_W_OK mounts path.

(** the directory used when no medium is found *)
Definition local_path (mounts : Mounts) : string :=
  OsPath.join (script_dir mounts) "recordings".

(** a mount point that yields nothing: it does not exist, it may not be
    listed, or none of its entries is a writable directory *)
Definition barren (mounts : Mounts) (base_path : string) : Prop :=
  path_exists mounts base_path = false
  \/ listdir mounts base_path = ListPermissionError
  \/ exists names,
       listdir mounts base_path = ListEntries names
       /\ Forall (fun item =>
                    writable_dir mounts (OsPath.join base_path item) = false)
                 names.

(** listing a mount point fails, if at all, with a PermissionError *)
Definition listings_answer (mounts : Mounts) : Prop :=
  forall base_path e,
    base_path ∈ possible_paths ->
    path_exists mounts base_path = true ->
    listdir mounts base_path <> ListError e.

(** whatever listing a mount point raises is an [Exception] *)
Definition listing_failures_are_exceptions (mounts : Mounts) : Prop :=
  forall base_path e,
    base_path ∈ possible_paths ->
    path_exists mounts base_path = true ->
    listdir mounts base_path = ListError e ->
    is_Exception e = true.

(** whatever loading a model raises is an [Exception] *)
Definition loader_failures_are_exceptions (hub : Hub) : Prop :=
  (forall e, load_custom hub = Raise e -> is_Exception e = true)
  /\ (forall e, load_pretrained hub = Raise e -> is_Exception e = true).

(** a sink on which nothing fails: every write stores its frame *)
Definition healthy (sink : Sink Frame) : Prop :=
  makedirs_error sink = None
  /\ writer_opens sink = true
  /\ forall k, write_error sink k = None /\ write_lost sink k = false.

(** what [start] leaves untouched *)
Definition untouched_by_start (s s' : State Frame) : Prop :=
  is_recording (self s') = is_recording (self s)
  /\ recording_start_time (self s') = recording_start_time (self s)
  /\ buffer_seconds (self s') = buffer_seconds (self s)
  /\ recording_after_seconds (self s') = recording_after_seconds (self s)
  /\ threads s' = threads s
  /\ detector_calls s' = detector_calls s
  /\ fs s' = fs s.

(** the object after [cleanup]: not running, the capture released *)
Definition quiet (c : Camera Frame) : Camera Frame :=
  match cap c with
  | Some k => set_cap (Some (release_capture k)) (set_running false c)
  | None => set_running false c
  end.

(** A block of a pass that looks neither at [running] nor at the capture
    object: run on the object as [cleanup] leaves it, it does what it does
    otherwise. *)
Definition ignores_cleanup {A} (block : M Frame A) : Prop :=
  forall s, block (upd_self quiet s)
            = (upd_self quiet (fst (block s)), snd (block s)).

(** the body of the [try] in [start] *)
Definition start_body (dev : Device) (hub : Hub) (mounts : Mounts)
  : M Frame StartOutcome :=
  initialize_camera dev;;
  yolo_success ← initialize_yolo hub;
  (if negb (yolo_success : bool)
   then emit OutContinueWithoutDetection;; emit OutAllFramesRecorded
   else mret tt);;
  usb_path ← lift (find_usb_drive mounts);
  emit (OutSaveDestination usb_path);;
  assign (set_running true);;
  c ← gets self;
  emit (OutSystemStarted (buffer_seconds c) (recording_after_seconds c)
          (fps c) (frame_width c) (frame_height c));;
  mret Started.

(** how many sessions the log shows as started, and as stopped *)
Definition is_start_line (o : Output) : bool :=
  match o with OutRecordingStarted _ => true | _ => false end.

Definition is_stop_line (o : Output) : bool :=
  match o with OutRecordingStopped => true | _ => false end.

Definition started_count (s : State Frame) : nat :=
  length (filter (fun o => is_start_line o = true) (session_events s)).

Definition stopped_count (s : State Frame) : nat :=
  length (filter (fun o => is_stop_line o = true) (session_events s)).

(** Sessions do not overlap and each finished one has its thread: as many
    threads as stop lines, and one more start line than stop lines exactly
    while recording. *)
Definition sessions_tally (s : State Frame) : Prop :=
  length (threads s) = stopped_count s
  /\ started_count s
     = (stopped_count s + if is_recording (self s) then 1 else 0)%nat.

(** the thresholds the program sets on a local model *)
Definition tuned : Model := mkModel (1 # 2) (45 # 100).

End MoreVocabulary.

Module Rig.

(** a stick mounted under /media/pi next to a read-only entry, and a second
    medium under /mnt *)
Definition usb_mounts : Mounts :=
  mkMounts
    (fun p => String.eqb p "/media/pi" || String.eqb p "/mnt")
    (fun p => if String.eqb p "/media/pi" then ListEntries ["CDROM"; "STICK"; "SPARE"]
              else if String.eqb p "/mnt" then ListEntries ["disk"]
              else ListEntries [])
    (fun p => String.eqb p "/media/pi/CDROM" || String.eqb p "/media/pi/STICK"
              || String.eqb p "/media/pi/SPARE" || String.eqb p "/mnt/disk")
    (fun p => String.eqb p "/media/pi/STICK" || String.eqb p "/media/pi/SPARE"
              || String.eqb p "/mnt/disk")
    "/home/pi/cam".

(** /media/pi may not be listed; /mnt holds a writable directory *)
Definition locked_mounts : Mounts :=
  mkMounts
    (fun p => String.eqb p "/media/pi" || String.eqb p "/mnt")
    (fun p => if String.eqb p "/media/pi" then ListPermissionError
              else if String.eqb p "/mnt" then ListEntries ["disk"]
              else ListEntries [])
    (fun p => String.eqb p "/mnt/disk")
    (fun p => String.eqb p "/mnt/disk")
    "/home/pi/cam".

(** a camera that cannot be opened *)
Definition camera_closed : Device := mkDevice false 0 0 0.

(** a camera that negotiates 15 frames per second at 320x240 *)
Definition camera15 : Device := mkDevice true 320 240 15.

(** a camera that does not report its frame rate *)
Definition camera_mute : Device := mkDevice true 640 480 0.

(** torch is installed, a local model file exists and loads *)
Definition hub_local : Hub :=
  mkHub true true (Ok (mkModel (25 # 100) (45 # 100)))
        (Ok (mkModel (25 # 100) (45 # 100))).

(** torch is installed, the local model file is broken, the download works *)
Definition hub_broken_local : Hub :=
  mkHub true true (Raise (PyException "invalid checkpoint"))
        (Ok (mkModel (25 # 100) (45 # 100))).

(** torch is installed and nothing loads *)
Definition hub_offline : Hub :=
  mkHub true false (Raise (PyException "no local model"))
        (Raise (PyException "network unreachable")).

(** a medium on which the writer does not open *)
Definition no_writer_sink : Sink nat :=
  mkSink None false (fun _ => None) (fun _ => false) None
         (fun written => Z.of_nat (length written)).

(** the object of [main] before [start] *)
Definition fresh_camera : Camera nat :=
  mkCamera 0 5 5 "/media/pi" None None 640 480 30 (mkDeque [] 150)
           false None false 0 false 0.

Definition fresh_state : State nat := boot fresh_camera Demo.empty_disk.

(** an object built with [buffer_seconds = 0] and a model loaded *)
Definition bufferless_camera : Camera nat :=
  mkCamera 0 0 5 "/media/pi" (Some (mkCapture 0 true))
           (Some (mkModel (25 # 100) (45 # 100)))
           640 480 30 (mkDeque [] 0) false None false 0 true 0.

Definition bufferless_state : State nat := boot bufferless_camera Demo.empty_disk.

End Rig.

(** case analysis on a state whose object has, or has not, a capture *)
Ltac open_state s :=
  destruct s as [[? ? ? ? [?|] ? ? ? ? ? ? ? ? ? ? ?] ? ? ? ?].

(** * Properties *)

(** ** The bounded deque *)

Section DequeFacts.
Context {A : Type}.
Implicit Types (d : deque A) (x : A) (xs : list A).

Lemma maxlen_append d x : maxlen (append d x) = maxlen d.
Proof. reflexivity. Qed.

Lemma extend_cons d x xs : extend d (x :: xs) = extend (append d x) xs.
Proof. reflexivity. Qed.

Lemma maxlen_extend xs : forall d, maxlen (extend d xs) = maxlen d.
Proof.
  induction xs as [|x xs IH]; intros d; [reflexivity|].
  rewrite extend_cons, IH. apply maxlen_append.
Qed.

Lemma new_inv n d : @Deque.new A n = Ok d -> 0 <= n /\ d = mkDeque [] n.
Proof.
  unfold Deque.new. destruct (_ || _); [discriminate|].
  destruct (Z.ltb_spec n 0); intros E; [discriminate|].
  injection E as <-. split; [assumption|reflexivity].
Qed.

(** The three outcomes of [deque(maxlen=n)]. *)
Lemma new_spec n :
  (0 <= n <= PY_SSIZE_T_MAX -> @Deque.new A n = Ok (mkDeque [] n))
  /\ (n < 0 \/ PY_SSIZE_T_MAX < n ->
      exists msg, @Deque.new A n = Raise (PyException msg)).
Proof.
  unfold Deque.new, PY_SSIZE_T_MAX.
  destruct (Z.ltb_spec n (- (2 ^ 63 - 1) - 1)), (Z.ltb_spec (2 ^ 63 - 1) n),
    (Z.ltb_spec n 0); cbn; split; intros Hn; try lia; eauto.
Qed.

(** A deque within its bound stays within it. *)
Lemma len_append d x :
  0 <= maxlen d -> len d <= maxlen d -> len (append d x) <= maxlen d.
Proof.
  unfold len, append. simpl. intros H0 Hle.
  destruct (Z.ltb_spec (maxlen d) (Z.of_nat (length (items d ++ [x])))) as [Hlt|Hge].
  - rewrite length_drop, length_app. simpl. lia.
  - exact Hge.
Qed.

Lemma len_extend xs : forall d,
  0 <= maxlen d -> len d <= maxlen d -> len (extend d xs) <= maxlen d.
Proof.
  induction xs as [|x xs IH]; intros d H0 Hle; [exact Hle|].
  rewrite extend_cons, <- (maxlen_append d x). apply IH.
  - rewrite maxlen_append. exact H0.
  - rewrite maxlen_append. apply len_append; assumption.
Qed.

Lemma keeps_last_append hist d x :
  0 <= maxlen d -> keeps_last hist d -> keeps_last (hist ++ [x]) (append d x).
Proof.
  unfold keeps_last, append. simpl. intros H0 Hk.
  set (c := Z.to_nat (maxlen d)).
  assert (Hlen : length (items d) = (length hist - (length hist - c))%nat)
    by (rewrite Hk, length_drop; reflexivity).
  rewrite length_app, length_app. simpl.
  destruct (Z.ltb_spec (maxlen d) (Z.of_nat (length (items d) + 1))) as [Hlt|Hge].
  - rewrite Hk, <- drop_app_le by lia. rewrite drop_drop. f_equal. lia.
  - rewrite Hk, <- drop_app_le by lia. f_equal. lia.
Qed.

Lemma keeps_last_extend xs : forall hist d,
  0 <= maxlen d -> keeps_last hist d -> keeps_last (hist ++ xs) (extend d xs).
Proof.
  induction xs as [|x xs IH]; intros hist d H0 Hk.
  - rewrite app_nil_r. exact Hk.
  - replace (hist ++ x :: xs) with ((hist ++ [x]) ++ xs)
      by (rewrite <- app_assoc; reflexivity).
    rewrite extend_cons.
    apply IH; [rewrite maxlen_append; exact H0|].
    apply keeps_last_append; assumption.
Qed.

(** Oldest first: a push onto a full deque drops exactly its head. *)
Lemma append_full d x :
  0 < maxlen d -> len d = maxlen d ->
  items (append d x) = drop 1 (items d) ++ [x].
Proof.
  unfold len, append. simpl. intros H0 Hfull.
  rewrite length_app. simpl.
  destruct (Z.ltb_spec (maxlen d) (Z.of_nat (length (items d) + 1))); [|lia].
  destruct (items d); simpl in *; [lia|reflexivity].
Qed.

Lemma append_room d x :
  len d < maxlen d -> items (append d x) = items d ++ [x].
Proof.
  unfold len, append. simpl. intros Hroom.
  rewrite length_app. simpl.
  destruct (Z.ltb_spec (maxlen d) (Z.of_nat (length (items d) + 1))); [lia|reflexivity].
Qed.

End DequeFacts.

(** ** The methods, block by block *)

(** ** Facts about the float subtraction *)

Section Binary64Facts.
Import Binary64.

Lemma pow2_pos e : (0 < pow2 e)%Q.
Proof. apply Qpower_0_lt. reflexivity. Qed.

Lemma pow2_succ e : (pow2 (e + 1) == 2 * pow2 e)%Q.
Proof.
  unfold pow2. rewrite Qpower_plus by discriminate. rewrite Qpower_1_r.
  ring.
Qed.

Lemma pow2_of_Z k : 0 <= k -> (pow2 k == inject_Z (2 ^ k))%Q.
Proof. intros Hk. unfold pow2. rewrite Zpower_Qpower by exact Hk. reflexivity. Qed.

Lemma pow2_minus a b : (pow2 (a - b) == pow2 a / pow2 b)%Q.
Proof. unfold pow2. apply Qpower_minus. discriminate. Qed.

(** a positive rational between the powers of two that bracket its
    numerator and its denominator *)
Lemma log2_bracket (x : Q) :
  (0 < x)%Q ->
  let a := Z.log2 (Qnum x) - Z.log2 (Zpos (Qden x)) in
  (pow2 (a - 1) < x /\ x < pow2 (a + 1))%Q.
Proof.
  intros Hx a. destruct x as [n d]. cbn [Qnum Qden] in a.
  assert (Hn : 0 < n) by (unfold Qlt in Hx; cbn in Hx; lia).
  pose proof (Z.log2_spec n Hn) as [Hn1 Hn2].
  pose proof (Z.log2_spec (Z.pos d) (Pos2Z.is_pos d)) as [Hd1 Hd2].
  pose proof (Z.log2_nonneg n) as Hln.
  pose proof (Z.log2_nonneg (Z.pos d)) as Hld.
  set (ln := Z.log2 n) in *. set (ld := Z.log2 (Z.pos d)) in *.
  assert (En : (pow2 ln == inject_Z (2 ^ ln))%Q) by (apply pow2_of_Z; lia).
  assert (Ed : (pow2 ld == inject_Z (2 ^ ld))%Q) by (apply pow2_of_Z; lia).
  assert (Ex : (n # d == inject_Z n / inject_Z (Z.pos d))%Q).
  { rewrite Qmake_Qdiv. reflexivity. }
  assert (Hdq : (0 < inject_Z (Z.pos d))%Q) by (unfold Qlt; cbn; lia).
  assert (Pn : (0 < pow2 ln)%Q) by apply pow2_pos.
  assert (Pd : (0 < pow2 ld)%Q) by apply pow2_pos.
  assert (Bn1 : (pow2 ln <= inject_Z n)%Q).
  { rewrite En. rewrite <- Zle_Qle. exact Hn1. }
  assert (Bn2 : (inject_Z n < 2 * pow2 ln)%Q).
  { rewrite En. change 2%Q with (inject_Z 2). rewrite <- inject_Z_mult, <- Zlt_Qlt.
    replace (2 * 2 ^ ln) with (2 ^ Z.succ ln) by (rewrite Z.pow_succ_r; lia). exact Hn2. }
  assert (Bd1 : (pow2 ld <= inject_Z (Z.pos d))%Q).
  { rewrite Ed. rewrite <- Zle_Qle. exact Hd1. }
  assert (Bd2 : (inject_Z (Z.pos d) < 2 * pow2 ld)%Q).
  { rewrite Ed. change 2%Q with (inject_Z 2). rewrite <- inject_Z_mult, <- Zlt_Qlt.
    replace (2 * 2 ^ ld) with (2 ^ Z.succ ld) by (rewrite Z.pow_succ_r; lia). exact Hd2. }
  assert (Ea : (pow2 a == pow2 ln / pow2 ld)%Q) by apply pow2_minus.
  assert (Ea1 : (pow2 (a + 1) == 2 * pow2 a)%Q) by apply pow2_succ.
  assert (Ea0 : (pow2 a == 2 * pow2 (a - 1))%Q).
  { replace a with ((a - 1) + 1) at 1 by lia. apply pow2_succ. }
  rewrite Ex. split.
  - apply Qlt_shift_div_l; [exact Hdq|].
    assert (E : (pow2 (a - 1) * pow2 ld * 2 == pow2 ln)%Q).
    { transitivity (pow2 a * pow2 ld)%Q; [rewrite Ea0; ring|].
      rewrite Ea. field. intros E0. rewrite E0 in Pd. inversion Pd. }
    assert (P1 : (0 < pow2 (a - 1))%Q) by apply pow2_pos.
    nra.
  - apply Qlt_shift_div_r; [exact Hdq|].
    assert (E : (pow2 (a + 1) * pow2 ld == 2 * pow2 ln)%Q).
    { rewrite Ea1, Ea. field. intros E0. rewrite E0 in Pd. inversion Pd. }
    assert (P1 : (0 < pow2 (a + 1))%Q) by apply pow2_pos.
    nra.
Qed.

Lemma binade_spec (x : Q) :
  (0 < x)%Q -> (pow2 (binade x) <= x /\ x < pow2 (binade x + 1))%Q.
Proof.
  intros Hx. pose proof (log2_bracket x Hx) as [Hlo Hhi]. cbn zeta in Hlo, Hhi.
  unfold binade.
  set (a := Z.log2 (Qnum x) - Z.log2 (Z.pos (Qden x))) in *.
  destruct (Qle_bool (pow2 a) x) eqn:E.
  - apply Qle_bool_iff in E. split; assumption.
  - split; [apply Qlt_le_weak; exact Hlo|].
    replace (a - 1 + 1) with a by lia.
    apply Qnot_le_lt. intros Hle. apply Qle_bool_iff in Hle. congruence.
Qed.

Lemma rint_near (y : Q) :
  (inject_Z (rint y) - (1 # 2) <= y /\ y <= inject_Z (rint y) + (1 # 2))%Q.
Proof.
  unfold rint. pose proof (Qfloor_le y) as Hlo. pose proof (Qlt_floor y) as Hhi.
  set (f := Qfloor y) in *.
  rewrite inject_Z_plus in Hhi. change (inject_Z 1) with 1%Q in Hhi.
  destruct (Qcompare_spec (y - inject_Z f) (1 # 2)) as [E|E|E].
  - destruct (Z.even f); [|rewrite inject_Z_plus; change (inject_Z 1) with 1%Q]; lra.
  - lra.
  - rewrite inject_Z_plus. change (inject_Z 1) with 1%Q. lra.
Qed.

Lemma rint_floor (y : Q) : Qfloor y <= rint y.
Proof.
  unfold rint. destruct (_ ?= _)%Q; [destruct (Z.even _)|..]; lia.
Qed.

(** the significand of a positive rational *)
Lemma significand_bounds (x : Q) :
  (0 < x)%Q ->
  let ulp := pow2 (binade x - 52) in
  (0 < ulp /\ pow2 52 * ulp <= x /\ x < 2 * pow2 52 * ulp)%Q.
Proof.
  intros Hx ulp. pose proof (binade_spec x Hx) as [Hlo Hhi].
  assert (Pu : (0 < ulp)%Q) by apply pow2_pos.
  assert (P52 : (0 < pow2 52)%Q) by apply pow2_pos.
  assert (E : (pow2 52 * ulp == pow2 (binade x))%Q).
  { unfold ulp. rewrite pow2_minus. field.
    intros E0. rewrite E0 in P52. inversion P52. }
  rewrite pow2_succ in Hhi. split_and!; [exact Pu|lra|nra].
Qed.

Lemma round53_pos_near (x : Q) :
  (0 < x)%Q ->
  (x - x / pow2 53 <= round53_pos x /\ round53_pos x <= x + x / pow2 53)%Q.
Proof.
  intros Hx. destruct (significand_bounds x Hx) as (Pu & Hlo & _).
  unfold round53_pos. set (ulp := pow2 (binade x - 52)) in *.
  pose proof (rint_near (x / ulp)) as [N1 N2].
  set (m := inject_Z (rint (x / ulp))) in *.
  assert (Ey : (x / ulp * ulp == x)%Q).
  { field. intros E0. rewrite E0 in Pu. inversion Pu. }
  assert (E53 : (pow2 53 == 2 * pow2 52)%Q) by (exact (pow2_succ 52)).
  assert (P52 : (0 < pow2 52)%Q) by apply pow2_pos.
  assert (Hh : (ulp / 2 <= x / pow2 53)%Q).
  { rewrite E53. apply Qle_shift_div_l; [lra|].
    assert (Eq : (ulp / 2 * (2 * pow2 52) == pow2 52 * ulp)%Q) by field.
    rewrite Eq. exact Hlo. }
  assert (M1 : ((m - (1 # 2)) * ulp <= x / ulp * ulp)%Q)
    by (apply Qmult_le_compat_r; lra).
  assert (M2 : (x / ulp * ulp <= (m + (1 # 2)) * ulp)%Q)
    by (apply Qmult_le_compat_r; lra).
  rewrite Ey in M1, M2.
  set (q := (x / pow2 53)%Q) in *. set (p := (m * ulp)%Q).
  assert (E1 : ((m - (1 # 2)) * ulp == p - ulp / 2)%Q) by (unfold p; field).
  assert (E2 : ((m + (1 # 2)) * ulp == p + ulp / 2)%Q) by (unfold p; field).
  rewrite E1 in M1. rewrite E2 in M2.
  set (h := (ulp / 2)%Q) in *. split; lra.
Qed.

Lemma round53_pos_pos (x : Q) : (0 < x)%Q -> (0 < round53_pos x)%Q.
Proof.
  intros Hx. destruct (significand_bounds x Hx) as (Pu & Hlo & _).
  unfold round53_pos. set (ulp := pow2 (binade x - 52)) in *.
  assert (P52 : (1 <= pow2 52)%Q).
  { unfold pow2. apply Qpower_1_le; [discriminate|lia]. }
  assert (Hy : (1 <= x / ulp)%Q).
  { apply Qle_shift_div_l; [exact Pu|]. nra. }
  assert (Hf : 1 <= Qfloor (x / ulp)).
  { change 1 with (Qfloor 1). apply Qfloor_resp_le. exact Hy. }
  pose proof (rint_floor (x / ulp)) as Hr.
  apply Qmult_lt_0_compat; [|exact Pu].
  change 0%Q with (inject_Z 0). rewrite <- Zlt_Qlt. lia.
Qed.

(** Rounding does not take a number below the power of two under it. *)
Lemma round53_pos_binade (x : Q) :
  (0 < x)%Q -> (pow2 (binade x) <= round53_pos x)%Q.
Proof.
  intros Hx. destruct (significand_bounds x Hx) as (Pu & Hlo & _).
  unfold round53_pos. set (ulp := pow2 (binade x - 52)) in *.
  assert (P52 : (0 < pow2 52)%Q) by apply pow2_pos.
  assert (E : (pow2 (binade x) == pow2 52 * ulp)%Q).
  { unfold ulp. rewrite pow2_minus. field.
    intros E0. rewrite E0 in P52. inversion P52. }
  assert (Hy : (pow2 52 <= x / ulp)%Q).
  { apply Qle_shift_div_l; [exact Pu|exact Hlo]. }
  rewrite (pow2_of_Z 52) in Hy by lia.
  apply Qfloor_resp_le in Hy. rewrite Qfloor_Z in Hy.
  pose proof (rint_floor (x / ulp)) as Hr.
  rewrite E, (pow2_of_Z 52) by lia.
  apply Qmult_le_compat_r; [|lra].
  rewrite <- Zle_Qle. lia.
Qed.

Lemma binade_above (x : Q) k :
  (pow2 k <= x)%Q -> k <= binade x.
Proof.
  intros Hk. assert (Hx : (0 < x)%Q) by (pose proof (pow2_pos k); lra).
  destruct (binade_spec x Hx) as [_ Hhi].
  destruct (Z_lt_le_dec (binade x) k) as [Hlt|Hle]; [|exact Hle].
  assert (Hp : (pow2 (binade x + 1) <= pow2 k)%Q).
  { unfold pow2. apply Qpower_le_compat_l; [lia|discriminate]. }
  lra.
Qed.

Lemma round53_cases (x : Q) :
  ((x == 0 /\ round53 x = 0)
   \/ (0 < x /\ round53 x = round53_pos x)
   \/ (x < 0 /\ round53 x = - round53_pos (- x)))%Q.
Proof.
  destruct x as [[|n|n] d]; unfold round53; cbn [Qnum].
  - left. split; reflexivity.
  - right. left. split; reflexivity.
  - right. right. split; reflexivity.
Qed.

(** The rounded value has the sign of the exact one. *)
Lemma round53_sign (x : Q) :
  ((0 < round53 x <-> 0 < x) /\ (round53 x < 0 <-> x < 0))%Q.
Proof.
  destruct (round53_cases x) as [[Hx ->]|[[Hx ->]|[Hx ->]]].
  - split; split; intros Hlt; lra.
  - pose proof (round53_pos_pos x Hx). split; split; intros; lra.
  - assert (Hn : (0 < - x)%Q) by lra.
    pose proof (round53_pos_pos (- x) Hn). split; split; intros; lra.
Qed.

(** The relative error of rounding is at most [2^-53]. *)
Lemma round53_near (x : Q) :
  (Qabs (round53 x - x) <= Qabs x / pow2 53)%Q.
Proof.
  assert (P53 : (0 < pow2 53)%Q) by apply pow2_pos.
  destruct (round53_cases x) as [[Hx ->]|[[Hx ->]|[Hx ->]]].
  - assert (E : (Qabs x / pow2 53 == 0)%Q).
    { rewrite Hx. unfold Qdiv. apply Qmult_0_l. }
    rewrite E. apply Qabs_Qle_condition. split; lra.
  - pose proof (round53_pos_near x Hx) as [N1 N2].
    rewrite (Qabs_pos x) by lra.
    set (q := (x / pow2 53)%Q) in *.
    apply Qabs_Qle_condition. split; lra.
  - assert (Hn : (0 < - x)%Q) by lra.
    pose proof (round53_pos_near (- x) Hn) as [N1 N2].
    rewrite (Qabs_neg x) by lra.
    set (q := (- x / pow2 53)%Q) in *.
    apply Qabs_Qle_condition. split; lra.
Qed.

Lemma sub_eq (a b c : Q) : (a - b == c)%Q -> sub a b = sub c 0.
Proof.
  intros E. unfold sub. do 2 f_equal. apply Qred_complete. rewrite E. ring.
Qed.

(** A difference of at least a power of two is computed as at least that
    power of two: the tests against 0.5 and 1.0 never miss. *)
Lemma sub_above_pow2 (a b : Q) k :
  (pow2 k <= a - b)%Q -> (pow2 k <= sub a b)%Q.
Proof.
  intros Hk. unfold sub. pose proof (Qred_correct (a - b)) as E.
  set (r := Qred (a - b)) in *. rewrite Qred_correct.
  assert (Hr : (pow2 k <= r)%Q) by lra.
  assert (Hx : (0 < r)%Q) by (pose proof (pow2_pos k); lra).
  destruct (round53_cases r) as [[H0 _]|[[_ ->]|[Hn _]]]; [lra| |lra].
  pose proof (round53_pos_binade r Hx) as Hb.
  pose proof (binade_above r k Hr) as Hle.
  assert (Hp : (pow2 k <= pow2 (binade r))%Q).
  { unfold pow2. apply Qpower_le_compat_l; [lia|discriminate]. }
  lra.
Qed.

Lemma sub_pos (a b : Q) : (0 < sub a b)%Q <-> (b < a)%Q.
Proof.
  unfold sub. pose proof (proj1 (round53_sign (Qred (a - b)))) as Hs.
  pose proof (Qred_correct (a - b)) as E.
  set (r := Qred (a - b)) in *. rewrite Qred_correct. split; intros Hlt.
  - apply Hs in Hlt. lra.
  - apply Hs. lra.
Qed.

Lemma sub_nonneg (a b : Q) : (0 <= sub a b)%Q <-> (b <= a)%Q.
Proof.
  unfold sub. pose proof (proj2 (round53_sign (Qred (a - b)))) as Hs.
  pose proof (Qred_correct (a - b)) as E.
  set (r := Qred (a - b)) in *. rewrite Qred_correct. split; intros Hle.
  - apply Qnot_lt_le. intros Hlt. assert (Hn : (r < 0)%Q) by lra.
    apply Hs in Hn. lra.
  - apply Qnot_lt_le. intros Hlt. apply Hs in Hlt. lra.
Qed.

Lemma eps_pow2 (x : Q) : (x / pow2 53 == x * eps)%Q.
Proof.
  assert (E : (pow2 53 == 9007199254740992)%Q) by reflexivity.
  rewrite E. unfold eps. field.
Qed.

(** What the program computes is within a relative [2^-53] of the exact
    difference. *)
Lemma sub_near (a b : Q) :
  (Qabs (sub a b - (a - b)) <= Qabs (a - b) * eps)%Q.
Proof.
  unfold sub. pose proof (round53_near (Qred (a - b))) as Hn.
  pose proof (Qred_correct (a - b)) as E.
  set (r := Qred (a - b)) in *. rewrite Qred_correct.
  assert (E1 : (Qabs (round53 r - (a - b)) == Qabs (round53 r - r))%Q)
    by (rewrite <- E; reflexivity).
  assert (E2 : (Qabs (a - b) * eps == Qabs r / pow2 53)%Q)
    by (rewrite eps_pow2, <- E; reflexivity).
  rewrite E1, E2. exact Hn.
Qed.

(** A difference that is not negative is computed as at most the exact one
    stretched by one rounding error. *)
Lemma sub_upper (a b : Q) :
  (b <= a)%Q -> (sub a b <= (a - b) * (1 + eps))%Q.
Proof.
  intros Hab. pose proof (sub_near a b) as Hn.
  rewrite (Qabs_pos (a - b)) in Hn by lra.
  apply Qabs_Qle_condition in Hn as [_ Hn]. unfold eps in *. lra.
Qed.

(** For a gap that is not negative: the computed difference reaches [d]
    only if the exact one, stretched by one rounding error, does. *)
Lemma sub_reaches (a b d : Q) :
  (0 <= d)%Q -> (d <= sub a b)%Q -> (d <= (a - b) * (1 + eps))%Q.
Proof.
  intros Hd Hle.
  assert (Hab : (b <= a)%Q) by (apply sub_nonneg; lra).
  pose proof (sub_upper a b Hab). lra.
Qed.

End Binary64Facts.

#[local] Arguments Binary64.sub : simpl never.
#[local] Arguments Binary64.pow2 : simpl never.
#[local] Arguments Binary64.eps : simpl never.

Section MethodFacts.
Context {Frame : Type} `{FrameLike Frame}.
Implicit Types (s : State Frame) (i : Tick Frame) (l : Loop).

Lemma start_recording_eq i s :
  start_recording i s =
  (if is_recording (self s) then s
   else add_out (OutRecordingStarted (hms_start i))
          (upd_self (set_recording_start_time (Some (t_start i)))
             (upd_self (set_is_recording true) s)),
   Ok tt).
Proof.
  unfold start_recording, mbind, M_bind, attr, gets. cbn.
  destruct (is_recording (self s)); reflexivity.
Qed.

Lemma stop_recording_eq i s :
  stop_recording i s =
  (if is_recording (self s)
   then add_thread (mkJob (Deque.to_list (frame_buffer (self s)))
                          ("security_" +:+ stamp i +:+ ".mp4"))
          (add_out OutRecordingStopped
             (upd_self (set_person_detected false)
                (upd_self (set_is_recording false) s)))
   else s,
   Ok tt).
Proof.
  unfold stop_recording, mbind, M_bind, attr, gets. cbn.
  destruct (is_recording (self s)); reflexivity.
Qed.

Lemma detect_person_eq (f : Frame) d s :
  detect_person f d s =
  match model (self s) with
  | None => (s, Ok false)
  | Some _ =>
      match d with
      | DetResults classes => (add_call f s, Ok (has_person classes))
      | DetRaises e =>
          if is_Exception e
          then (add_out (OutDetectError (exc_msg e)) (add_call f s), Ok false)
          else (add_call f s, Raise e)
      end
  end.
Proof.
  unfold detect_person, mbind, M_bind, attr, gets. cbn.
  destruct (model (self s)); [|reflexivity].
  destruct d as [e|classes]; cbn; [|reflexivity].
  destruct (is_Exception e); reflexivity.
Qed.


#[local] Arguments elapsed : simpl never.

Lemma sample_eq i now s :
  sample i now s =
  match detect_person (frame i) (detector i) s with
  | (s1, Ok true) => (seen_person now i s1, Ok now)
  | (s1, Ok false) => (seen_nobody now i s1, Ok now)
  | (s1, Raise e) => (s1, Raise e)
  end.
Proof.
  unfold sample. unfold mbind at 1. unfold M_bind at 1.
  destruct (detect_person (frame i) (detector i) s) as [s1 [[|]|e]];
    [| |reflexivity].
  - unfold seen_person.
    unfold mbind, M_bind, attr, gets, assign, modify, mret, M_ret. cbn.
    rewrite !start_recording_eq. cbn.
    destruct (is_recording (self s1)) eqn:E; cbn; [reflexivity|].
    rewrite start_recording_eq. cbn. rewrite E. reflexivity.
  - unfold seen_nobody.
    unfold mbind, M_bind, attr, gets, assign, modify, mret, M_ret. cbn.
    destruct (is_recording (self s1)); cbn; [|reflexivity].
    destruct (elapsed _ _ _); [|reflexivity].
    destruct (stop_recording i s1) as [s2 [[]|e]] eqn:E; cbn; try reflexivity.
    rewrite stop_recording_eq in E. discriminate.
Qed.

Lemma iteration_eq i l s :
  iteration i l s =
  if ret i then
    match detection_phase i (t_now i) (loop_last_detection_time l)
            (pushed (frame i) s) with
    | (s1, Ok last) =>
        match status_phase i (t_now i) (frame_count l + 1) s1 with
        | (s2, Ok count) =>
            match pace s2 with
            | (s3, Ok _) => (s3, Ok (mkLoop last count))
            | (s3, Raise e) => (s3, Raise e)
            end
        | (s2, Raise e) => (s2, Raise e)
        end
    | (s1, Raise e) => (s1, Raise e)
    end
  else (add_out OutFrameError s, Ok l).
Proof.
  unfold iteration. destruct (ret i); [|reflexivity]. reflexivity.
Qed.

Lemma pace_eq s :
  pace s =
  (s, if fps (self s) =? 0 then Raise (PyException "float division by zero")
      else if fps (self s) <? 0
           then Raise (PyException "sleep length must be non-negative")
           else Ok tt).
Proof.
  unfold pace, mbind, M_bind, attr, gets. cbn.
  destruct (fps (self s) =? 0); [reflexivity|].
  destruct (fps (self s) <? 0); reflexivity.
Qed.

Lemma pace_ok s : 0 < fps (self s) -> pace s = (s, Ok tt).
Proof.
  intros Hfps. rewrite pace_eq.
  destruct (Z.eqb_spec (fps (self s)) 0); [lia|].
  destruct (Z.ltb_spec (fps (self s)) 0); [lia|reflexivity].
Qed.

Lemma status_phase_core i now count s :
  core (fst (status_phase i now count s)) = core s.
Proof.
  unfold status_phase, display_status, mbind, M_bind, attr, gets. cbn.
  destruct (elapsed _ _ _); [|reflexivity].
  destruct (is_recording (self s)); cbn.
  - destruct (recording_start_time (self s)); cbn; [|reflexivity].
    unfold core, session_events. cbn. rewrite filter_app. cbn.
    rewrite app_nil_r. reflexivity.
  - unfold core, session_events. cbn. rewrite filter_app. cbn.
    rewrite app_nil_r. reflexivity.
Qed.

Lemma status_phase_ok i now count s :
  consistent (self s) -> exists count', snd (status_phase i now count s) = Ok count'.
Proof.
  intros [_ Hstart].
  unfold status_phase, display_status, mbind, M_bind, attr, gets. cbn.
  destruct (elapsed _ _ _); [|eexists; reflexivity].
  destruct (is_recording (self s)); cbn; [|eexists; reflexivity].
  destruct (recording_start_time (self s)); cbn; [eexists; reflexivity|].
  exfalso. apply Hstart; reflexivity.
Qed.


Lemma detection_phase_eq i now last s :
  detection_phase i now last s =
  if elapsed now last detection_interval then sample i now s else (s, Ok last).
Proof. unfold detection_phase. destruct (elapsed _ _ _); reflexivity. Qed.

(** *** What [detect_person] touches *)

Lemma heard_self (f : Frame) d s : self (heard f d s) = self s.
Proof.
  unfold heard. rewrite detect_person_eq.
  destruct (model (self s)); [|reflexivity].
  destruct d as [e|cl]; [destruct (is_Exception e)|]; reflexivity.
Qed.

Lemma heard_threads (f : Frame) d s : threads (heard f d s) = threads s.
Proof.
  unfold heard. rewrite detect_person_eq.
  destruct (model (self s)); [|reflexivity].
  destruct d as [e|cl]; [destruct (is_Exception e)|]; reflexivity.
Qed.

Lemma heard_fs (f : Frame) d s : fs (heard f d s) = fs s.
Proof.
  unfold heard. rewrite detect_person_eq.
  destruct (model (self s)); [|reflexivity].
  destruct d as [e|cl]; [destruct (is_Exception e)|]; reflexivity.
Qed.

Lemma heard_session_events (f : Frame) d s :
  session_events (heard f d s) = session_events s.
Proof.
  unfold heard. rewrite detect_person_eq.
  destruct (model (self s)); [|reflexivity].
  destruct d as [e|cl]; [destruct (is_Exception e)|]; try reflexivity.
  unfold session_events. cbn. rewrite filter_app. cbn. apply app_nil_r.
Qed.

Lemma heard_detector_calls (f : Frame) d s :
  detector_calls (heard f d s) =
  match model (self s) with
  | Some _ => detector_calls s ++ [f]
  | None => detector_calls s
  end.
Proof.
  unfold heard. rewrite detect_person_eq.
  destruct (model (self s)); [|reflexivity].
  destruct d as [e|cl]; [destruct (is_Exception e)|]; reflexivity.
Qed.

Lemma detect_person_reported (f : Frame) d s :
  snd (detect_person f d s) =
  match reported (model (self s)) d with
  | Some b => Ok b
  | None => match d with DetRaises e => Raise e | _ => Ok false end
  end.
Proof.
  rewrite detect_person_eq. unfold reported.
  destruct (model (self s)); [|reflexivity].
  destruct d as [e|cl]; [destruct (is_Exception e)|]; reflexivity.
Qed.

Lemma reported_None m d :
  reported m d = None -> exists e, d = DetRaises e /\ is_Exception e = false.
Proof.
  unfold reported. destruct m; [|discriminate].
  destruct d as [e|cl]; [|discriminate].
  destruct (is_Exception e) eqn:E; [discriminate|]. eauto.
Qed.

(** *** The detection block, by what the sample reports *)

Lemma sample_reported i now s b :
  reported (model (self s)) (detector i) = Some b ->
  sample i now s =
  ((if b then seen_person now i else seen_nobody now i)
     (heard (frame i) (detector i) s), Ok now).
Proof.
  intros Hrep. rewrite sample_eq.
  pose proof (detect_person_reported (frame i) (detector i) s) as Hsnd.
  rewrite Hrep in Hsnd. unfold heard.
  destruct (detect_person (frame i) (detector i) s) as [s1 r].
  cbn in Hsnd. subst r. destruct b; reflexivity.
Qed.

Lemma sample_crashed i now s :
  reported (model (self s)) (detector i) = None ->
  exists e, sample i now s = (heard (frame i) (detector i) s, Raise e)
            /\ is_Exception e = false.
Proof.
  intros Hrep. rewrite sample_eq.
  pose proof (detect_person_reported (frame i) (detector i) s) as Hsnd.
  rewrite Hrep in Hsnd. apply reported_None in Hrep as (e & Hd & He).
  rewrite Hd in *. unfold heard.
  destruct (detect_person (frame i) (DetRaises e) s) as [s1 r].
  cbn in Hsnd. subst r. eauto.
Qed.


(** *** The core of the state *)

Lemma core_inv s s' :
  core s' = core s ->
  is_recording (self s') = is_recording (self s)
  /\ recording_start_time (self s') = recording_start_time (self s)
  /\ last_detection_time (self s') = last_detection_time (self s)
  /\ person_detected (self s') = person_detected (self s)
  /\ frame_buffer (self s') = frame_buffer (self s)
  /\ model (self s') = model (self s)
  /\ fps (self s') = fps (self s)
  /\ recording_after_seconds (self s') = recording_after_seconds (self s)
  /\ running (self s') = running (self s)
  /\ session_events s' = session_events s
  /\ threads s' = threads s
  /\ detector_calls s' = detector_calls s
  /\ fs s' = fs s.
Proof.
  unfold core, set_last_status_time. intros E. injection E. intros.
  repeat split; assumption.
Qed.

Lemma consistent_core s s' :
  core s' = core s -> consistent (self s) -> consistent (self s').
Proof.
  intros E [Hfps Hst]. apply core_inv in E as (Hr & Ht & _ & _ & _ & _ & Hf & _).
  split; [rewrite Hf; exact Hfps|]. rewrite Hr, Ht. exact Hst.
Qed.

Lemma core_add_out o s :
  is_session_event o = false -> core (add_out o s) = core s.
Proof.
  intros Ho. unfold core, session_events. cbn. rewrite filter_app. cbn.
  rewrite Ho. cbn. rewrite app_nil_r. reflexivity.
Qed.

(** *** Consistency through the detection block *)

Lemma consistent_pushed (f : Frame) s :
  consistent (self s) -> consistent (self (pushed f s)).
Proof. intros Hc. exact Hc. Qed.

Lemma consistent_heard (f : Frame) d s :
  consistent (self s) -> consistent (self (heard f d s)).
Proof. rewrite heard_self. trivial. Qed.

Lemma consistent_seen_person now i s :
  consistent (self s) -> consistent (self (seen_person now i s)).
Proof.
  intros [Hfps Hst]. unfold seen_person. rewrite start_recording_eq. cbn.
  destruct (is_recording (self s)) eqn:E; cbn.
  - split; [exact Hfps|]. intros _. apply Hst. reflexivity.
  - split; [exact Hfps|]. intros _. discriminate.
Qed.

Lemma consistent_seen_nobody now i s :
  consistent (self s) -> consistent (self (seen_nobody now i s)).
Proof.
  intros [Hfps Hst]. unfold seen_nobody.
  destruct (is_recording (self s) && elapsed _ _ _) eqn:E; [|split; assumption].
  rewrite stop_recording_eq. cbn.
  destruct (is_recording (self s)); cbn; [|discriminate].
  split; [exact Hfps|]. discriminate.
Qed.

(** *** The rest of a pass after the detection block *)

Lemma pass_tail i last count s1 :
  let r := match status_phase i (t_now i) count s1 with
           | (s2, Ok c) =>
               match pace s2 with
               | (s3, Ok _) => (s3, Ok (mkLoop last c))
               | (s3, Raise e) => (s3, Raise e)
               end
           | (s2, Raise e) => (s2, Raise e)
           end in
  core (fst r) = core s1
  /\ (forall l', snd r = Ok l' -> loop_last_detection_time l' = last)
  /\ (consistent (self s1) ->
      exists c, snd r = Ok (mkLoop last c)).
Proof.
  intros r. subst r.
  pose proof (status_phase_core i (t_now i) count s1) as Hcore.
  pose proof (status_phase_ok i (t_now i) count s1) as Hok.
  destruct (status_phase i (t_now i) count s1) as [s2 [c|e]]; cbn in *.
  - rewrite pace_eq.
    split; [|split].
    + destruct (fps (self s2) =? 0); [exact Hcore|].
      destruct (fps (self s2) <? 0); exact Hcore.
    + intros l'. destruct (fps (self s2) =? 0); [discriminate|].
      destruct (fps (self s2) <? 0); [discriminate|].
      intros E. injection E as <-. reflexivity.
    + intros Hc. pose proof (consistent_core _ _ Hcore Hc) as [Hfps _].
      destruct (Z.eqb_spec (fps (self s2)) 0); [lia|].
      destruct (Z.ltb_spec (fps (self s2)) 0); [lia|]. eauto.
  - split; [exact Hcore|]. split; [discriminate|].
    intros Hc. destruct (Hok Hc) as [c' Hc']. discriminate.
Qed.

(** *** One pass, case by case *)

Lemma iteration_read_failed i l s :
  ret i = false -> iteration i l s = (add_out OutFrameError s, Ok l).
Proof. intros E. rewrite iteration_eq, E. reflexivity. Qed.

Lemma iteration_skipped i l s :
  ret i = true ->
  elapsed (t_now i) (loop_last_detection_time l) detection_interval = false ->
  core (fst (iteration i l s)) = core (pushed (frame i) s)
  /\ (forall l', snd (iteration i l s) = Ok l' ->
        loop_last_detection_time l' = loop_last_detection_time l)
  /\ (consistent (self s) ->
      exists c, snd (iteration i l s) = Ok (mkLoop (loop_last_detection_time l) c)).
Proof.
  intros Hret Hel. rewrite iteration_eq, Hret, detection_phase_eq, Hel.
  exact (pass_tail i (loop_last_detection_time l) (frame_count l + 1)
           (pushed (frame i) s)).
Qed.

Lemma iteration_heard i l s b :
  ret i = true ->
  elapsed (t_now i) (loop_last_detection_time l) detection_interval = true ->
  reported (model (self s)) (detector i) = Some b ->
  let s1 := (if b then seen_person (t_now i) i else seen_nobody (t_now i) i)
              (heard (frame i) (detector i) (pushed (frame i) s)) in
  core (fst (iteration i l s)) = core s1
  /\ (forall l', snd (iteration i l s) = Ok l' ->
        loop_last_detection_time l' = t_now i)
  /\ (consistent (self s) ->
      exists c, snd (iteration i l s) = Ok (mkLoop (t_now i) c)).
Proof.
  intros Hret Hel Hrep s1. rewrite iteration_eq, Hret, detection_phase_eq, Hel.
  rewrite (sample_reported _ _ _ b) by exact Hrep.
  fold s1.
  destruct (pass_tail i (t_now i) (frame_count l + 1) s1) as (Hc & Hl & Hok).
  split; [exact Hc|]. split; [exact Hl|].
  intros Hcons. apply Hok. subst s1.
  destruct b; [apply consistent_seen_person|apply consistent_seen_nobody];
    apply consistent_heard, consistent_pushed, Hcons.
Qed.

Lemma iteration_crashed i l s :
  ret i = true ->
  elapsed (t_now i) (loop_last_detection_time l) detection_interval = true ->
  reported (model (self s)) (detector i) = None ->
  exists e, iteration i l s
            = (heard (frame i) (detector i) (pushed (frame i) s), Raise e).
Proof.
  intros Hret Hel Hrep. rewrite iteration_eq, Hret, detection_phase_eq, Hel.
  destruct (sample_crashed i (t_now i) (pushed (frame i) s) Hrep) as (e & -> & _).
  eauto.
Qed.


(** *** What the two verdicts do to the state *)

Lemma seen_person_spec now i s :
  let s' := seen_person now i s in
  is_recording (self s') = true
  /\ last_detection_time (self s') = now
  /\ recording_start_time (self s')
     = (if is_recording (self s) then recording_start_time (self s)
        else Some (t_start i))
  /\ session_events s'
     = session_events s
       ++ (if is_recording (self s) then []
           else [OutRecordingStarted (hms_start i)])
  /\ frame_buffer (self s') = frame_buffer (self s)
  /\ model (self s') = model (self s)
  /\ recording_after_seconds (self s') = recording_after_seconds (self s)
  /\ threads s' = threads s
  /\ detector_calls s' = detector_calls s
  /\ fs s' = fs s.
Proof.
  unfold seen_person. rewrite start_recording_eq. cbn.
  destruct (is_recording (self s)) eqn:E; cbn.
  - rewrite E, app_nil_r. repeat split; reflexivity.
  - unfold session_events. cbn. rewrite filter_app. cbn.
    repeat split; reflexivity.
Qed.

Lemma seen_nobody_spec now i s :
  let stop := is_recording (self s)
              && elapsed now (last_detection_time (self s))
                   (recording_after_seconds (self s)) in
  let s' := seen_nobody now i s in
  is_recording (self s') = is_recording (self s) && negb stop
  /\ last_detection_time (self s') = last_detection_time (self s)
  /\ recording_start_time (self s') = recording_start_time (self s)
  /\ session_events s'
     = session_events s ++ (if stop then [OutRecordingStopped] else [])
  /\ threads s'
     = threads s
       ++ (if stop
           then [mkThread (mkJob (Deque.to_list (frame_buffer (self s)))
                                 ("security_" +:+ stamp i +:+ ".mp4")) false]
           else [])
  /\ frame_buffer (self s') = frame_buffer (self s)
  /\ model (self s') = model (self s)
  /\ recording_after_seconds (self s') = recording_after_seconds (self s)
  /\ detector_calls s' = detector_calls s
  /\ fs s' = fs s.
Proof.
  unfold seen_nobody.
  destruct (is_recording (self s)) eqn:E; cbn.
  - destruct (elapsed _ _ _); cbn.
    + rewrite stop_recording_eq, E. unfold session_events. cbn.
      rewrite filter_app. cbn. repeat split; reflexivity.
    + rewrite E, !app_nil_r. repeat split; reflexivity.
  - rewrite E, !app_nil_r. repeat split; reflexivity.
Qed.

(** Whatever happens in a pass, the frame read is in the buffer. *)
Lemma iteration_frame_buffer i l s :
  frame_buffer (self (fst (iteration i l s)))
  = if ret i then Deque.append (frame_buffer (self s)) (frame i)
    else frame_buffer (self s).
Proof.
  destruct (ret i) eqn:Hret.
  2:{ rewrite iteration_read_failed by exact Hret. reflexivity. }
  destruct (elapsed (t_now i) (loop_last_detection_time l) detection_interval)
    eqn:Hel.
  2:{ destruct (iteration_skipped i l s Hret Hel) as (Hc & _).
      apply core_inv in Hc. destruct Hc as (_ & _ & _ & _ & -> & _).
      reflexivity. }
  destruct (reported (model (self s)) (detector i)) as [b|] eqn:Hrep.
  - destruct (iteration_heard i l s b Hret Hel Hrep) as (Hc & _).
    apply core_inv in Hc. destruct Hc as (_ & _ & _ & _ & -> & _).
    destruct b.
    + destruct (seen_person_spec (t_now i) i
                  (heard (frame i) (detector i) (pushed (frame i) s)))
        as (_ & _ & _ & _ & -> & _).
      rewrite heard_self. reflexivity.
    + destruct (seen_nobody_spec (t_now i) i
                  (heard (frame i) (detector i) (pushed (frame i) s)))
        as (_ & _ & _ & _ & _ & -> & _).
      rewrite heard_self. reflexivity.
  - destruct (iteration_crashed i l s Hret Hel Hrep) as (e & ->).
    cbn. rewrite heard_self. reflexivity.
Qed.


Lemma reported_of_detect (f : Frame) d s b :
  snd (detect_person f d s) = Ok b -> reported (model (self s)) d = Some b.
Proof.
  rewrite detect_person_reported.
  destruct (reported (model (self s)) d) as [b'|] eqn:E.
  - intros Hb. injection Hb as ->. reflexivity.
  - apply reported_None in E as (e & -> & _). discriminate.
Qed.

Lemma sampled_inv i last :
  sampled i last = true ->
  ret i = true /\ elapsed (t_now i) last detection_interval = true.
Proof. unfold sampled. intros Hs. apply andb_prop in Hs. exact Hs. Qed.

Lemma not_sampled_inv i last :
  sampled i last = false ->
  ret i = false
  \/ (ret i = true /\ elapsed (t_now i) last detection_interval = false).
Proof.
  unfold sampled. destruct (ret i); cbn; [right|left]; auto.
Qed.


(** *** Timing tests *)

Lemma elapsed_true now last d :
  elapsed now last d = true <-> (d <= Binary64.sub now last)%Q.
Proof. unfold elapsed. apply Qle_bool_iff. Qed.

Lemma elapsed_false now last d :
  elapsed now last d = false <-> (Binary64.sub now last < d)%Q.
Proof.
  unfold elapsed. split.
  - intros E. apply Qnot_le_lt. intros Hle.
    apply Qle_bool_iff in Hle. congruence.
  - intros Hlt. destruct (Qle_bool d (Binary64.sub now last)) eqn:E;
      [|reflexivity].
    apply Qle_bool_iff in E. apply Qlt_not_le in Hlt. contradiction.
Qed.

(** A test against a positive interval passes only later than [last]. *)
Lemma elapsed_later now last d :
  (0 < d)%Q -> elapsed now last d = true -> (last < now)%Q.
Proof.
  intros Hd Hel. apply elapsed_true in Hel. apply sub_pos. lra.
Qed.

(** When a test passes, the interval has gone by up to one rounding. *)
Lemma elapsed_gap now last d :
  (0 <= d)%Q -> elapsed now last d = true ->
  (d <= (now - last) * (1 + Binary64.eps))%Q.
Proof.
  intros Hd Hel. apply elapsed_true in Hel. apply sub_reaches; assumption.
Qed.

(** The tests against 0.5 and 1.0 pass as soon as that much has gone by. *)
Lemma elapsed_half now last :
  (last + detection_interval <= now)%Q ->
  elapsed now last detection_interval = true.
Proof.
  intros Hle. apply elapsed_true.
  change detection_interval with (Binary64.pow2 (-1)).
  apply sub_above_pow2.
  change (Binary64.pow2 (-1)) with detection_interval.
  unfold detection_interval in *. lra.
Qed.

(** The test depends on the two readings through their difference only. *)
Lemma elapsed_difference now last c d :
  (now - last == c)%Q -> elapsed now last d = elapsed c 0 d.
Proof.
  intros E. unfold elapsed. rewrite (sub_eq now last c E). reflexivity.
Qed.

(** *** A pass keeps the state consistent and, detector permitting, ends *)

Lemma iteration_consistent i l s :
  consistent (self s) -> consistent (self (fst (iteration i l s))).
Proof.
  intros Hc. destruct (ret i) eqn:Hret.
  2:{ rewrite iteration_read_failed by exact Hret. exact Hc. }
  destruct (elapsed (t_now i) (loop_last_detection_time l) detection_interval)
    eqn:Hel.
  2:{ destruct (iteration_skipped i l s Hret Hel) as (Hcore & _).
      apply (consistent_core _ _ Hcore). exact Hc. }
  destruct (reported (model (self s)) (detector i)) as [b|] eqn:Hrep.
  - destruct (iteration_heard i l s b Hret Hel Hrep) as (Hcore & _).
    apply (consistent_core _ _ Hcore).
    destruct b; [apply consistent_seen_person|apply consistent_seen_nobody];
      apply consistent_heard; exact Hc.
  - destruct (iteration_crashed i l s Hret Hel Hrep) as (e & ->).
    cbn. apply consistent_heard. exact Hc.
Qed.

Lemma iteration_ok i l s :
  consistent (self s) ->
  (forall e, detector i = DetRaises e -> is_Exception e = true) ->
  exists l', snd (iteration i l s) = Ok l'.
Proof.
  intros Hc Hexc. destruct (ret i) eqn:Hret.
  2:{ rewrite iteration_read_failed by exact Hret. eauto. }
  destruct (elapsed (t_now i) (loop_last_detection_time l) detection_interval)
    eqn:Hel.
  2:{ destruct (iteration_skipped i l s Hret Hel) as (_ & _ & Hok).
      destruct (Hok Hc) as [c Hc']. eauto. }
  destruct (reported (model (self s)) (detector i)) as [b|] eqn:Hrep.
  - destruct (iteration_heard i l s b Hret Hel Hrep) as (_ & _ & Hok).
    destruct (Hok Hc) as [c Hc']. eauto.
  - apply reported_None in Hrep as (e & Hd & He).
    rewrite (Hexc e Hd) in He. discriminate.
Qed.

Lemma iterations_cons i rest l s :
  iterations (i :: rest) l s =
  if running (self s) then
    match iteration i l s with
    | (s', Ok l') => iterations rest l' s'
    | (s', Raise e) => (s', Raise e)
    end
  else (s, Ok l).
Proof.
  cbn [iterations]. unfold mbind, M_bind, attr, gets. cbn.
  destruct (running (self s)); reflexivity.
Qed.

Lemma iterations_ok ticks : forall l s,
  consistent (self s) -> failures_are_exceptions ticks ->
  exists l', snd (iterations ticks l s) = Ok l'.
Proof.
  induction ticks as [|i rest IH]; intros l s Hc Hall.
  - exists l. reflexivity.
  - rewrite iterations_cons. apply Forall_cons in Hall as [Hi Hrest].
    destruct (running (self s)); [|eauto].
    destruct (iteration_ok i l s Hc Hi) as [l' Hl'].
    pose proof (iteration_consistent i l s Hc) as Hc'.
    destruct (iteration i l s) as [s' r]. cbn in Hl', Hc'. subst r.
    apply IH; assumption.
Qed.

(** An error line in the log does not change what an absent sample does. *)
Lemma seen_nobody_add_out now i o s :
  is_session_event o = false ->
  core (seen_nobody now i (add_out o s)) = core (seen_nobody now i s).
Proof.
  intros Ho. unfold seen_nobody. cbn.
  destruct (is_recording (self s) && elapsed _ _ _) eqn:E.
  - rewrite !stop_recording_eq. cbn.
    destruct (is_recording (self s)); [|discriminate].
    unfold core, session_events. cbn. rewrite !filter_app. cbn.
    rewrite Ho. cbn. rewrite app_nil_r. reflexivity.
  - apply core_add_out. exact Ho.
Qed.

End MethodFacts.

(** ** The claims *)

Section RingBuffer.
Context {Frame : Type} `{FrameLike Frame}.

(** C1. The frame buffer is a bounded first-in first-out queue: a deque
    created with [maxlen = fps * buffer_seconds] never holds more than that
    many frames, and after any run of pushes it holds the last
    [fps * buffer_seconds] frames pushed, in the order they were pushed (so
    what is dropped is always the oldest). The object built by [main]
    (30 frames per second, 5 seconds) has capacity exactly 150, and after
    200 pushes a snapshot is the last 150 frames in their original order.
    A push onto a full deque drops exactly the oldest frame, and every pass
    of the monitoring loop that reads a frame pushes it. *)
Theorem C1_frame_buffer_bounded_fifo :
  (forall (fps buffer_seconds : Z) (d : deque Frame) (frames : list Frame),
      Deque.new (fps * buffer_seconds) = Ok d ->
      Deque.len (Deque.extend d frames) <= fps * buffer_seconds
      /\ Deque.to_list (Deque.extend d frames)
         = drop (length frames - Z.to_nat (fps * buffer_seconds)) frames)
  /\ (forall (camera_index : Z) (c : Camera Frame) (frames : list Frame),
        main_camera camera_index = Ok c ->
        Deque.maxlen (frame_buffer c) = 150
        /\ (length frames = 200%nat ->
            Deque.to_list (Deque.extend (frame_buffer c) frames)
            = drop 50 frames))
  /\ (forall (d : deque Frame) (x : Frame),
        0 < Deque.maxlen d -> Deque.len d = Deque.maxlen d ->
        Deque.to_list (Deque.append d x) = drop 1 (Deque.to_list d) ++ [x])
  /\ (forall (i : Tick Frame) (l : Loop) (s : State Frame),
        frame_buffer (self (fst (iteration i l s)))
        = if ret i then Deque.append (frame_buffer (self s)) (frame i)
          else frame_buffer (self s)).
Proof.
  assert (Hgen : forall (n : Z) (d : deque Frame) (frames : list Frame),
             Deque.new n = Ok d ->
             Deque.len (Deque.extend d frames) <= n
             /\ Deque.to_list (Deque.extend d frames)
                = drop (length frames - Z.to_nat n) frames).
  { intros n d frames Hnew. apply new_inv in Hnew as [Hn ->]. split.
    - pose proof (len_extend frames (mkDeque [] n)) as Hl.
      cbn in Hl. apply Hl; [exact Hn|]. unfold len. cbn. exact Hn.
    - pose proof (keeps_last_extend frames [] (mkDeque [] n)) as Hk.
      unfold keeps_last in Hk. rewrite maxlen_extend in Hk. cbn in Hk.
      apply Hk; [exact Hn|]. rewrite drop_nil. reflexivity. }
  split; [|split; [|split]].
  - intros fps0 seconds d frames. apply Hgen.
  - intros index c frames Hc. unfold main_camera, __init__ in Hc. cbn in Hc.
    injection Hc as <-. split; [reflexivity|].
    intros Hlen. cbn [frame_buffer].
    destruct (Hgen (30 * 5) (mkDeque [] (30 * 5)) frames eq_refl) as [_ ->].
    rewrite Hlen. reflexivity.
  - intros d x. apply append_full.
  - apply iteration_frame_buffer.
Qed.

End RingBuffer.

(** C1 at a concrete input: a deque for 2 frames per second and 1 second,
    five pushes. *)
Lemma C1_witness :
  Deque.len (Deque.extend (mkDeque [] 2) [10; 20; 30; 40; 50]%nat) <= 2 * 1
  /\ Deque.to_list (Deque.extend (mkDeque [] 2) [10; 20; 30; 40; 50]%nat)
     = [40; 50]%nat.
Proof.
  exact (proj1 (C1_frame_buffer_bounded_fifo (Frame := nat)) 2 1
           (mkDeque [] 2) [10; 20; 30; 40; 50]%nat eq_refl).
Defined.

Section StateMachine.
Context {Frame : Type} `{FrameLike Frame}.
Implicit Types (s : State Frame) (i : Tick Frame) (l : Loop).

(** C3. When a detection sample reports a person, the pass ends with the
    recording flag up and [last_detection_time] set to the time of the
    sample. If the program was idle, the start time is the clock reading
    taken in [start_recording] and exactly one "recording started" line is
    printed. If it was already recording, the start time is kept and no
    session line is printed. In both cases no thread is started and the
    file system is not touched. *)
Theorem C3_detection_starts_one_session i l s :
  consistent (self s) ->
  sampled i (loop_last_detection_time l) = true ->
  snd (detect_person (frame i) (detector i) s) = Ok true ->
  let s' := fst (iteration i l s) in
  (exists count, snd (iteration i l s) = Ok (mkLoop (t_now i) count))
  /\ is_recording (self s') = true
  /\ last_detection_time (self s') = t_now i
  /\ (is_recording (self s) = false ->
      recording_start_time (self s') = Some (t_start i)
      /\ session_events s'
         = session_events s ++ [OutRecordingStarted (hms_start i)])
  /\ (is_recording (self s) = true ->
      recording_start_time (self s') = recording_start_time (self s)
      /\ session_events s' = session_events s)
  /\ threads s' = threads s
  /\ fs s' = fs s.
Proof.
  intros Hcons Hs Hdet s'.
  apply sampled_inv in Hs as [Hret Hel].
  apply reported_of_detect in Hdet.
  destruct (iteration_heard i l s true Hret Hel Hdet) as (Hcore & _ & Hok).
  fold s' in Hcore. cbn beta iota in Hcore.
  apply core_inv in Hcore
    as (Hrec & Hst & Hlast & _ & _ & _ & _ & _ & _ & Hev & Hth & _ & Hfs).
  destruct (seen_person_spec (t_now i) i
              (heard (frame i) (detector i) (pushed (frame i) s)))
    as (Prec & Plast & Pst & Pev & _ & _ & _ & Pth & _ & Pfs).
  rewrite heard_self in Pst, Pev. cbn in Pst, Pev.
  rewrite heard_session_events in Pev.
  rewrite heard_threads in Pth. rewrite heard_fs in Pfs.
  split; [exact (Hok Hcons)|].
  split; [rewrite Hrec; exact Prec|].
  split; [rewrite Hlast; exact Plast|].
  split; [|split; [|split]].
  - intros Hidle. rewrite Hidle in Pst, Pev.
    split; [rewrite Hst; exact Pst|rewrite Hev; exact Pev].
  - intros Hon. rewrite Hon in Pst, Pev. rewrite app_nil_r in Pev.
    split; [rewrite Hst; exact Pst|rewrite Hev; exact Pev].
  - rewrite Hth. exact Pth.
  - rewrite Hfs. exact Pfs.
Qed.

(** C5. The detector is called at most once per pass and only in a pass
    that is sampled, that is, one that reads a frame while
    [current_time - last_detection_time >= detection_interval] holds for the
    local [last_detection_time]. In a pass that is not sampled there is no
    call and the local is unchanged. In a sampled pass the local becomes the
    current time, the detector is called with the frame just read whenever
    a model is loaded, and the pass does complete unless an exception
    outside [Exception] escapes the detector. *)
Theorem C5_sampler_throttles_the_detector i l s :
  let r := iteration i l s in
  (detector_calls (fst r) = detector_calls s
   \/ (sampled i (loop_last_detection_time l) = true
       /\ detector_calls (fst r) = detector_calls s ++ [frame i]))
  /\ (sampled i (loop_last_detection_time l) = false ->
      detector_calls (fst r) = detector_calls s
      /\ forall l', snd r = Ok l' ->
           loop_last_detection_time l' = loop_last_detection_time l)
  /\ (sampled i (loop_last_detection_time l) = true ->
      (model (self s) <> None ->
       detector_calls (fst r) = detector_calls s ++ [frame i])
      /\ (forall l', snd r = Ok l' -> loop_last_detection_time l' = t_now i)
      /\ (consistent (self s) ->
          reported (model (self s)) (detector i) <> None ->
          exists count, snd r = Ok (mkLoop (t_now i) count))).
Proof.
  intros r. subst r.
  assert (Hskip : sampled i (loop_last_detection_time l) = false ->
            detector_calls (fst (iteration i l s)) = detector_calls s
            /\ forall l', snd (iteration i l s) = Ok l' ->
                 loop_last_detection_time l' = loop_last_detection_time l).
  { intros Hs. apply not_sampled_inv in Hs as [Hret|[Hret Hel]].
    - rewrite iteration_read_failed by exact Hret. cbn.
      split; [reflexivity|]. intros l' E. injection E as <-. reflexivity.
    - destruct (iteration_skipped i l s Hret Hel) as (Hc & Hl & _).
      apply core_inv in Hc.
      destruct Hc as (_ & _ & _ & _ & _ & _ & _ & _ & _ & _ & _ & -> & _).
      split; [reflexivity|exact Hl]. }
  assert (Hcalls : sampled i (loop_last_detection_time l) = true ->
            detector_calls (fst (iteration i l s))
            = match model (self s) with
              | Some _ => detector_calls s ++ [frame i]
              | None => detector_calls s
              end).
  { intros Hs. apply sampled_inv in Hs as [Hret Hel].
    destruct (reported (model (self s)) (detector i)) as [b|] eqn:Hrep.
    - destruct (iteration_heard i l s b Hret Hel Hrep) as (Hc & _).
      apply core_inv in Hc.
      destruct Hc as (_ & _ & _ & _ & _ & _ & _ & _ & _ & _ & _ & -> & _).
      destruct b.
      + destruct (seen_person_spec (t_now i) i
                    (heard (frame i) (detector i) (pushed (frame i) s)))
          as (_ & _ & _ & _ & _ & _ & _ & _ & -> & _).
        exact (heard_detector_calls (frame i) (detector i) (pushed (frame i) s)).
      + destruct (seen_nobody_spec (t_now i) i
                    (heard (frame i) (detector i) (pushed (frame i) s)))
          as (_ & _ & _ & _ & _ & _ & _ & _ & -> & _).
        exact (heard_detector_calls (frame i) (detector i) (pushed (frame i) s)).
    - destruct (iteration_crashed i l s Hret Hel Hrep) as (e & ->).
      cbn. exact (heard_detector_calls (frame i) (detector i) (pushed (frame i) s)). }
  split; [|split].
  - destruct (sampled i (loop_last_detection_time l)) eqn:Hs.
    + rewrite (Hcalls eq_refl).
      destruct (model (self s)); [right; split; reflexivity|left; reflexivity].
    + left. apply Hskip. reflexivity.
  - exact Hskip.
  - intros Hs. split; [|split].
    + intros Hm. rewrite (Hcalls Hs).
      destruct (model (self s)); [reflexivity|contradiction].
    + apply sampled_inv in Hs as [Hret Hel].
      destruct (reported (model (self s)) (detector i)) as [b|] eqn:Hrep.
      * destruct (iteration_heard i l s b Hret Hel Hrep) as (_ & Hl & _).
        exact Hl.
      * destruct (iteration_crashed i l s Hret Hel Hrep) as (e & ->).
        discriminate.
    + intros Hcons Hrep. apply sampled_inv in Hs as [Hret Hel].
      destruct (reported (model (self s)) (detector i)) as [b|] eqn:Hb;
        [|contradiction].
      destruct (iteration_heard i l s b Hret Hel Hb) as (_ & _ & Hok).
      exact (Hok Hcons).
Qed.


(** C6. A failure raised by the detector is caught inside [detect_person]:
    the call returns False and prints one error line (after the one call to
    the detector). A pass in which the detector fails leaves the recording
    state machine exactly where a pass with an empty detection table leaves
    it, and a monitoring loop in which every detector failure is an
    [Exception] runs every pass to its end: no failure of the detector
    ends the loop. *)
Theorem C6_detector_failures_are_caught :
  (forall (f : Frame) (e : pyexc) s,
      is_Exception e = true ->
      detect_person f (DetRaises e) s
      = match model (self s) with
        | Some _ => (add_out (OutDetectError (exc_msg e)) (add_call f s), Ok false)
        | None => (s, Ok false)
        end)
  /\ (forall i l s (e : pyexc),
        is_Exception e = true ->
        detector i = DetRaises e ->
        core (fst (iteration i l s))
        = core (fst (iteration (with_detector (DetResults []) i) l s)))
  /\ (forall ticks l s,
        consistent (self s) ->
        failures_are_exceptions ticks ->
        exists l', snd (iterations ticks l s) = Ok l').
Proof.
  split; [|split].
  - intros f e s He. rewrite detect_person_eq, He. reflexivity.
  - intros i l s e He Hd.
    set (j := with_detector (DetResults []) i).
    destruct (ret i) eqn:Hret.
    2:{ rewrite !iteration_read_failed by exact Hret. reflexivity. }
    destruct (elapsed (t_now i) (loop_last_detection_time l) detection_interval)
      eqn:Hel.
    2:{ destruct (iteration_skipped i l s Hret Hel) as (-> & _).
        destruct (iteration_skipped j l s Hret Hel) as (-> & _).
        reflexivity. }
    assert (Hi : reported (model (self s)) (detector i) = Some false).
    { rewrite Hd. unfold reported. rewrite He. destruct (model (self s)); reflexivity. }
    assert (Hj : reported (model (self s)) (detector j) = Some false).
    { unfold reported. destruct (model (self s)); reflexivity. }
    destruct (iteration_heard i l s false Hret Hel Hi) as (-> & _).
    destruct (iteration_heard j l s false Hret Hel Hj) as (-> & _).
    cbn. unfold heard. rewrite !detect_person_eq. cbn. rewrite Hd, He.
    destruct (model (self s)); [|reflexivity].
    cbn.
    transitivity (core (seen_nobody (t_now i) i
                          (add_call (frame i) (pushed (frame i) s))));
      [|reflexivity].
    apply (seen_nobody_add_out (t_now i) i). reflexivity.
  - apply iterations_ok.
Qed.


(** *** Debounce *)

(** Samples come one detection interval after the previous one, up to the
    rounding of the difference. *)
Lemma samples_of_later m (ticks : list (Tick Frame)) : forall last,
  Forall (fun x => (detection_interval
                    <= (fst x - last) * (1 + Binary64.eps))%Q)
         (samples_of m last ticks).
Proof.
  induction ticks as [|i rest IH]; intros last; cbn [samples_of].
  - constructor.
  - destruct (sampled i last) eqn:Hs; [|apply IH].
    destruct (reported m (detector i)) as [b|]; [|constructor].
    apply sampled_inv in Hs as [_ Hel].
    apply elapsed_gap in Hel; [|unfold detection_interval; lra].
    constructor.
    + exact Hel.
    + eapply Forall_impl; [apply IH|].
      intros [t b'] Ht. cbn [fst] in *.
      unfold detection_interval, Binary64.eps in *. lra.
Qed.

(** An absent sample that is followed by present ones spaced at most [gap]
    apart comes before the last present sample plus [gap], by as much as
    the samples that follow it are behind it. *)
Lemma absent_before_deadline gap p t h ss :
  presents_within gap p ss -> ss <> [] -> absences_end ss ->
  Forall (fun x => (t + h <= fst x)%Q) ss ->
  (t - p <= gap - h)%Q.
Proof.
  induction ss as [|[t' b] rest IH]; intros Hw Hne He Hall; [contradiction|].
  apply Forall_cons in Hall as [Ht' Hrest]. cbn in Ht'.
  destruct b; cbn in Hw, He.
  - destruct Hw as [Hgap _]. lra.
  - destruct He as [Hne' He']. apply IH; assumption.
Qed.

Lemma recording_left_only_on_timeout i l s :
  is_recording (self s) = true ->
  is_recording (self (fst (iteration i l s))) = false ->
  sampled i (loop_last_detection_time l) = true
  /\ snd (detect_person (frame i) (detector i) s) = Ok false
  /\ elapsed (t_now i) (last_detection_time (self s))
       (recording_after_seconds (self s)) = true.
Proof.
  intros Hon Hoff. destruct (ret i) eqn:Hret.
  2:{ rewrite iteration_read_failed in Hoff by exact Hret. cbn in Hoff. congruence. }
  destruct (elapsed (t_now i) (loop_last_detection_time l) detection_interval)
    eqn:Hel.
  2:{ destruct (iteration_skipped i l s Hret Hel) as (Hc & _).
      apply core_inv in Hc as (Hr & _). cbn in Hr. congruence. }
  destruct (reported (model (self s)) (detector i)) as [b|] eqn:Hrep.
  - destruct (iteration_heard i l s b Hret Hel Hrep) as (Hc & _).
    apply core_inv in Hc as (Hr & _). rewrite Hr in Hoff. destruct b.
    + destruct (seen_person_spec (t_now i) i
                  (heard (frame i) (detector i) (pushed (frame i) s)))
        as (Prec & _). congruence.
    + destruct (seen_nobody_spec (t_now i) i
                  (heard (frame i) (detector i) (pushed (frame i) s)))
        as (Prec & _). rewrite Prec, heard_self in Hoff. cbn in Hoff.
      rewrite Hon in Hoff. cbn in Hoff.
      apply negb_false_iff in Hoff.
      split; [unfold sampled; rewrite Hret, Hel; reflexivity|].
      split; [rewrite detect_person_reported, Hrep; reflexivity|exact Hoff].
  - destruct (iteration_crashed i l s Hret Hel Hrep) as (e & He).
    rewrite He in Hoff. cbn in Hoff. rewrite heard_self in Hoff.
    cbn in Hoff. congruence.
Qed.

Lemma session_view_core s s' :
  core s' = core s -> session_view s' = session_view s.
Proof.
  intros E. apply core_inv in E
    as (Hr & _ & Hl & _ & _ & Hm & _ & Ha & _ & Hev & Hth & _).
  unfold session_view. rewrite Hr, Hl, Hm, Ha, Hev, Hth. reflexivity.
Qed.

Lemma session_view_heard (f : Frame) d s :
  session_view (heard f d s) = session_view s.
Proof.
  unfold session_view.
  rewrite heard_self, heard_threads, heard_session_events. reflexivity.
Qed.

(** A pass without a sample leaves the state machine alone. *)
Lemma unsampled_session_view i l s :
  sampled i (loop_last_detection_time l) = false ->
  session_view (fst (iteration i l s)) = session_view s
  /\ forall l', snd (iteration i l s) = Ok l' ->
       loop_last_detection_time l' = loop_last_detection_time l.
Proof.
  intros Hs. apply not_sampled_inv in Hs as [Hret|[Hret Hel]].
  - rewrite iteration_read_failed by exact Hret. cbn.
    split; [apply session_view_core, core_add_out; reflexivity|].
    intros l' E. injection E as <-. reflexivity.
  - destruct (iteration_skipped i l s Hret Hel) as (Hc & Hl & _).
    split; [|exact Hl]. rewrite (session_view_core _ _ Hc). reflexivity.
Qed.

(** A present sample during a session only moves the last detection time. *)
Lemma present_session_view i l s :
  sampled i (loop_last_detection_time l) = true ->
  reported (model (self s)) (detector i) = Some true ->
  is_recording (self s) = true ->
  session_view (fst (iteration i l s))
  = (true, t_now i, model (self s), recording_after_seconds (self s),
     threads s, session_events s)
  /\ forall l', snd (iteration i l s) = Ok l' ->
       loop_last_detection_time l' = t_now i.
Proof.
  intros Hs Hrep Hon. apply sampled_inv in Hs as [Hret Hel].
  destruct (iteration_heard i l s true Hret Hel Hrep) as (Hc & Hl & _).
  split; [|exact Hl]. rewrite (session_view_core _ _ Hc).
  destruct (seen_person_spec (t_now i) i
              (heard (frame i) (detector i) (pushed (frame i) s)))
    as (Prec & Plast & _ & Pev & _ & Pm & Pa & Pth & _).
  unfold session_view. rewrite Prec, Plast, Pev, Pm, Pa, Pth.
  rewrite !heard_self, heard_threads, heard_session_events. cbn.
  rewrite Hon, app_nil_r. reflexivity.
Qed.

(** An absent sample before the deadline changes nothing. *)
Lemma absent_session_view i l s :
  sampled i (loop_last_detection_time l) = true ->
  reported (model (self s)) (detector i) = Some false ->
  elapsed (t_now i) (last_detection_time (self s))
    (recording_after_seconds (self s)) = false ->
  session_view (fst (iteration i l s)) = session_view s
  /\ forall l', snd (iteration i l s) = Ok l' ->
       loop_last_detection_time l' = t_now i.
Proof.
  intros Hs Hrep Hearly. apply sampled_inv in Hs as [Hret Hel].
  destruct (iteration_heard i l s false Hret Hel Hrep) as (Hc & Hl & _).
  split; [|exact Hl]. rewrite (session_view_core _ _ Hc).
  unfold seen_nobody. rewrite heard_self. cbn.
  rewrite Hearly, andb_false_r.
  exact (session_view_heard (frame i) (detector i) (pushed (frame i) s)).
Qed.

Lemma recording_survives_close_samples ticks : forall l s k,
  is_recording (self s) = true ->
  (last_detection_time (self s) <= loop_last_detection_time l)%Q ->
  (recording_after_seconds (self s) < Binary64.pow2 52)%Q ->
  presents_within (recording_after_seconds (self s))
    (last_detection_time (self s))
    (samples_of (model (self s)) (loop_last_detection_time l) ticks) ->
  absences_end (samples_of (model (self s)) (loop_last_detection_time l) ticks) ->
  let s' := after_passes ticks k l s in
  is_recording (self s') = true
  /\ threads s' = threads s
  /\ session_events s' = session_events s.
Proof.
  assert (Hview : forall s1 s : State Frame,
             session_view s1 = session_view s ->
             is_recording (self s1) = is_recording (self s)
             /\ last_detection_time (self s1) = last_detection_time (self s)
             /\ model (self s1) = model (self s)
             /\ recording_after_seconds (self s1) = recording_after_seconds (self s)
             /\ threads s1 = threads s
             /\ session_events s1 = session_events s).
  { unfold session_view. intros s1 s E. injection E. auto 10. }
  unfold after_passes.
  induction ticks as [|i rest IH]; intros l s k Hon Hle Hbig Hw He.
  { rewrite take_nil. cbn. auto. }
  destruct k as [|k]; [cbn; auto|].
  cbn [take]. rewrite iterations_cons.
  destruct (running (self s)); [|cbn; auto].
  cbn [samples_of] in Hw, He.
  assert (Hnext : forall s1 r,
            iteration i l s = (s1, r) ->
            is_recording (self s1) = true ->
            threads s1 = threads s ->
            session_events s1 = session_events s ->
            (forall l1, r = Ok l1 ->
               (last_detection_time (self s1) <= loop_last_detection_time l1)%Q
               /\ (recording_after_seconds (self s1) < Binary64.pow2 52)%Q
               /\ presents_within (recording_after_seconds (self s1))
                    (last_detection_time (self s1))
                    (samples_of (model (self s1)) (loop_last_detection_time l1) rest)
               /\ absences_end
                    (samples_of (model (self s1)) (loop_last_detection_time l1) rest)) ->
            let s' := fst (match r with
                           | Ok l' => iterations (take k rest) l' s1
                           | Raise e => (s1, Raise e)
                           end) in
            is_recording (self s') = true
            /\ threads s' = threads s
            /\ session_events s' = session_events s).
  { intros s1 r _ Hon1 Hth1 Hev1 Hrest. destruct r as [l1|e]; [|cbn; auto].
    destruct (Hrest l1 eq_refl) as (Hle1 & Hbig1 & Hw1 & He1).
    destruct (IH l1 s1 k Hon1 Hle1 Hbig1 Hw1 He1) as (Hr & Ht & Hv).
    cbn zeta. rewrite Hr, Ht, Hv. auto. }
  destruct (sampled i (loop_last_detection_time l)) eqn:Hs.
  2:{ destruct (unsampled_session_view i l s Hs) as (Hv & Hl).
      apply Hview in Hv as (Vr & Vl & Vm & Va & Vth & Vev).
      destruct (iteration i l s) as [s1 r] eqn:Hit. cbn in *.
      apply (Hnext s1 r eq_refl); [congruence|assumption|assumption|].
      intros l1 ->. rewrite (Hl l1 eq_refl), Vl, Vm, Va. auto. }
  pose proof Hs as Hs'. apply sampled_inv in Hs' as [_ Hel].
  apply elapsed_later in Hel; [|reflexivity].
  destruct (reported (model (self s)) (detector i)) as [[|]|] eqn:Hrep.
  - (* a present sample *)
    cbn in Hw, He. destruct Hw as [_ Hw].
    destruct (present_session_view i l s Hs Hrep Hon) as (Hv & Hl).
    destruct (iteration i l s) as [s1 r] eqn:Hit. cbn in *.
    unfold session_view in Hv. injection Hv as Vr Vl Vm Va Vth Vev.
    apply (Hnext s1 r eq_refl); [assumption..|].
    intros l1 ->. rewrite (Hl l1 eq_refl), Vl, Vm, Va.
    split; [lra|auto].
  - (* an absent sample *)
    cbn in Hw, He. destruct He as [Hne He].
    assert (Hearly : elapsed (t_now i) (last_detection_time (self s))
                       (recording_after_seconds (self s)) = false).
    { apply elapsed_false.
      assert (Hgap : (t_now i - last_detection_time (self s)
                      <= recording_after_seconds (self s)
                         - (4503599627370496 # 9007199254740993))%Q).
      { eapply absent_before_deadline; [exact Hw|exact Hne|exact He|].
        eapply Forall_impl; [apply samples_of_later|].
        intros [t b] Ht. cbn [fst] in *.
        unfold detection_interval, Binary64.eps in Ht. lra. }
      assert (Hup : (Binary64.sub (t_now i) (last_detection_time (self s))
                     <= (t_now i - last_detection_time (self s))
                        * (1 + Binary64.eps))%Q) by (apply sub_upper; lra).
      assert (E52 : (Binary64.pow2 52 == 4503599627370496)%Q) by reflexivity.
      rewrite E52 in Hbig. unfold Binary64.eps in Hup. lra. }
    destruct (absent_session_view i l s Hs Hrep Hearly) as (Hv & Hl).
    apply Hview in Hv as (Vr & Vl & Vm & Va & Vth & Vev).
    destruct (iteration i l s) as [s1 r] eqn:Hit. cbn in *.
    apply (Hnext s1 r eq_refl); [congruence|assumption|assumption|].
    intros l1 ->. rewrite (Hl l1 eq_refl), Vl, Vm, Va.
    split; [lra|auto].
  - (* the detector let an exception through: the loop ends here *)
    pose proof Hs as Hs'. apply sampled_inv in Hs' as [Hret Hel'].
    destruct (iteration_crashed i l s Hret Hel' Hrep) as (e & ->).
    cbn. rewrite heard_self, heard_threads, heard_session_events. cbn. auto.
Qed.

(** C4. A pass takes the program out of the recording state only if it is
    a sampled pass whose sample reports nobody and the time since the last
    detection, as the program computes it (a float subtraction), is at
    least [recording_after_seconds]; the exact time gone by is then at least
    [recording_after_seconds] up to one rounding error of relative size
    [2^-53]. Consequently, with [recording_after_seconds] below [2^52], for
    every run of passes whose detection samples have their present samples
    at most [recording_after_seconds] apart (counting from the last
    detection before the run) and every absent sample followed by a
    present one, the program is recording after every pass of the run, no
    thread is started and no session line is printed. *)
Theorem C4_recording_ends_only_after_the_gap :
  (forall i l s,
      is_recording (self s) = true ->
      is_recording (self (fst (iteration i l s))) = false ->
      sampled i (loop_last_detection_time l) = true
      /\ snd (detect_person (frame i) (detector i) s) = Ok false
      /\ (recording_after_seconds (self s)
          <= Binary64.sub (t_now i) (last_detection_time (self s)))%Q
      /\ ((0 <= recording_after_seconds (self s))%Q ->
          (recording_after_seconds (self s)
           <= (t_now i - last_detection_time (self s))
              * (1 + Binary64.eps))%Q))
  /\ (forall ticks l s k,
        is_recording (self s) = true ->
        (last_detection_time (self s) <= loop_last_detection_time l)%Q ->
        (recording_after_seconds (self s) < Binary64.pow2 52)%Q ->
        presents_within (recording_after_seconds (self s))
          (last_detection_time (self s))
          (samples_of (model (self s)) (loop_last_detection_time l) ticks) ->
        absences_end
          (samples_of (model (self s)) (loop_last_detection_time l) ticks) ->
        let s' := after_passes ticks k l s in
        is_recording (self s') = true
        /\ threads s' = threads s
        /\ session_events s' = session_events s).
Proof.
  split.
  - intros i l s Hon Hoff.
    destruct (recording_left_only_on_timeout i l s Hon Hoff) as (Hs & Hd & Hel).
    split; [exact Hs|]. split; [exact Hd|]. split.
    + apply elapsed_true. exact Hel.
    + intros Hpos. apply elapsed_gap; assumption.
  - intros ticks. apply recording_survives_close_samples.
Qed.

(** *** Threads *)

Lemma in_flight_add_thread (j : SaveJob Frame) (ts : list (Thread Frame)) :
  length (filter (fun t => th_done t = false) (ts ++ [mkThread j false]))
  = S (length (filter (fun t => th_done t = false) ts)).
Proof.
  rewrite filter_app, length_app.
  change (filter (fun t : Thread Frame => th_done t = false) [mkThread j false])
    with [mkThread j false].
  cbn [length]. lia.
Qed.

(** A pass never touches the file system; it starts a thread exactly when
    it ends a session, with the buffer as it is after this pass's push. *)
Lemma iteration_threads i l s :
  let s' := fst (iteration i l s) in
  fs s' = fs s
  /\ ((is_recording (self s) = true
       /\ is_recording (self s') = false
       /\ threads s'
          = threads s
            ++ [mkThread
                  (mkJob (Deque.to_list
                            (Deque.append (frame_buffer (self s)) (frame i)))
                         ("security_" +:+ stamp i +:+ ".mp4"))
                  false]
       /\ in_flight s' = S (in_flight s))
      \/ ((is_recording (self s) = true -> is_recording (self s') = true)
          /\ threads s' = threads s)).
Proof.
  intros s'. subst s'. destruct (ret i) eqn:Hret.
  2:{ rewrite iteration_read_failed by exact Hret. cbn. auto. }
  destruct (elapsed (t_now i) (loop_last_detection_time l) detection_interval)
    eqn:Hel.
  2:{ destruct (iteration_skipped i l s Hret Hel) as (Hc & _).
      apply core_inv in Hc
        as (Hr & _ & _ & _ & _ & _ & _ & _ & _ & _ & Hth & _ & Hfs).
      cbn in Hr, Hth, Hfs. rewrite Hr. auto. }
  destruct (reported (model (self s)) (detector i)) as [b|] eqn:Hrep.
  - destruct (iteration_heard i l s b Hret Hel Hrep) as (Hc & _).
    apply core_inv in Hc
      as (Hr & _ & _ & _ & _ & _ & _ & _ & _ & _ & Hth & _ & Hfs).
    rewrite Hfs. unfold in_flight. rewrite Hr, Hth. destruct b.
    + destruct (seen_person_spec (t_now i) i
                  (heard (frame i) (detector i) (pushed (frame i) s)))
        as (Prec & _ & _ & _ & _ & _ & _ & Pth & _ & Pfs).
      rewrite Pfs, Pth, Prec, heard_fs, heard_threads. cbn. auto.
    + destruct (seen_nobody_spec (t_now i) i
                  (heard (frame i) (detector i) (pushed (frame i) s)))
        as (Prec & _ & _ & _ & Pth & _ & _ & _ & _ & Pfs).
      rewrite Pfs, Pth, Prec, heard_fs, heard_threads, !heard_self. cbn.
      split; [reflexivity|].
      destruct (is_recording (self s)) eqn:Hon; cbn.
      * destruct (elapsed (t_now i) (last_detection_time (self s))
                    (recording_after_seconds (self s))); cbn.
        -- left. split_and!; try reflexivity. apply in_flight_add_thread.
        -- right. rewrite app_nil_r. auto.
      * right. rewrite app_nil_r. split; [discriminate|reflexivity].
  - destruct (iteration_crashed i l s Hret Hel Hrep) as (e & ->).
    cbn. rewrite heard_fs, heard_threads, heard_self. cbn. auto.
Qed.

(** Every artifact handed to a thread is a snapshot of the buffer, so it
    never has more frames than the buffer can hold. *)
Lemma artifacts_fit_the_buffer ticks : forall l s (cap : Z),
  Deque.maxlen (frame_buffer (self s)) = cap ->
  0 <= cap ->
  Deque.len (frame_buffer (self s)) <= cap ->
  Forall (fun t => Z.of_nat (length (job_frames (th_job t))) <= cap) (threads s) ->
  Forall (fun t => Z.of_nat (length (job_frames (th_job t))) <= cap)
         (threads (fst (iterations ticks l s))).
Proof.
  induction ticks as [|i rest IH]; intros l s cap Hm H0 Hlen Hall; [exact Hall|].
  rewrite iterations_cons. destruct (running (self s)); [|exact Hall].
  pose proof (iteration_frame_buffer i l s) as Hfb.
  assert (Hpush : Deque.len (Deque.append (frame_buffer (self s)) (frame i))
                  <= cap).
  { rewrite <- Hm. apply len_append; rewrite Hm; assumption. }
  assert (Hm' : Deque.maxlen (frame_buffer (self (fst (iteration i l s)))) = cap
                /\ Deque.len (frame_buffer (self (fst (iteration i l s)))) <= cap).
  { rewrite Hfb. destruct (ret i); [|auto].
    rewrite maxlen_append. auto. }
  assert (Hall' : Forall (fun t => Z.of_nat (length (job_frames (th_job t))) <= cap)
                         (threads (fst (iteration i l s)))).
  { destruct (iteration_threads i l s) as (_ & [(_ & _ & -> & _)|(_ & ->)]);
      [|exact Hall].
    apply Forall_app. split; [exact Hall|]. constructor; [|constructor].
    exact Hpush. }
  destruct Hm' as [Hm1 Hlen1].
  destruct (iteration i l s) as [s1 [l1|e]]; cbn [fst snd] in *; [|exact Hall'].
  apply IH; assumption.
Qed.

(** Without a model nothing is ever detected, so nothing is ever recorded. *)
Lemma no_model_never_records ticks : forall l s,
  model (self s) = None ->
  is_recording (self s) = false ->
  let s' := fst (iterations ticks l s) in
  is_recording (self s') = false
  /\ threads s' = threads s
  /\ detector_calls s' = detector_calls s.
Proof.
  induction ticks as [|i rest IH]; intros l s Hm Hoff; [cbn; auto|].
  cbn zeta. rewrite iterations_cons.
  destruct (running (self s)); [|cbn; auto].
  assert (Hstep : is_recording (self (fst (iteration i l s))) = false
                  /\ model (self (fst (iteration i l s))) = None
                  /\ threads (fst (iteration i l s)) = threads s
                  /\ detector_calls (fst (iteration i l s)) = detector_calls s).
  { destruct (ret i) eqn:Hret.
    2:{ rewrite iteration_read_failed by exact Hret. cbn. auto. }
    destruct (elapsed (t_now i) (loop_last_detection_time l) detection_interval)
      eqn:Hel.
    2:{ destruct (iteration_skipped i l s Hret Hel) as (Hc & _).
        apply core_inv in Hc
          as (Hr & _ & _ & _ & _ & Hmod & _ & _ & _ & _ & Hth & Hcalls & _).
        cbn in *. rewrite Hr, Hmod, Hth, Hcalls. auto. }
    assert (Hrep : reported (model (self s)) (detector i) = Some false)
      by (rewrite Hm; reflexivity).
    destruct (iteration_heard i l s false Hret Hel Hrep) as (Hc & _).
    apply core_inv in Hc
      as (Hr & _ & _ & _ & _ & Hmod & _ & _ & _ & _ & Hth & Hcalls & _).
    destruct (seen_nobody_spec (t_now i) i
                (heard (frame i) (detector i) (pushed (frame i) s)))
      as (Prec & _ & _ & _ & Pth & _ & Pm & _ & Pcalls & _).
    rewrite Hr, Hmod, Hth, Hcalls, Prec, Pm, Pth, Pcalls.
    rewrite !heard_self, heard_threads.
    rewrite (heard_detector_calls (frame i) (detector i) (pushed (frame i) s)).
    cbn. rewrite Hoff, Hm. cbn. rewrite app_nil_r. auto. }
  destruct Hstep as (Hr & Hmod & Hth & Hcalls).
  destruct (iteration i l s) as [s1 [l1|e]]; cbn in *; [|auto].
  destruct (IH l1 s1 Hmod Hr) as (Ir & Ith & Icalls).
  rewrite Ir, Ith, Icalls. auto.
Qed.

End StateMachine.

(** ** Writing the artifact *)

Section SaveVideo.
Context {Frame : Type} `{FrameLike Frame}.
Implicit Types (s : State Frame) (sink : Sink Frame).

Lemma write_indices_app (a b : list FsOp) :
  write_indices (a ++ b) = write_indices a ++ write_indices b.
Proof. unfold write_indices. apply omap_app. Qed.

Lemma write_indices_writes p (ks : list nat) :
  write_indices (map (OpWrite p) ks) = ks.
Proof.
  induction ks as [|k ks IH]; [reflexivity|].
  cbn. unfold write_indices in IH. rewrite IH. reflexivity.
Qed.

Lemma open_writer_writes p (ks : list nat) :
  filter (fun o => is_open_writer o = true) (map (OpWrite p) ks) = [].
Proof. induction ks as [|k ks IH]; [reflexivity|exact IH]. Qed.

Lemma write_eq sink p idx (f : Frame) s :
  write sink p idx f s =
  match write_error sink idx with
  | Some e =>
      (upd_fs (fun d => mkFS (dirs d) (files d) (journal d ++ [OpWrite p idx])) s,
       Raise e)
  | None =>
      (upd_fs (fun d =>
         mkFS (dirs d)
              (if write_lost sink idx then files d
               else alter (fun written => written ++ [f]) p (files d))
              (journal d ++ [OpWrite p idx])) s,
       Ok tt)
  end.
Proof.
  unfold write, mbind, M_bind, journal_op, modify, raise. cbn.
  destruct (write_error sink idx); [reflexivity|].
  destruct (write_lost sink idx); reflexivity.
Qed.

Lemma write_all_cons sink p idx (f : Frame) rest s :
  write_all sink p idx (f :: rest) s
  = match write sink p idx f s with
    | (s1, Ok _) => write_all sink p (S idx) rest s1
    | (s1, Raise e) => (s1, Raise e)
    end.
Proof. reflexivity. Qed.

(** The writes go through the frames in order, each index once, and stop at
    the first that raises; they touch nothing but the file written to. *)
Lemma write_all_spec sink p frames : forall idx s,
  let r := write_all sink p idx frames s in
  self (fst r) = self s
  /\ out (fst r) = out s
  /\ threads (fst r) = threads s
  /\ dirs (fs (fst r)) = dirs (fs s)
  /\ (forall q, q <> p -> files (fs (fst r)) !! q = files (fs s) !! q)
  /\ exists n, journal (fs (fst r)) = journal (fs s) ++ map (OpWrite p) (seq idx n).
Proof.
  induction frames as [|f rest IH]; intros idx s r; subst r.
  - cbn. split_and!; try reflexivity.
    exists 0%nat. cbn. rewrite app_nil_r. reflexivity.
  - rewrite write_all_cons, write_eq.
    destruct (write_error sink idx) as [e|]; cbn.
    + split_and!; try reflexivity. exists 1%nat. reflexivity.
    + match goal with
      | |- context [write_all sink p (S idx) rest ?s1] =>
          destruct (IH (S idx) s1) as (Hself & Hout & Hth & Hd & Hq & n & Hj)
      end.
      cbn zeta in Hself, Hout, Hth, Hd, Hq, Hj.
      split_and!; try assumption.
      * intros q Hne. rewrite (Hq q Hne). cbn.
        destruct (write_lost sink idx); [reflexivity|].
        apply lookup_alter_ne. congruence.
      * exists (S n). rewrite Hj. cbn. rewrite <- app_assoc. reflexivity.
Qed.

(** When no write raises, the file gains the frames that were not lost. *)
Lemma write_all_ok sink p frames : forall idx s,
  (forall j, (j < length frames)%nat -> write_error sink (idx + j) = None) ->
  let r := write_all sink p idx frames s in
  snd r = Ok tt
  /\ files (fs (fst r)) !! p
     = (fun written => written ++ kept sink idx frames) <$> files (fs s) !! p
  /\ journal (fs (fst r))
     = journal (fs s) ++ map (OpWrite p) (seq idx (length frames)).
Proof.
  induction frames as [|f rest IH]; intros idx s Hok r; subst r.
  - cbn. split_and!; [reflexivity| |rewrite app_nil_r; reflexivity].
    destruct (files (fs s) !! p); cbn; [rewrite app_nil_r|]; reflexivity.
  - rewrite write_all_cons, write_eq.
    assert (H0 : write_error sink idx = None).
    { rewrite <- (Nat.add_0_r idx). apply Hok. cbn. lia. }
    rewrite H0.
    match goal with
    | |- context [write_all sink p (S idx) rest ?s1] =>
        destruct (IH (S idx) s1) as (Hr & Hp & Hj)
    end.
    { intros j Hlt. replace (S idx + j)%nat with (idx + S j)%nat by lia.
      apply Hok. cbn. lia. }
    cbn zeta in Hr, Hp, Hj. split_and!; [exact Hr| |].
    + rewrite Hp. cbn [fs files upd_fs kept].
      destruct (write_lost sink idx); [reflexivity|].
      rewrite lookup_alter_eq.
      destruct (files (fs s) !! p); cbn; [rewrite <- app_assoc|]; reflexivity.
    + rewrite Hj. cbn. rewrite <- app_assoc. reflexivity.
Qed.

(** When the write at position [k] is the first to raise, the file has
    gained what was kept of the frames before it, and no write follows. *)
Lemma write_all_raises sink p frames : forall idx s k e,
  (k < length frames)%nat ->
  write_error sink (idx + k) = Some e ->
  (forall j, (j < k)%nat -> write_error sink (idx + j) = None) ->
  let r := write_all sink p idx frames s in
  snd r = Raise e
  /\ files (fs (fst r)) !! p
     = (fun written => written ++ kept sink idx (take k frames))
         <$> files (fs s) !! p
  /\ journal (fs (fst r))
     = journal (fs s) ++ map (OpWrite p) (seq idx (S k)).
Proof.
  induction frames as [|f rest IH]; intros idx s k e Hk He Hbefore r; subst r.
  { cbn in Hk. lia. }
  rewrite write_all_cons, write_eq. destruct k as [|k].
  - rewrite Nat.add_0_r in He. rewrite He. cbn.
    split_and!; [reflexivity| |reflexivity].
    destruct (files (fs s) !! p); cbn; [rewrite app_nil_r|]; reflexivity.
  - assert (H0 : write_error sink idx = None).
    { rewrite <- (Nat.add_0_r idx). apply Hbefore. lia. }
    rewrite H0.
    match goal with
    | |- context [write_all sink p (S idx) rest ?s1] =>
        destruct (IH (S idx) s1 k e) as (Hr & Hp & Hj)
    end.
    { cbn in Hk. lia. }
    { replace (S idx + k)%nat with (idx + S k)%nat by lia. exact He. }
    { intros j Hlt. replace (S idx + j)%nat with (idx + S j)%nat by lia.
      apply Hbefore. lia. }
    cbn zeta in Hr, Hp, Hj. split_and!; [exact Hr| |].
    + rewrite Hp. cbn [fs files upd_fs kept take].
      destruct (write_lost sink idx); [reflexivity|].
      rewrite lookup_alter_eq.
      destruct (files (fs s) !! p); cbn; [rewrite <- app_assoc|]; reflexivity.
    + rewrite Hj. cbn. rewrite <- app_assoc. reflexivity.
Qed.

Lemma write_and_report_eq sink vp frames filename dir s :
  write_and_report sink vp frames filename dir s =
  match write_all sink vp 0 frames s with
  | (s1, Ok _) =>
      let s2 := upd_fs (fun d => mkFS (dirs d) (files d)
                          ((journal d ++ [OpRelease vp]) ++ [OpGetsize vp])) s1 in
      match files (fs s1) !! vp with
      | Some written =>
          (add_out (OutSavedTo dir)
             (add_out (OutSaved filename (encoded_size sink written)) s2),
           Ok true)
      | None => (s2, Raise (PyException "No such file or directory"))
      end
  | (s1, Raise e) => (s1, Raise e)
  end.
Proof.
  unfold write_and_report, release, getsize, mbind, M_bind, journal_op, modify,
    gets, emit, raise, mret, M_ret.
  destruct (write_all sink vp 0 frames s) as [s1 [[]|e]]; [|reflexivity].
  cbn. destruct (files (fs s1) !! vp); reflexivity.
Qed.

(** The body of the [try] either reports success or raises before it has
    printed anything. *)
Lemma write_and_report_spec sink vp frames filename dir s :
  let r := write_and_report sink vp frames filename dir s in
  self (fst r) = self s
  /\ threads (fst r) = threads s
  /\ (exists n ops,
        journal (fs (fst r))
        = journal (fs s) ++ map (OpWrite vp) (seq 0 n) ++ ops
        /\ filter (fun o => is_open_writer o = true) ops = []
        /\ write_indices ops = [])
  /\ snd r <> Ok false
  /\ (forall e, snd r = Raise e -> out (fst r) = out s).
Proof.
  intros r. subst r. rewrite write_and_report_eq.
  destruct (write_all_spec sink vp frames 0%nat s)
    as (Hself & Hout & Hth & _ & _ & n & Hj).
  destruct (write_all sink vp 0 frames s) as [s1 [[]|e]]; cbn in Hself, Hout, Hth, Hj.
  - destruct (files (fs s1) !! vp) as [written|]; cbn.
    + split_and!; [assumption|assumption| |discriminate|intros e E; discriminate E].
      exists n, [OpRelease vp; OpGetsize vp]. rewrite Hj, <- !app_assoc.
      split_and!; reflexivity.
    + split_and!; [assumption|assumption| |discriminate|intros e _; exact Hout].
      exists n, [OpRelease vp; OpGetsize vp]. rewrite Hj, <- !app_assoc.
      split_and!; reflexivity.
  - cbn. split_and!; [assumption|assumption| |discriminate|intros e' _; exact Hout].
    exists n, []. rewrite app_nil_r. split_and!; [exact Hj|reflexivity..].
Qed.

(** The handler reports once and tries once to remove the file: the file is
    gone when the removal works and stays when it fails. *)
Lemma discard_spec sink vp e s :
  let r := discard sink vp e s in
  snd r = Ok false
  /\ self (fst r) = self s
  /\ threads (fst r) = threads s
  /\ out (fst r) = out s ++ [OutSaveError (exc_msg e)]
  /\ dirs (fs (fst r)) = dirs (fs s)
  /\ (remove_error sink = None -> files (fs (fst r)) !! vp = None)
  /\ (remove_error sink <> None -> files (fs (fst r)) = files (fs s))
  /\ (forall q, q <> vp -> files (fs (fst r)) !! q = files (fs s) !! q)
  /\ journal (fs (fst r)) = journal (fs s) ++ [OpRelease vp; OpRemove vp].
Proof.
  intros r. subst r.
  unfold discard, release, remove, try_all, mbind, M_bind, journal_op, modify,
    gets, emit, raise, mret, M_ret. cbn.
  destruct (remove_error sink) as [e'|]; cbn.
  { split_and!; try reflexivity; [discriminate|rewrite <- app_assoc; reflexivity]. }
  destruct (files (fs s) !! vp) as [written|] eqn:E; cbn.
  - split_and!; try reflexivity;
      [intros _; apply lookup_delete_eq|intros Hc; congruence
      |intros q Hne; apply lookup_delete_ne; congruence
      |rewrite <- app_assoc; reflexivity].
  - split_and!; try reflexivity;
      [intros _; exact E|rewrite <- app_assoc; reflexivity].
Qed.


Lemma save_video_eq mounts sink first rest filename s usb_path :
  find_usb_drive mounts = Ok usb_path ->
  let save_dir := save_dir_of usb_path in
  let vp := video_path_of usb_path filename in
  let s0 := upd_fs (fun d => mkFS (dirs d) (files d)
                      (journal d ++ [OpMakedirs save_dir])) s in
  save_video mounts sink (first :: rest) filename s =
  match makedirs_error sink with
  | Some e =>
      if is_Exception e
      then (add_out (OutMkdirError (exc_msg e)) s0, Ok false)
      else (s0, Raise e)
  | None =>
      let s1 := upd_fs (fun d =>
                  mkFS (dirs d ∪ {[save_dir]}) (files d)
                       (journal d ++ [OpOpenWriter vp (fps (self s))
                                        (snd (shape first)) (fst (shape first))]))
                  s0 in
      if writer_opens sink
      then try_ (write_and_report sink vp (first :: rest) filename save_dir)
                (discard sink vp)
                (upd_fs (fun d => mkFS (dirs d) (<[vp := []]> (files d)) (journal d)) s1)
      else (add_out (OutOpenError vp) s1, Ok false)
  end.
Proof.
  intros Husb save_dir vp s0.
  unfold save_video. rewrite Husb.
  unfold makedirs, VideoWriter, try_ at 1, lift, mbind, M_bind, journal_op,
    modify, gets, attr, emit, raise, mret, M_ret.
  cbn. destruct (makedirs_error sink) as [e|]; cbn.
  - destruct (is_Exception e); reflexivity.
  - destruct (writer_opens sink); reflexivity.
Qed.

(** C7. When the writer has opened and the write of the frame at position
    [k] is the first to raise (an [Exception]), [save_video] returns False
    and prints exactly one line, the failure report. It has opened the
    writer once, offered each of the frames up to position [k] once and
    none after it, released the writer and tried once to remove the file;
    it has started no thread: nothing is tried again. When the removal
    works, no file remains at the destination path. When the removal fails
    too, that failure is swallowed and the file stays, holding the frames
    stored before the failure. Every other file is as it was. *)
Theorem C7_failed_save_leaves_no_file
    mounts sink (frames : list Frame) filename s usb_path k e :
  find_usb_drive mounts = Ok usb_path ->
  makedirs_error sink = None ->
  writer_opens sink = true ->
  (k < length frames)%nat ->
  write_error sink k = Some e ->
  is_Exception e = true ->
  (forall j, (j < k)%nat -> write_error sink j = None) ->
  let s' := fst (save_video mounts sink frames filename s) in
  let video_path := video_path_of usb_path filename in
  snd (save_video mounts sink frames filename s) = Ok false
  /\ out s' = out s ++ [OutSaveError (exc_msg e)]
  /\ (remove_error sink = None -> files (fs s') !! video_path = None)
  /\ (remove_error sink <> None ->
      files (fs s') !! video_path = Some (kept sink 0 (take k frames)))
  /\ (forall q, q <> video_path -> files (fs s') !! q = files (fs s) !! q)
  /\ (exists w h,
        journal (fs s')
        = journal (fs s)
          ++ [OpMakedirs (save_dir_of usb_path);
              OpOpenWriter video_path (fps (self s)) w h]
          ++ map (OpWrite video_path) (seq 0 (S k))
          ++ [OpRelease video_path; OpRemove video_path])
  /\ threads s' = threads s.
Proof.
  intros Husb Hmk Hop Hk He Hexc Hbefore.
  destruct frames as [|first rest]; [cbn in Hk; lia|].
  rewrite (save_video_eq mounts sink first rest filename s usb_path Husb).
  cbn zeta. set (video_path := video_path_of usb_path filename).
  rewrite Hmk, Hop. clear Husb.
  match goal with
  | |- context [try_ _ _ ?st] => set (s3 := st)
  end.
  unfold try_. rewrite write_and_report_eq.
  destruct (write_all_spec sink video_path (first :: rest) 0%nat s3)
    as (Wself & Wout & Wth & Wd & Wq & _).
  destruct (write_all_raises sink video_path (first :: rest) 0%nat s3 k e
              Hk He Hbefore) as (Wr & Wp & Wj).
  destruct (write_all sink video_path 0 (first :: rest) s3) as [s4 r4].
  cbn [fst snd] in Wself, Wout, Wth, Wd, Wq, Wr, Wp, Wj. subst r4.
  rewrite Hexc.
  destruct (discard_spec sink video_path e s4)
    as (Dr & Dself & Dth & Dout & Dd & Dgone & Dstays & Dq & Dj).
  cbn zeta in Dr, Dself, Dth, Dout, Dd, Dgone, Dstays, Dq, Dj.
  assert (Hp3 : files (fs s3) !! video_path = Some []).
  { subst s3. cbn. apply lookup_insert_eq. }
  rewrite Hp3 in Wp. cbn in Wp.
  split_and!.
  - exact Dr.
  - rewrite Dout, Wout. reflexivity.
  - exact Dgone.
  - intros Hrm. rewrite (Dstays Hrm). exact Wp.
  - intros q Hne. rewrite (Dq q Hne), (Wq q Hne). subst s3. cbn.
    apply lookup_insert_ne. congruence.
  - exists (snd (shape first)), (fst (shape first)).
    rewrite Dj, Wj. subst s3. cbn. rewrite <- !app_assoc. reflexivity.
  - rewrite Dth, Wth. reflexivity.
Qed.

(** C10. [save_video] with no frames prints that there is nothing to save
    and returns False; the file system, with its journal of operations, is
    exactly as before: no directory is made and no file is opened. *)
Theorem C10_empty_save_is_a_no_op mounts sink filename (s : State Frame) :
  save_video mounts sink [] filename s = (add_out OutNoFrames s, Ok false)
  /\ fs (fst (save_video mounts sink [] filename s)) = fs s
  /\ journal (fs (fst (save_video mounts sink [] filename s))) = journal (fs s).
Proof. split_and!; reflexivity. Qed.

End SaveVideo.

Section ThreadFacts.
Context {Frame : Type} `{FrameLike Frame}.

(** Saving runs in its own thread and does not touch the list of threads. *)
Lemma save_video_threads mounts sink (frames : list Frame) filename s :
  threads (fst (save_video mounts sink frames filename s)) = threads s.
Proof.
  destruct frames as [|first rest]; [reflexivity|].
  destruct (find_usb_drive mounts) as [usb_path|e] eqn:Husb.
  2:{ unfold save_video. rewrite Husb. reflexivity. }
  rewrite (save_video_eq mounts sink first rest filename s usb_path Husb).
  cbn zeta. clear Husb.
  destruct (makedirs_error sink) as [e|];
    [destruct (is_Exception e); reflexivity|].
  destruct (writer_opens sink); [|reflexivity].
  unfold try_.
  match goal with
  | |- context [write_and_report ?a ?b ?c ?d ?e ?st] =>
      destruct (write_and_report_spec a b c d e st) as (_ & Bth & _);
      destruct (write_and_report a b c d e st) as [s4 [ok|e']]
  end; cbn [fst snd] in *; [exact Bth|].
  destruct (is_Exception e'); [|exact Bth].
  match goal with
  | |- context [discard ?k ?p ?x ?st] =>
      destruct (discard_spec k p x st) as (_ & _ & Dth & _)
  end.
  cbn zeta in Dth. rewrite Dth. exact Bth.
Qed.

Lemma jobs_alter_done (k : nat) (ts : list (Thread Frame)) :
  map th_job (alter (fun t => mkThread (th_job t) true) k ts) = map th_job ts.
Proof.
  revert k. induction ts as [|t ts IH]; intros [|k]; cbn; try reflexivity.
  f_equal. apply IH.
Qed.

(** A thread that finishes leaves every artifact handed over in place. *)
Lemma thread_run_keeps_jobs mounts sink k (s : State Frame) :
  map th_job (threads (fst (thread_run mounts sink k s))) = map th_job (threads s).
Proof.
  unfold thread_run. destruct (threads s !! k) as [t|]; [|reflexivity].
  destruct (th_done t); [reflexivity|]. cbn.
  rewrite jobs_alter_done, save_video_threads. reflexivity.
Qed.

End ThreadFacts.

(** ** The claims that are settled on the concrete installation *)

Import Demo.

Section Unbounded.
#[local] Arguments iteration : simpl never.
#[local] Arguments elapsed : simpl never.

Lemma run_schedule_pass mounts (i : Tick nat) rest l s :
  run_schedule mounts (Pass i :: rest) l s =
  match iteration i l s with
  | (s1, Ok l1) => run_schedule mounts rest l1 s1
  | (s1, Raise e) => (s1, Raise e)
  end.
Proof. reflexivity. Qed.

(** One session: the first pass starts recording, the second stops it and
    starts a thread. *)
Lemma one_session mounts j rest l s :
  between_sessions j l s ->
  exists l2 s2,
    run_schedule mounts (session j ++ rest) l s = run_schedule mounts rest l2 s2
    /\ between_sessions (S j) l2 s2
    /\ in_flight s2 = S (in_flight s).
Proof.
  intros (Hcons & Hoff & Hmod & Hafter & Hlast).
  destruct (model (self s)) as [m|] eqn:Hm; [clear Hmod|contradiction].
  set (a := pass_at (session_start j) 0 [0]).
  set (b := pass_at (session_start j + 5) 1 []).
  (* the pass with the person *)
  assert (Hela : elapsed (t_now a) (loop_last_detection_time l)
                   detection_interval = true).
  { apply elapsed_half. exact Hlast. }
  assert (Hrepa : reported (model (self s)) (detector a) = Some true)
    by (rewrite Hm; reflexivity).
  destruct (iteration_heard a l s true eq_refl Hela Hrepa) as (Hca & _ & Hoka).
  destruct (Hoka Hcons) as [ca Hra].
  pose proof (iteration_consistent a l s Hcons) as Hcons1.
  apply core_inv in Hca
    as (Hr1 & _ & Hl1 & _ & _ & Hm1 & _ & Ha1 & _ & _ & Hth1 & _).
  destruct (seen_person_spec (t_now a) a
              (heard (frame a) (detector a) (pushed (frame a) s)))
    as (Prec & Plast & _ & _ & _ & Pm & Pa & Pth & _).
  rewrite Prec in Hr1. rewrite Plast in Hl1.
  rewrite Pm, heard_self in Hm1. rewrite Pa, heard_self in Ha1.
  rewrite Pth, heard_threads in Hth1. cbn in Hl1, Hm1, Ha1, Hth1.
  destruct (iteration a l s) as [s1 r1] eqn:Hita. cbn [fst snd] in *. subst r1.
  (* the pass with the empty picture *)
  set (l1 := mkLoop (t_now a) ca).
  assert (Helb : elapsed (t_now b) (loop_last_detection_time l1)
                   detection_interval = true).
  { apply elapsed_half. cbn. unfold detection_interval. lra. }
  assert (Hrepb : reported (model (self s1)) (detector b) = Some false)
    by (rewrite Hm1, Hm; reflexivity).
  destruct (iteration_heard b l1 s1 false eq_refl Helb Hrepb) as (Hcb & _ & Hokb).
  destruct (Hokb Hcons1) as [cb Hrb].
  pose proof (iteration_consistent b l1 s1 Hcons1) as Hcons2.
  apply core_inv in Hcb
    as (Hr2 & _ & _ & _ & _ & Hm2 & _ & Ha2 & _ & _ & Hth2 & _).
  destruct (seen_nobody_spec (t_now b) b
              (heard (frame b) (detector b) (pushed (frame b) s1)))
    as (Qrec & _ & _ & _ & Qth & _ & Qm & Qa & _).
  rewrite Qrec in Hr2. rewrite Qm, heard_self in Hm2.
  rewrite Qa, heard_self in Ha2. rewrite Qth, heard_threads in Hth2.
  rewrite !heard_self in Hr2, Hth2. cbn in Hr2, Hm2, Ha2, Hth2.
  assert (Hstop : elapsed (session_start j + 5) (last_detection_time (self s1))
                    (recording_after_seconds (self s1)) = true).
  { rewrite Hl1, Ha1, Hafter.
    rewrite (elapsed_difference _ _ 5) by (cbn; ring).
    vm_compute. reflexivity. }
  rewrite Hr1, Hstop in Hr2, Hth2. cbn in Hr2, Hth2.
  destruct (iteration b l1 s1) as [s2 r2] eqn:Hitb. cbn [fst snd] in *. subst r2.
  exists (mkLoop (t_now b) cb), s2.
  split; [|split].
  - unfold session. cbn [app]. fold a b.
    rewrite run_schedule_pass, Hita. fold l1.
    rewrite run_schedule_pass, Hitb. reflexivity.
  - unfold between_sessions. split_and!; try assumption.
    + rewrite Hm2, Hm1, Hm. discriminate.
    + rewrite Ha2, Ha1. exact Hafter.
    + cbn. unfold detection_interval. lra.
  - unfold in_flight. rewrite Hth2, Hth1. apply in_flight_add_thread.
Qed.

Lemma sessions_in_flight mounts n : forall j l s,
  between_sessions j l s ->
  in_flight (fst (run_schedule mounts (sessions j n) l s))
  = (in_flight s + n)%nat.
Proof.
  induction n as [|n IH]; intros j l s Hb.
  - cbn. lia.
  - cbn [sessions].
    destruct (one_session mounts j (sessions (S j) n) l s Hb)
      as (l2 & s2 & -> & Hb2 & Hfl).
    rewrite (IH (S j) l2 s2 Hb2), Hfl. lia.
Qed.

End Unbounded.

(** C8, as the code has it. Persistence is fire and forget: a pass that
    ends a session starts one thread for the artifact in that very pass,
    behind the threads started before, and the artifact is the buffer as it
    is after the push of that pass; a pass never writes to the file system
    itself and never removes a thread; a thread that finishes leaves the
    artifacts of all threads in place. Nothing bounds the number of
    artifacts being written at once: for every [K] there is a schedule after
    which [K + 1] are in flight. *)
Theorem C8_every_stop_starts_its_own_thread :
  (forall (Frame : Type) (FL : FrameLike Frame) (i : Tick Frame) l s,
      let s' := fst (iteration i l s) in
      fs s' = fs s
      /\ ((is_recording (self s) = true
           /\ is_recording (self s') = false
           /\ threads s'
              = threads s
                ++ [mkThread
                      (mkJob (Deque.to_list
                                (Deque.append (frame_buffer (self s)) (frame i)))
                             ("security_" +:+ stamp i +:+ ".mp4"))
                      false]
           /\ in_flight s' = S (in_flight s))
          \/ ((is_recording (self s) = true -> is_recording (self s') = true)
              /\ threads s' = threads s)))
  /\ (forall (Frame : Type) (FL : FrameLike Frame) mounts sink k (s : State Frame),
        map th_job (threads (fst (thread_run mounts sink k s)))
        = map th_job (threads s))
  /\ (forall K : nat,
        exists steps,
          in_flight (fst (run_schedule Demo.no_mounts steps (mkLoop 0 0)
                            Demo.idle_state))
          = S K).
Proof.
  split; [|split].
  - intros Frame FL i l s. apply iteration_threads.
  - intros Frame FL mounts sink k s. apply thread_run_keeps_jobs.
  - intros K. exists (Demo.sessions 0 (S K)).
    rewrite sessions_in_flight; [reflexivity|].
    unfold Demo.between_sessions. split_and!.
    + split; [reflexivity|discriminate].
    + reflexivity.
    + discriminate.
    + reflexivity.
    + cbn. unfold detection_interval. lra.
Qed.

(** C8 as stated fails: with the default bound of one, thirty passes a
    second and two visits eleven seconds apart leave two artifacts being
    written at the same time when the first write has not finished. *)
Lemma C8_counterexample : ~ persistence_bounded (Frame := nat) 1.
Proof.
  intros Hbound.
  specialize (Hbound Demo.no_mounts Demo.two_visits (mkLoop 0 0)
                Demo.idle_state eq_refl).
  vm_compute in Hbound. lia.
Qed.

(** C9. Without torch, startup goes through and the loop runs; the program
    announces that all frames will be recorded, and then no pass ever
    records: whatever the camera sees, the recording flag stays down, no
    thread is started and the detector is never called. *)
Theorem C9_announced_fallback_is_not_what_happens :
  exists s0,
    Demo.power_on Demo.camera30 Demo.hub_missing Demo.no_mounts Demo.empty_disk
    = Some s0
    /\ running (self s0) = true
    /\ model (self s0) = None
    /\ out s0 = [OutBanner; OutCameraInit; OutCameraReady 640 480 30;
                 OutYoloUnavailable; OutContinueWithoutDetection;
                 OutAllFramesRecorded; OutSaveDestination "recordings";
                 OutSystemStarted 5 5 30 640 480]
    /\ forall ticks : list (Tick nat),
         let s' := fst (monitoring_loop ticks s0) in
         is_recording (self s') = false
         /\ threads s' = []
         /\ detector_calls s' = [].
Proof.
  eexists. split; [vm_compute; reflexivity|].
  split_and!; try reflexivity.
  intros ticks s'. subst s'.
  match goal with
  | |- context [monitoring_loop ticks ?s0] =>
      change (monitoring_loop ticks s0)
        with (iterations ticks (mkLoop 0 0) (add_out OutMonitoringStarted s0));
      exact (no_model_never_records ticks (mkLoop 0 0)
               (add_out OutMonitoringStarted s0) eq_refl eq_refl)
  end.
Qed.

(** C2. Thirty passes a second from second 1000, a person on frame 150
    only (second 1005) and on no later frame. The session starts with that
    pass and stops with pass 300, five seconds later. The artifact handed
    to the writer is frames 151 to 300: the 150 frames of the last five
    seconds. None of frames 0 to 150, the five seconds before the detection
    and the detection itself, is in it. *)
Theorem C2_artifact_is_the_last_buffer_only :
  exists s0,
    Demo.power_on Demo.camera30 Demo.hub_ok Demo.no_mounts Demo.empty_disk
    = Some s0
    /\ let ticks := Demo.trace (1 # 30) 1000 (fun k => Nat.eqb k 150) 301 in
       let t k := match ticks !! k with Some i => t_now i | None => 0%Q end in
       (t 150%nat - t 0%nat == 5)%Q
       /\ (t 300%nat - t 150%nat == 5)%Q
       /\ is_recording (self (Demo.watch s0 ticks 150)) = false
       /\ is_recording (self (Demo.watch s0 ticks 151)) = true
       /\ is_recording (self (Demo.watch s0 ticks 300)) = true
       /\ threads (Demo.watch s0 ticks 300) = []
       /\ is_recording (self (Demo.watch s0 ticks 301)) = false
       /\ map th_job (threads (Demo.watch s0 ticks 301))
          = [mkJob (seq 151 150) "security_2024-01-01_12-00-00.mp4"]
       /\ Forall (fun j => Forall (fun k => k ∉ job_frames j) (seq 0 151))
                 (map th_job (threads (Demo.watch s0 ticks 301))).
Proof.
  exists (default Demo.idle_state
            (Demo.power_on Demo.camera30 Demo.hub_ok Demo.no_mounts
               Demo.empty_disk)).
  split; [vm_compute; reflexivity|].
  cbn zeta. split_and!; try (vm_compute; reflexivity).
  refine (bool_decide_unpack _ _). vm_compute. exact I.
Qed.

(** ** The model at work *)

(** Four frames saved on a healthy medium end up, in order, in one file
    under the local fallback directory. *)
Example save_video_on_good_sink :
  let r := save_video Demo.no_mounts Demo.good_sink [1; 2; 3; 4]%nat
             "security_2024-01-01_12-00-00.mp4" Demo.idle_state in
  snd r = Ok true
  /\ files (fs (fst r))
       !! "recordings/security_recordings/security_2024-01-01_12-00-00.mp4"
     = Some [1; 2; 3; 4]%nat
  /\ out (fst r)
     = [OutSaved "security_2024-01-01_12-00-00.mp4" 4;
        OutSavedTo "recordings/security_recordings"].
Proof. cbn zeta. split_and!; vm_compute; reflexivity. Qed.

(** When the third write raises, two frames have been written and the file
    is removed again. *)
Example save_video_on_failing_sink :
  let r := save_video Demo.no_mounts Demo.failing_sink [1; 2; 3; 4]%nat
             "security_2024-01-01_12-00-00.mp4" Demo.idle_state in
  snd r = Ok false
  /\ files (fs (fst r)) = ∅
  /\ write_indices (journal (fs (fst r))) = [0; 1; 2]%nat
  /\ out (fst r) = [OutSaveError "write failed"].
Proof. cbn zeta. split_and!; vm_compute; reflexivity. Qed.

(** After the two visits, a first thread that finishes leaves one artifact
    in flight and both artifacts handed over. *)
Example one_thread_finishes :
  let s := fst (run_schedule Demo.no_mounts
                  (Demo.two_visits ++ [Finish 0 Demo.good_sink])
                  (mkLoop 0 0) Demo.idle_state) in
  in_flight s = 1%nat
  /\ map (fun t => length (job_frames (th_job t))) (threads s) = [150; 150]%nat.
Proof. cbn zeta. split; vm_compute; reflexivity. Qed.

(** ** The theorems at concrete inputs *)

(** C3 on the idle installation: a pass at second 1000 in which the
    detector sees a person. *)
Lemma C3_witness :
  consistent (self Demo.idle_state)
  /\ sampled (Demo.pass_at 1000 0 [0]) 0 = true
  /\ snd (detect_person 0%nat (DetResults [0]) Demo.idle_state) = Ok true
  /\ is_recording
       (self (fst (iteration (Demo.pass_at 1000 0 [0]) (mkLoop 0 0)
                     Demo.idle_state)))
     = true.
Proof.
  assert (Hc : consistent (self Demo.idle_state))
    by (split; [reflexivity|discriminate]).
  assert (Hs : sampled (Demo.pass_at 1000 0 [0]) 0 = true) by reflexivity.
  assert (Hd : snd (detect_person 0%nat (DetResults [0]) Demo.idle_state)
               = Ok true) by reflexivity.
  refine (conj Hc (conj Hs (conj Hd _))).
  exact (proj1 (proj2 (C3_detection_starts_one_session
                         (Demo.pass_at 1000 0 [0]) (mkLoop 0 0)
                         Demo.idle_state Hc Hs Hd))).
Defined.

(** C4 during a session whose last detection was at second 1000: an absent
    sample at 1001 and a present one at 1002. *)
Lemma C4_witness :
  let ticks := [Demo.pass_at 1001 10 []; Demo.pass_at 1002 11 [0]] in
  let l := mkLoop 1000 0 in
  let s := Demo.recording_state in
  is_recording (self s) = true
  /\ (last_detection_time (self s) <= loop_last_detection_time l)%Q
  /\ presents_within (recording_after_seconds (self s))
       (last_detection_time (self s))
       (samples_of (model (self s)) (loop_last_detection_time l) ticks)
  /\ absences_end
       (samples_of (model (self s)) (loop_last_detection_time l) ticks)
  /\ (recording_after_seconds (self s) < Binary64.pow2 52)%Q
  /\ is_recording (self (after_passes ticks 2 l s)) = true.
Proof.
  intros ticks l s.
  assert (H1 : is_recording (self s) = true) by reflexivity.
  assert (H2 : (last_detection_time (self s) <= loop_last_detection_time l)%Q)
    by (vm_compute; discriminate).
  assert (H5 : (recording_after_seconds (self s) < Binary64.pow2 52)%Q)
    by (vm_compute; reflexivity).
  assert (H3 : presents_within (recording_after_seconds (self s))
                 (last_detection_time (self s))
                 (samples_of (model (self s)) (loop_last_detection_time l) ticks))
    by (vm_compute; split; [discriminate|exact I]).
  assert (H4 : absences_end
                 (samples_of (model (self s)) (loop_last_detection_time l) ticks))
    by (vm_compute; split; [discriminate|exact I]).
  refine (conj H1 (conj H2 (conj H3 (conj H4 (conj H5 _))))).
  exact (proj1 (proj2 C4_recording_ends_only_after_the_gap ticks l s 2%nat
                  H1 H2 H5 H3 H4)).
Defined.

(** A session that ends early by a rounding error. A person is seen at
    0.5 + 2^-53 seconds and nobody at 5.5 seconds. Both readings are
    binary64 numbers and their difference is computed as 5.0, so the pass
    at 5.5 ends the session although less than five seconds have gone by. *)
Example early_stop_in_detail :
  let t0 := ((1 # 2) + Binary64.eps)%Q in
  let run := iterations [Demo.pass_at t0 0 [0]] (mkLoop 0 0) Demo.idle_state in
  let s := fst run in
  let i := Demo.pass_at (11 # 2) 1 [] in
  Binary64.representable t0 = true
  /\ Binary64.representable (11 # 2) = true
  /\ Binary64.sub (11 # 2) t0 = 5%Q
  /\ snd run = Ok (mkLoop t0 1)
  /\ is_recording (self s) = true
  /\ last_detection_time (self s) = t0
  /\ recording_after_seconds (self s) = 5%Q
  /\ is_recording (self (fst (iteration i (mkLoop t0 1) s))) = false
  /\ (t_now i - last_detection_time (self s)
      < recording_after_seconds (self s))%Q.
Proof.
  cbn zeta. split_and!; vm_compute; reflexivity.
Qed.

(** C4 as stated fails: in the run above the recording state is left
    before [recording_after_seconds] have gone by. *)
Lemma C4_counterexample : ~ stops_only_after_the_gap (Frame := nat).
Proof.
  intros Hexact.
  pose proof (Hexact (Demo.pass_at (11 # 2) 1 [])
                (mkLoop ((1 # 2) + Binary64.eps) 1)
                (fst (iterations [Demo.pass_at ((1 # 2) + Binary64.eps) 0 [0]]
                        (mkLoop 0 0) Demo.idle_state))) as Hgap.
  vm_compute in Hgap. exact (Hgap eq_refl eq_refl eq_refl).
Qed.

(** C5 on a pass a quarter of a second after the previous sample. *)
Lemma C5_witness :
  let i := Demo.pass_at 1000 0 [0] in
  let l := mkLoop (3999 # 4) 0 in
  sampled i (loop_last_detection_time l) = false
  /\ detector_calls (fst (iteration i l Demo.idle_state)) = [].
Proof.
  intros i l.
  assert (Hs : sampled i (loop_last_detection_time l) = false) by reflexivity.
  split; [exact Hs|].
  exact (proj1 (proj1 (proj2 (C5_sampler_throttles_the_detector
                                i l Demo.idle_state)) Hs)).
Defined.

(** C6 on a pass in which inference fails. *)
Lemma C6_witness :
  let ticks := [Demo.pass_raising 1000 0 (PyException "inference failed")] in
  consistent (self Demo.idle_state)
  /\ failures_are_exceptions ticks
  /\ exists l', snd (iterations ticks (mkLoop 0 0) Demo.idle_state) = Ok l'.
Proof.
  intros ticks.
  assert (Hc : consistent (self Demo.idle_state))
    by (split; [reflexivity|discriminate]).
  assert (Hf : failures_are_exceptions ticks).
  { constructor; [|constructor]. intros e E. injection E as <-. reflexivity. }
  refine (conj Hc (conj Hf _)).
  exact (proj2 (proj2 C6_detector_failures_are_caught) ticks (mkLoop 0 0)
           Demo.idle_state Hc Hf).
Defined.

(** C7 on a sink whose third write fails. *)
Lemma C7_witness :
  let frames := [1; 2; 3; 4]%nat in
  let filename := "security_2024-01-01_12-00-00.mp4" in
  let r := save_video Demo.no_mounts Demo.failing_sink frames filename
             Demo.idle_state in
  find_usb_drive Demo.no_mounts = Ok "recordings"
  /\ makedirs_error Demo.failing_sink = None
  /\ writer_opens Demo.failing_sink = true
  /\ (2 < length frames)%nat
  /\ write_error Demo.failing_sink 2 = Some (PyException "write failed")
  /\ (forall j, (j < 2)%nat -> write_error Demo.failing_sink j = None)
  /\ remove_error Demo.failing_sink = None
  /\ snd r = Ok false
  /\ files (fs (fst r)) !! video_path_of "recordings" filename = None.
Proof.
  intros frames filename r.
  assert (H1 : find_usb_drive Demo.no_mounts = Ok "recordings") by reflexivity.
  assert (H2 : makedirs_error Demo.failing_sink = None) by reflexivity.
  assert (H3 : writer_opens Demo.failing_sink = true) by reflexivity.
  assert (H4 : (2 < length frames)%nat) by (cbn; lia).
  assert (H5 : write_error Demo.failing_sink 2
               = Some (PyException "write failed")) by reflexivity.
  assert (H6 : forall j, (j < 2)%nat -> write_error Demo.failing_sink j = None).
  { intros [|[|j]] Hj; [reflexivity|reflexivity|lia]. }
  assert (H7 : remove_error Demo.failing_sink = None) by reflexivity.
  refine (conj H1 (conj H2 (conj H3 (conj H4 (conj H5 (conj H6 (conj H7 _))))))).
  pose proof (C7_failed_save_leaves_no_file
                Demo.no_mounts Demo.failing_sink frames filename
                Demo.idle_state "recordings" 2%nat
                (PyException "write failed") H1 H2 H3 H4 H5 eq_refl H6) as Hthm.
  exact (conj (proj1 Hthm) (proj1 (proj2 (proj2 Hthm)) H7)).
Defined.

(** A partial file that remains. The medium is pulled during the third
    write: the write raises, the removal of the file fails as well, and the
    two frames written so far stay at the destination path. *)
Example partial_file_in_detail :
  let frames := [1; 2; 3; 4]%nat in
  let filename := "security_2024-01-01_12-00-00.mp4" in
  let r := save_video Demo.no_mounts Demo.pulled_sink frames filename
             Demo.idle_state in
  write_error Demo.pulled_sink 2 = Some (PyException "write failed")
  /\ snd r = Ok false
  /\ out (fst r) = [OutSaveError "write failed"]
  /\ files (fs (fst r))
       !! "recordings/security_recordings/security_2024-01-01_12-00-00.mp4"
     = Some [1; 2]%nat.
Proof.
  cbn zeta. split_and!; vm_compute; reflexivity.
Qed.

(** C7 as stated fails: in the attempt above a write has failed and a
    partial file is left at the destination path. *)
Lemma C7_counterexample : ~ failed_write_leaves_no_file (Frame := nat).
Proof.
  intros Hclean.
  pose proof (Hclean Demo.no_mounts Demo.pulled_sink [1; 2; 3; 4]%nat
                "security_2024-01-01_12-00-00.mp4" Demo.idle_state
                "recordings" 2%nat (PyException "write failed")
                eq_refl eq_refl eq_refl) as Hnone.
  assert (Hk : (2 < length [1; 2; 3; 4]%nat)%nat) by (cbn; lia).
  specialize (Hnone Hk eq_refl eq_refl).
  vm_compute in Hnone. discriminate Hnone.
Qed.

(** C8 with two artifacts in flight. *)
Lemma C8_witness :
  exists steps,
    in_flight (fst (run_schedule Demo.no_mounts steps (mkLoop 0 0)
                      Demo.idle_state))
    = 2%nat.
Proof.
  exact (proj2 (proj2 C8_every_stop_starts_its_own_thread) 1%nat).
Defined.

(** * Further properties of the code *)

(** ** Looking for a medium *)

Section FindUsbDrive.

Lemma first_writable_dir_Some mounts base_path names p :
  first_writable_dir mounts base_path names = Some p ->
  exists pre item post,
    names = pre ++ item :: post
    /\ p = OsPath.join base_path item
    /\ writable_dir mounts p = true
    /\ Forall (fun item' =>
                 writable_dir mounts (OsPath.join base_path item') = false) pre.
Proof.
  induction names as [|item rest IH]; cbn [first_writable_dir]; [discriminate|].
  fold (writable_dir mounts (OsPath.join base_path item)).
  destruct (writable_dir mounts (OsPath.join base_path item)) eqn:Hw.
  - intros E. injection E as <-. exists [], item, rest.
    split_and!; [reflexivity|reflexivity|exact Hw|constructor].
  - intros E. destruct (IH E) as (pre & item' & post & -> & -> & Hw' & Hpre).
    exists (item :: pre), item', post.
    split_and!; [reflexivity|reflexivity|exact Hw'|constructor; assumption].
Qed.

Lemma first_writable_dir_None mounts base_path names :
  first_writable_dir mounts base_path names = None <->
  Forall (fun item => writable_dir mounts (OsPath.join base_path item) = false)
         names.
Proof.
  induction names as [|item rest IH]; cbn [first_writable_dir].
  - split; [constructor|reflexivity].
  - fold (writable_dir mounts (OsPath.join base_path item)).
    destruct (writable_dir mounts (OsPath.join base_path item)) eqn:Hw.
    + split; [discriminate|]. intros Hall. apply Forall_cons in Hall as [E _].
      congruence.
    + rewrite IH. split; [intros Hr; constructor; assumption|].
      intros Hall. apply Forall_cons in Hall as [_ Hr]. exact Hr.
Qed.

Lemma first_writable_dir_first mounts base_path pre item post :
  Forall (fun item' =>
            writable_dir mounts (OsPath.join base_path item') = false) pre ->
  writable_dir mounts (OsPath.join base_path item) = true ->
  first_writable_dir mounts base_path (pre ++ item :: post)
  = Some (OsPath.join base_path item).
Proof.
  induction pre as [|x pre IH]; intros Hpre Hw; cbn [app first_writable_dir].
  - fold (writable_dir mounts (OsPath.join base_path item)). rewrite Hw.
    reflexivity.
  - apply Forall_cons in Hpre as [Hx Hpre].
    fold (writable_dir mounts (OsPath.join base_path x)). rewrite Hx.
    apply IH; assumption.
Qed.

Lemma scan_barren mounts base_path rest :
  barren mounts base_path ->
  scan_mount_points mounts (base_path :: rest) = scan_mount_points mounts rest.
Proof.
  intros [Hno|[Hperm|(names & Hls & Hall)]]; cbn [scan_mount_points].
  - rewrite Hno. reflexivity.
  - rewrite Hperm. destruct (path_exists mounts base_path); reflexivity.
  - rewrite Hls. apply first_writable_dir_None in Hall. rewrite Hall.
    destruct (path_exists mounts base_path); reflexivity.
Qed.

Lemma scan_sound mounts bases p :
  scan_mount_points mounts bases = Ok (Some p) ->
  exists base_path names,
    base_path ∈ bases
    /\ path_exists mounts base_path = true
    /\ listdir mounts base_path = ListEntries names
    /\ first_writable_dir mounts base_path names = Some p.
Proof.
  induction bases as [|base_path rest IH]; cbn [scan_mount_points];
    [discriminate|].
  assert (Hrest : scan_mount_points mounts rest = Ok (Some p) ->
            exists base_path0 names,
              base_path0 ∈ base_path :: rest
              /\ path_exists mounts base_path0 = true
              /\ listdir mounts base_path0 = ListEntries names
              /\ first_writable_dir mounts base_path0 names = Some p).
  { intros E. destruct (IH E) as (b & names & Hin & Hrestb).
    exists b, names. split; [right; exact Hin|exact Hrestb]. }
  destruct (path_exists mounts base_path) eqn:Hex; [|exact Hrest].
  destruct (listdir mounts base_path) as [names| |e] eqn:Hls;
    [|exact Hrest|discriminate].
  destruct (first_writable_dir mounts base_path names) as [q|] eqn:Hf;
    [|exact Hrest].
  intros E. injection E as <-. exists base_path, names.
  split_and!; [left|exact Hex|exact Hls|exact Hf].
Qed.

Lemma scan_answers mounts bases :
  (forall base_path e, base_path ∈ bases ->
     path_exists mounts base_path = true ->
     listdir mounts base_path <> ListError e) ->
  exists found, scan_mount_points mounts bases = Ok found.
Proof.
  induction bases as [|base_path rest IH]; intros Hok; cbn [scan_mount_points];
    [eauto|].
  assert (Hrest : exists found, scan_mount_points mounts rest = Ok found).
  { apply IH. intros b e Hin. apply Hok. right. exact Hin. }
  destruct (path_exists mounts base_path) eqn:Hex; [|exact Hrest].
  destruct (listdir mounts base_path) as [names| |e] eqn:Hls; [|exact Hrest|].
  - destruct (first_writable_dir mounts base_path names); [eauto|exact Hrest].
  - exfalso. apply (Hok base_path e); [left|exact Hex|exact Hls].
Qed.

(** X1. What [find_usb_drive] returns is either the local [recordings]
    directory next to the script or an entry of one of the four mount
    points that exists, is listed by [os.listdir] and is a writable
    directory. *)
Theorem find_usb_drive_returns_a_writable_directory mounts p :
  find_usb_drive mounts = Ok p ->
  p = local_path mounts
  \/ exists base_path names item,
       base_path ∈ possible_paths
       /\ path_exists mounts base_path = true
       /\ listdir mounts base_path = ListEntries names
       /\ item ∈ names
       /\ p = OsPath.join base_path item
       /\ isdir mounts p = true
       /\ access_W_OK mounts p = true.
Proof.
  unfold find_usb_drive.
  destruct (scan_mount_points mounts possible_paths) as [[q|]|e] eqn:Hscan;
    cbn; [| |discriminate].
  - intros E. injection E as <-. right.
    apply scan_sound in Hscan as (base_path & names & Hin & Hex & Hls & Hf).
    apply first_writable_dir_Some in Hf as (pre & item & post & -> & -> & Hw & _).
    apply andb_prop in Hw as [Hd Ha].
    exists base_path, (pre ++ item :: post), item.
    split_and!; try assumption; try reflexivity.
    apply elem_of_app. right. left.
  - intros E. injection E as <-. left. reflexivity.
Qed.

(** X2. The first match wins: when every mount point before [base_path] in
    the list yields nothing, and [item] is the first entry of [base_path]
    that is a writable directory, [find_usb_drive] returns that entry,
    whatever the later mount points hold. *)
Theorem find_usb_drive_takes_the_first_match
    mounts before base_path after pre item post :
  possible_paths = before ++ base_path :: after ->
  Forall (barren mounts) before ->
  path_exists mounts base_path = true ->
  listdir mounts base_path = ListEntries (pre ++ item :: post) ->
  Forall (fun item' =>
            writable_dir mounts (OsPath.join base_path item') = false) pre ->
  writable_dir mounts (OsPath.join base_path item) = true ->
  find_usb_drive mounts = Ok (OsPath.join base_path item).
Proof.
  intros Hpaths Hbefore Hex Hls Hpre Hw. unfold find_usb_drive.
  rewrite Hpaths. clear Hpaths.
  induction Hbefore as [|b before Hb _ IH]; cbn [app].
  - cbn [scan_mount_points]. rewrite Hex, Hls.
    rewrite first_writable_dir_first by assumption. reflexivity.
  - rewrite scan_barren by exact Hb. exact IH.
Qed.

(** X3. When listing the mount points fails at most with PermissionError,
    [find_usb_drive] returns a path; and when moreover no directory
    anywhere is writable, that path is the local [recordings] directory. *)
Theorem find_usb_drive_falls_back_to_the_local_directory mounts :
  listings_answer mounts ->
  (exists p, find_usb_drive mounts = Ok p)
  /\ ((forall p, writable_dir mounts p = false) ->
      find_usb_drive mounts = Ok (local_path mounts)).
Proof.
  intros Hok. destruct (scan_answers mounts possible_paths Hok) as [found Hscan].
  split.
  - unfold find_usb_drive. rewrite Hscan. destruct found; cbn; eauto.
  - intros Hnone. unfold find_usb_drive. rewrite Hscan.
    destruct found as [q|]; [|reflexivity].
    apply scan_sound in Hscan as (b & names & _ & _ & _ & Hf).
    apply first_writable_dir_Some in Hf as (_ & _ & _ & _ & _ & Hw & _).
    rewrite Hnone in Hw. discriminate.
Qed.

End FindUsbDrive.

(** ** Start-up *)

Section Startup.
Context {Frame : Type} `{FrameLike Frame}.
Implicit Types (s : State Frame).

Lemma initialize_camera_eq dev s :
  initialize_camera dev s =
  let s1 := upd_self (set_cap (Some (mkCapture (camera_index (self s))
                                                (dev_opens dev))))
              (add_out OutCameraInit s) in
  if dev_opens dev then
    let s2 := upd_self (set_frame_height (actual_height dev))
                (upd_self (set_frame_width (actual_width dev))
                   (add_out (OutCameraReady (actual_width dev)
                               (actual_height dev) (actual_fps dev)) s1)) in
    if 0 <? actual_fps dev then
      let s3 := upd_self (set_fps (actual_fps dev)) s2 in
      match Deque.new (actual_fps dev * buffer_seconds (self s)) with
      | Ok d => (upd_self (set_frame_buffer d) s3, Ok tt)
      | Raise e => (s3, Raise e)
      end
    else (s2, Ok tt)
  else (s1, Raise (PyException "camera cannot be opened")).
Proof.
  unfold initialize_camera, mbind, M_bind, attr, gets, assign, modify, emit,
    raise, lift, mret, M_ret.
  cbn. destruct (dev_opens dev); cbn; [|reflexivity].
  destruct (0 <? actual_fps dev); cbn; [|reflexivity].
  destruct (Deque.new (actual_fps dev * buffer_seconds (self s))); reflexivity.
Qed.

Lemma initialize_camera_opened dev s :
  dev_opens dev = true ->
  0 <= buffer_seconds (self s) ->
  actual_fps dev * buffer_seconds (self s) <= PY_SSIZE_T_MAX ->
  exists sc,
    initialize_camera dev s = (sc, Ok tt)
    /\ frame_width (self sc) = actual_width dev
    /\ frame_height (self sc) = actual_height dev
    /\ buffer_seconds (self sc) = buffer_seconds (self s)
    /\ recording_after_seconds (self sc) = recording_after_seconds (self s).
Proof.
  intros Hopen Hsec Hfit. rewrite initialize_camera_eq, Hopen. cbn zeta.
  destruct (Z.ltb_spec 0 (actual_fps dev)) as [Hpos|Hnot].
  - rewrite (proj1 (new_spec (actual_fps dev * buffer_seconds (self s))))
      by nia.
    eexists. split; [reflexivity|]. cbn. auto.
  - eexists. split; [reflexivity|]. cbn. auto.
Qed.

Lemma load_pretrained_eq hub s :
  _load_pretrained_model hub s =
  let s0 := add_out OutPretrainedDownloading s in
  match load_pretrained hub with
  | Ok m =>
      (add_out OutPretrainedLoaded (upd_self (set_model (Some m)) s0), Ok true)
  | Raise e =>
      if is_Exception e
      then (add_out (OutYoloInitError (exc_msg e)) s0, Ok false)
      else (s0, Raise e)
  end.
Proof.
  unfold _load_pretrained_model, try_, mbind, M_bind, attr, gets, assign,
    modify, emit, raise, lift, mret, M_ret.
  cbn. destruct (load_pretrained hub) as [m|e]; cbn; [reflexivity|].
  destruct (is_Exception e); reflexivity.
Qed.

Lemma initialize_yolo_eq hub s :
  initialize_yolo hub s =
  if YOLO_AVAILABLE hub then
    let s0 := add_out OutYoloInit s in
    if local_model_exists hub then
      match load_custom hub with
      | Ok m =>
          (add_out OutYoloReady
             (upd_self (set_model (Some tuned))
                (add_out (OutLocalModelLoaded (OsPath.join "models" "yolov5n.pt"))
                   (upd_self (set_model (Some m)) s0))),
           Ok true)
      | Raise e =>
          if is_Exception e
          then _load_pretrained_model hub
                 (add_out (OutLocalModelError (exc_msg e)) s0)
          else (s0, Raise e)
      end
    else _load_pretrained_model hub s0
  else (add_out OutYoloUnavailable s, Ok false).
Proof.
  unfold initialize_yolo.
  destruct (YOLO_AVAILABLE hub); cbn [negb]; [|reflexivity].
  unfold mbind at 1. unfold M_bind at 1. cbn [emit modify].
  destruct (local_model_exists hub); [|reflexivity].
  unfold try_, mbind, M_bind, attr, gets, assign, modify, emit, raise, lift,
    mret, M_ret.
  cbn. destruct (load_custom hub) as [m|e]; cbn; [reflexivity|].
  destruct (is_Exception e); cbn; [|reflexivity].
  destruct (_load_pretrained_model hub _) as [s1 [b|e']]; reflexivity.
Qed.

(** Loading a model touches the model and the log, nothing else. *)
Lemma initialize_yolo_frame hub s :
  let r := initialize_yolo hub s in
  (self (fst r) = self s \/ exists m, self (fst r) = set_model (Some m) (self s))
  /\ threads (fst r) = threads s
  /\ detector_calls (fst r) = detector_calls s
  /\ fs (fst r) = fs s.
Proof.
  intros r. subst r. rewrite initialize_yolo_eq.
  assert (Hpre : forall s0 : State Frame,
            (self (fst (_load_pretrained_model hub s0)) = self s0
             \/ exists m, self (fst (_load_pretrained_model hub s0))
                          = set_model (Some m) (self s0))
            /\ threads (fst (_load_pretrained_model hub s0)) = threads s0
            /\ detector_calls (fst (_load_pretrained_model hub s0))
               = detector_calls s0
            /\ fs (fst (_load_pretrained_model hub s0)) = fs s0).
  { intros s0. rewrite load_pretrained_eq. cbn zeta.
    destruct (load_pretrained hub) as [m|e]; [cbn; eauto 6|].
    destruct (is_Exception e); cbn; auto. }
  destruct (YOLO_AVAILABLE hub); [|cbn; auto]. cbn zeta.
  destruct (local_model_exists hub); [|exact (Hpre _)].
  destruct (load_custom hub) as [m|e]; [cbn; eauto 6|].
  destruct (is_Exception e); [|cbn; auto].
  exact (Hpre _).
Qed.

Lemma initialize_yolo_outcome hub s :
  loader_failures_are_exceptions hub ->
  let r := initialize_yolo hub s in
  exists b,
    snd r = Ok b
    /\ (b = false -> model (self (fst r)) = model (self s))
    /\ (b = true -> exists m, model (self (fst r)) = Some m)
    /\ (model (self s) = None -> (b = true <-> model (self (fst r)) <> None)).
Proof.
  intros [Hcustom Hpre] r. subst r.
  assert (Hgoal : forall (st : State Frame * res bool),
            (exists b, snd st = Ok b
               /\ (b = false -> model (self (fst st)) = model (self s))
               /\ (b = true -> exists m, model (self (fst st)) = Some m)) ->
            exists b, snd st = Ok b
              /\ (b = false -> model (self (fst st)) = model (self s))
              /\ (b = true -> exists m, model (self (fst st)) = Some m)
              /\ (model (self s) = None ->
                  (b = true <-> model (self (fst st)) <> None))).
  { intros st (b & Hb & Hf & Ht). exists b. split_and!; try assumption.
    intros Hnone. split.
    - intros E. destruct (Ht E) as [m ->]. discriminate.
    - intros Hm. destruct b; [reflexivity|]. rewrite Hf in Hm by reflexivity.
      contradiction. }
  apply Hgoal. rewrite initialize_yolo_eq.
  assert (Hload : forall s0 : State Frame,
            model (self s0) = model (self s) ->
            exists b, snd (_load_pretrained_model hub s0) = Ok b
              /\ (b = false ->
                  model (self (fst (_load_pretrained_model hub s0)))
                  = model (self s))
              /\ (b = true ->
                  exists m, model (self (fst (_load_pretrained_model hub s0)))
                            = Some m)).
  { intros s0 Hs0. rewrite load_pretrained_eq. cbn zeta.
    destruct (load_pretrained hub) as [m|e] eqn:Hl.
    - exists true. cbn. split_and!; [reflexivity|discriminate|eauto].
    - rewrite (Hpre e eq_refl). exists false. cbn.
      split_and!; [reflexivity|auto|discriminate]. }
  destruct (YOLO_AVAILABLE hub).
  2:{ exists false. cbn. split_and!; [reflexivity|reflexivity|discriminate]. }
  cbn zeta.
  destruct (local_model_exists hub);
    [|exact (Hload (add_out OutYoloInit s) eq_refl)].
  destruct (load_custom hub) as [m|e] eqn:Hc.
  - exists true. cbn. split_and!; [reflexivity|discriminate|eauto].
  - rewrite (Hcustom e eq_refl).
    exact (Hload (add_out (OutLocalModelError (exc_msg e))
                    (add_out OutYoloInit s)) eq_refl).
Qed.

(** X4. Whatever fails while loading (torch missing, a broken local file,
    no network), [initialize_yolo] returns normally as long as the failures
    are [Exception]s. It returns True exactly when it has installed a
    model: on False the model attribute is what it was, and an object that
    had no model has one afterwards if and only if the result is True. *)
Theorem initialize_yolo_reports_whether_a_model_is_loaded hub s :
  loader_failures_are_exceptions hub ->
  let r := initialize_yolo hub s in
  exists b,
    snd r = Ok b
    /\ (b = false -> model (self (fst r)) = model (self s))
    /\ (b = true -> exists m, model (self (fst r)) = Some m)
    /\ (model (self s) = None -> (b = true <-> model (self (fst r)) <> None)).
Proof. apply initialize_yolo_outcome. Qed.

(** X5. The thresholds 0.5 and 0.45 are set on a local model only. When the
    file [models/yolov5n.pt] exists and loads, the model in use carries
    them; when the file is missing, or fails to load, and the pretrained
    model loads, that model is used with the thresholds it came with. *)
Theorem thresholds_are_set_on_a_local_model_only hub s m :
  YOLO_AVAILABLE hub = true ->
  let r := initialize_yolo hub s in
  (local_model_exists hub = true -> load_custom hub = Ok m ->
   snd r = Ok true /\ model (self (fst r)) = Some tuned)
  /\ ((local_model_exists hub = false
       \/ exists e, load_custom hub = Raise e /\ is_Exception e = true) ->
      load_pretrained hub = Ok m ->
      snd r = Ok true /\ model (self (fst r)) = Some m).
Proof.
  intros Hav r. subst r. rewrite initialize_yolo_eq, Hav. cbn zeta. split.
  - intros Hex Hc. rewrite Hex, Hc. cbn. auto.
  - intros Hno Hp.
    assert (Hload : forall s0 : State Frame,
              snd (_load_pretrained_model hub s0) = Ok true
              /\ model (self (fst (_load_pretrained_model hub s0))) = Some m).
    { intros s0. rewrite load_pretrained_eq, Hp. cbn. auto. }
    destruct (local_model_exists hub) eqn:Hex; [|exact (Hload _)].
    destruct Hno as [Hno|(e & Hc & He)]; [discriminate|].
    rewrite Hc, He. exact (Hload _).
Qed.

(** X6. When the device opens, [initialize_camera] takes over the
    negotiated width and height. A rate of zero or less leaves [fps] and the
    buffer, with its contents, as they were. A positive negotiated frame
    rate replaces [fps]; the frame buffer is then replaced by an empty one
    for [fps * buffer_seconds] frames, so the capacity follows the rate and
    whatever was buffered is gone, unless that number does not fit a C
    [Py_ssize_t]: then the call raises (the OverflowError of [deque]) with
    [fps] already changed and the old buffer still in place. *)
Theorem initialize_camera_follows_the_negotiated_rate dev s :
  dev_opens dev = true ->
  0 <= buffer_seconds (self s) ->
  let r := initialize_camera dev s in
  let size := actual_fps dev * buffer_seconds (self s) in
  frame_width (self (fst r)) = actual_width dev
  /\ frame_height (self (fst r)) = actual_height dev
  /\ (actual_fps dev <= 0 ->
      snd r = Ok tt
      /\ fps (self (fst r)) = fps (self s)
      /\ frame_buffer (self (fst r)) = frame_buffer (self s))
  /\ (0 < actual_fps dev -> size <= PY_SSIZE_T_MAX ->
      snd r = Ok tt
      /\ fps (self (fst r)) = actual_fps dev
      /\ frame_buffer (self (fst r)) = mkDeque [] size)
  /\ (0 < actual_fps dev -> PY_SSIZE_T_MAX < size ->
      (exists e, snd r = Raise e /\ is_Exception e = true)
      /\ fps (self (fst r)) = actual_fps dev
      /\ frame_buffer (self (fst r)) = frame_buffer (self s))
  /\ (snd r = Ok tt ->
      Deque.maxlen (frame_buffer (self s))
      = fps (self s) * buffer_seconds (self s) ->
      Deque.maxlen (frame_buffer (self (fst r)))
      = fps (self (fst r)) * buffer_seconds (self (fst r))).
Proof.
  intros Hopen Hsec r size. subst r size.
  rewrite initialize_camera_eq, Hopen. cbn zeta.
  destruct (Z.ltb_spec 0 (actual_fps dev)) as [Hpos|Hnot].
  - destruct (new_spec (A := Frame) (actual_fps dev * buffer_seconds (self s)))
      as [Hfits Hover].
    destruct (Z_le_gt_dec (actual_fps dev * buffer_seconds (self s))
                PY_SSIZE_T_MAX) as [Hle|Hgt].
    + rewrite Hfits by nia. cbn.
      split_and!; try reflexivity; try (intros; lia);
        intros; try split_and!; reflexivity.
    + destruct Hover as [msg Hraise]; [lia|]. rewrite Hraise. cbn.
      split_and!; try reflexivity; try (intros; lia).
      * intros _ _. split_and!; [|reflexivity|reflexivity].
        eexists. split; reflexivity.
      * intros E. discriminate E.
  - cbn. split_and!; try reflexivity; try (intros; lia);
      intros; try split_and!; try reflexivity; assumption.
Qed.


(** *** [start] *)

Lemma cleanup_eq s : cleanup s = (upd_self quiet s, Ok tt).
Proof.
  unfold cleanup, destroyAllWindows, quiet, mbind, M_bind, attr, gets, assign,
    modify, mret, M_ret, upd_self. cbn.
  destruct (cap (self s)) eqn:E; cbn; rewrite ?E; reflexivity.
Qed.

(** [cleanup] clears [running], releases the capture and leaves the rest
    of the object alone. *)
Lemma quiet_fields (c : Camera Frame) :
  running (quiet c) = false
  /\ cap (quiet c) = release_capture <$> cap c
  /\ is_recording (quiet c) = is_recording c
  /\ recording_start_time (quiet c) = recording_start_time c
  /\ buffer_seconds (quiet c) = buffer_seconds c
  /\ recording_after_seconds (quiet c) = recording_after_seconds c
  /\ frame_buffer (quiet c) = frame_buffer c
  /\ fps (quiet c) = fps c
  /\ model (quiet c) = model c
  /\ last_detection_time (quiet c) = last_detection_time c.
Proof.
  unfold quiet. destruct (cap c) eqn:E; cbn; rewrite ?E; split_and!; reflexivity.
Qed.

Lemma start_eq dev hub mounts s :
  start dev hub mounts s =
  match start_body dev hub mounts (add_out OutBanner s) with
  | (s1, Ok o) => (s1, Ok o)
  | (s1, Raise e) =>
      if is_Exception e
      then (upd_self quiet (add_out (OutSystemError (exc_msg e)) s1),
            Ok (Exited 1))
      else (s1, Raise e)
  end.
Proof.
  unfold start. unfold mbind at 1. unfold M_bind at 1. cbn [emit modify].
  fold (@start_body Frame dev hub mounts). unfold try_.
  destruct (start_body dev hub mounts (add_out OutBanner s)) as [s1 [o|e]];
    [reflexivity|].
  destruct (is_Exception e); [|reflexivity].
  unfold mbind, M_bind, emit, modify, mret, M_ret.
  rewrite cleanup_eq. reflexivity.
Qed.

Lemma start_body_eq dev hub mounts s :
  start_body dev hub mounts s =
  match initialize_camera dev s with
  | (sc, Raise e) => (sc, Raise e)
  | (sc, Ok _) =>
      match initialize_yolo hub sc with
      | (sy, Raise e) => (sy, Raise e)
      | (sy, Ok b) =>
          let sy' := if b : bool then sy
                     else add_out OutAllFramesRecorded
                            (add_out OutContinueWithoutDetection sy) in
          match find_usb_drive mounts with
          | Raise e => (sy', Raise e)
          | Ok usb_path =>
              let c := set_running true (self sy') in
              (add_out (OutSystemStarted (buffer_seconds c)
                          (recording_after_seconds c) (fps c)
                          (frame_width c) (frame_height c))
                 (upd_self (set_running true)
                    (add_out (OutSaveDestination usb_path) sy')),
               Ok Started)
          end
      end
  end.
Proof.
  unfold start_body. unfold mbind at 1. unfold M_bind at 1.
  destruct (initialize_camera dev s) as [sc [[]|e]]; [|reflexivity].
  unfold mbind at 1. unfold M_bind at 1.
  destruct (initialize_yolo hub sc) as [sy [b|e]]; [|reflexivity].
  unfold mbind, M_bind, lift, gets, assign, modify, emit, mret, M_ret.
  destruct b; cbn; destruct (find_usb_drive mounts); reflexivity.
Qed.

Lemma initialize_camera_frame dev s :
  let r := initialize_camera dev s in
  untouched_by_start s (fst r)
  /\ model (self (fst r)) = model (self s)
  /\ running (self (fst r)) = running (self s)
  /\ (0 < fps (self s) -> 0 < fps (self (fst r)))
  /\ (forall e, snd r = Raise e -> is_Exception e = true).
Proof.
  intros r. subst r. rewrite initialize_camera_eq. cbn zeta.
  unfold untouched_by_start.
  destruct (dev_opens dev); [|cbn; split_and!; try reflexivity; try tauto;
                              intros e E; injection E as <-; reflexivity].
  destruct (Z.ltb_spec 0 (actual_fps dev)) as [Hpos|Hnot].
  - unfold Deque.new.
    destruct (_ || _); [|destruct (_ <? 0)]; cbn;
      (split_and!; try reflexivity; try (intros; assumption);
       try (intros e E; injection E as <-; reflexivity);
       intros e E; discriminate E).
  - cbn. split_and!; try reflexivity; try tauto. intros e E. discriminate E.
Qed.

Lemma initialize_yolo_untouched hub s :
  let r := initialize_yolo hub s in
  untouched_by_start s (fst r)
  /\ running (self (fst r)) = running (self s)
  /\ fps (self (fst r)) = fps (self s).
Proof.
  intros r. subst r.
  destruct (initialize_yolo_frame hub s) as (Hself & Hth & Hcalls & Hfs).
  cbn zeta in Hself, Hth, Hcalls, Hfs. unfold untouched_by_start.
  rewrite Hth, Hcalls, Hfs.
  destruct Hself as [->|[m ->]]; cbn; split_and!; reflexivity.
Qed.

Lemma scan_raises mounts bases e :
  scan_mount_points mounts bases = Raise e ->
  exists base_path,
    base_path ∈ bases
    /\ path_exists mounts base_path = true
    /\ listdir mounts base_path = ListError e.
Proof.
  induction bases as [|base_path rest IH]; cbn [scan_mount_points];
    [discriminate|].
  assert (Hrest : scan_mount_points mounts rest = Raise e ->
            exists b, b ∈ base_path :: rest
                      /\ path_exists mounts b = true
                      /\ listdir mounts b = ListError e).
  { intros E. destruct (IH E) as (b & Hin & Hb). exists b.
    split; [right; exact Hin|exact Hb]. }
  destruct (path_exists mounts base_path) eqn:Hex; [|exact Hrest].
  destruct (listdir mounts base_path) as [names| |e'] eqn:Hls; [|exact Hrest|].
  - destruct (first_writable_dir mounts base_path names);
      [discriminate|exact Hrest].
  - intros E. injection E as ->. exists base_path.
    split_and!; [left|exact Hex|exact Hls].
Qed.

Lemma find_usb_drive_raises mounts e :
  find_usb_drive mounts = Raise e ->
  exists base_path,
    base_path ∈ possible_paths
    /\ path_exists mounts base_path = true
    /\ listdir mounts base_path = ListError e.
Proof.
  unfold find_usb_drive.
  destruct (scan_mount_points mounts possible_paths) as [[q|]|e'] eqn:Hscan;
    cbn; try discriminate.
  intros E. injection E as ->. apply scan_raises. exact Hscan.
Qed.

Lemma untouched_trans s1 s2 s3 :
  untouched_by_start s1 s2 -> untouched_by_start s2 s3 ->
  untouched_by_start s1 s3.
Proof.
  unfold untouched_by_start.
  intros (A1 & A2 & A3 & A4 & A5 & A6 & A7) (B1 & B2 & B3 & B4 & B5 & B6 & B7).
  split_and!; congruence.
Qed.

(** What the body of the [try] does, step by step. *)
Lemma start_body_spec dev hub mounts s :
  let r := start_body dev hub mounts s in
  untouched_by_start s (fst r)
  /\ (0 < fps (self s) -> 0 < fps (self (fst r)))
  /\ match snd r with
     | Ok o =>
         o = Started
         /\ running (self (fst r)) = true
         /\ dev_opens dev = true
         /\ exists usb_path,
              find_usb_drive mounts = Ok usb_path
              /\ exists pre,
                   out (fst r)
                   = pre ++ [OutSaveDestination usb_path;
                             OutSystemStarted
                               (buffer_seconds (self (fst r)))
                               (recording_after_seconds (self (fst r)))
                               (fps (self (fst r)))
                               (frame_width (self (fst r)))
                               (frame_height (self (fst r)))]
     | Raise e =>
         running (self (fst r)) = running (self s)
         /\ (loader_failures_are_exceptions hub ->
             listing_failures_are_exceptions mounts ->
             is_Exception e = true)
     end.
Proof.
  intros r. subst r. rewrite start_body_eq.
  destruct (initialize_camera_frame dev s) as (Cun & _ & Crun & Cfps & Cexc).
  pose proof (initialize_camera_eq dev s) as Ceq.
  destruct (initialize_camera dev s) as [sc [[]|e]]; cbn [fst snd] in *.
  2:{ split; [exact Cun|]. split; [exact Cfps|]. split; [exact Crun|].
      intros _ _. apply Cexc. reflexivity. }
  assert (Hopen : dev_opens dev = true).
  { destruct (dev_opens dev); [reflexivity|]. cbn in Ceq. discriminate Ceq. }
  clear Ceq Cexc.
  destruct (initialize_yolo_untouched hub sc) as (Yun & Yrun & Yfps).
  pose proof (initialize_yolo_outcome hub sc) as Ysoft.
  destruct (initialize_yolo hub sc) as [sy [b|e]]; cbn [fst snd] in *.
  2:{ split; [eapply untouched_trans; eassumption|].
      split; [rewrite Yfps; exact Cfps|].
      split; [congruence|]. intros Hsoft _.
      destruct (Ysoft Hsoft) as (b & Hb & _). discriminate Hb. }
  clear Ysoft. cbn zeta.
  set (sy' := if b then sy
              else add_out OutAllFramesRecorded
                     (add_out OutContinueWithoutDetection sy)).
  assert (Hsy' : untouched_by_start sy sy'
                 /\ running (self sy') = running (self sy)
                 /\ fps (self sy') = fps (self sy)).
  { subst sy'. unfold untouched_by_start.
    destruct b; cbn; split_and!; reflexivity. }
  destruct Hsy' as (Sun & Srun & Sfps).
  assert (Hun : untouched_by_start s sy').
  { eapply untouched_trans; [|exact Sun].
    eapply untouched_trans; eassumption. }
  destruct (find_usb_drive mounts) as [usb_path|e] eqn:Husb; cbn [fst snd].
  - split_and!.
    + destruct Hun as (A1 & A2 & A3 & A4 & A5 & A6 & A7).
      unfold untouched_by_start. cbn. auto 10.
    + cbn. rewrite Sfps, Yfps. exact Cfps.
    + reflexivity.
    + reflexivity.
    + exact Hopen.
    + exists usb_path. split; [reflexivity|]. exists (out sy'). cbn.
      rewrite <- app_assoc. reflexivity.
  - split; [exact Hun|]. split; [rewrite Sfps, Yfps; exact Cfps|].
    split; [congruence|]. intros _ Hls.
    apply find_usb_drive_raises in Husb as (base_path & Hin & Hex & Herr).
    exact (Hls base_path e Hin Hex Herr).
Qed.


(** X7. [start] never lets an [Exception] out. When loading and listing
    fail, if at all, with [Exception]s, it either reports the system started
    with [running] set, or prints a system error as its last line, clears
    [running] and returns exit code 1. Either way it leaves the recording
    flag, the started threads, the detector log and the files alone. *)
Theorem start_returns_started_or_exit_code_1 dev hub mounts s :
  loader_failures_are_exceptions hub ->
  listing_failures_are_exceptions mounts ->
  let r := start dev hub mounts s in
  untouched_by_start s (fst r)
  /\ ((snd r = Ok Started /\ running (self (fst r)) = true)
      \/ (snd r = Ok (Exited 1)
          /\ running (self (fst r)) = false
          /\ exists msg, last (out (fst r)) = Some (OutSystemError msg))).
Proof.
  intros Hload Hlist r. subst r. rewrite start_eq.
  destruct (start_body_spec dev hub mounts (add_out OutBanner s))
    as (Hun & _ & Hres).
  cbn zeta in Hun, Hres.
  destruct (start_body dev hub mounts (add_out OutBanner s)) as [s1 [o|e]];
    cbn [fst snd] in *.
  - destruct Hres as (-> & Hrun & _). split; [exact Hun|]. left. auto.
  - destruct Hres as (_ & Hexc). rewrite (Hexc Hload Hlist). cbn [fst snd].
    destruct (quiet_fields (self s1)) as (Q1 & _ & Q3 & Q4 & Q5 & Q6 & _).
    split.
    + destruct Hun as (A1 & A2 & A3 & A4 & A5 & A6 & A7).
      unfold untouched_by_start. cbn. rewrite Q3, Q4, Q5, Q6. auto 10.
    + right. split_and!; [reflexivity|exact Q1|].
      exists (exc_msg e). cbn. apply last_snoc.
Qed.

(** X8. With a camera that opens, a buffer size [fps * buffer_seconds]
    (at the negotiated rate) that a [deque] accepts and a destination that
    resolves, [start] succeeds whatever happens to the detector: torch
    missing, a broken model file or a failed download do not stop it. It
    sets [running], and its last line reports the settings in force. *)
Theorem start_succeeds_whatever_the_detector dev hub mounts s usb_path :
  dev_opens dev = true ->
  0 <= buffer_seconds (self s) ->
  actual_fps dev * buffer_seconds (self s) <= PY_SSIZE_T_MAX ->
  loader_failures_are_exceptions hub ->
  find_usb_drive mounts = Ok usb_path ->
  let r := start dev hub mounts s in
  snd r = Ok Started
  /\ running (self (fst r)) = true
  /\ last (out (fst r))
     = Some (OutSystemStarted (buffer_seconds (self s))
               (recording_after_seconds (self s))
               (fps (self (fst r))) (actual_width dev) (actual_height dev)).
Proof.
  intros Hopen Hsec Hfit Hload Husb r. subst r.
  rewrite start_eq, start_body_eq.
  destruct (initialize_camera_opened dev (add_out OutBanner s) Hopen Hsec Hfit)
    as (sc & Hcam & Hw & Hh & Hbs & Hafter).
  rewrite Hcam. cbn in Hbs, Hafter.
  destruct (initialize_yolo_outcome hub sc Hload) as (b & Hb & _).
  destruct (initialize_yolo_frame hub sc) as (Hself & _).
  cbn zeta in Hb, Hself.
  destruct (initialize_yolo hub sc) as [sy r]. cbn [fst snd] in *. subst r.
  rewrite Husb. cbn [fst snd].
  split_and!; [reflexivity|reflexivity|].
  cbn [out add_out]. rewrite last_snoc. f_equal.
  assert (Hfields : frame_width (self sy) = actual_width dev
                    /\ frame_height (self sy) = actual_height dev
                    /\ buffer_seconds (self sy) = buffer_seconds (self s)
                    /\ recording_after_seconds (self sy)
                       = recording_after_seconds (self s)).
  { destruct Hself as [->|[m ->]]; cbn; auto. }
  destruct Hfields as (Fw & Fh & Fb & Fa).
  destruct b; cbn; rewrite Fw, Fh, Fb, Fa; reflexivity.
Qed.

(** X9. When the camera cannot be opened, [start] stops at once: after the
    banner and the camera line it prints the error, clears [running] and
    returns exit code 1. No model is loaded, no destination is looked up,
    and frame rate and buffer stay as the constructor left them. *)
Theorem start_gives_up_when_the_camera_does_not_open dev hub mounts s :
  dev_opens dev = false ->
  let r := start dev hub mounts s in
  snd r = Ok (Exited 1)
  /\ out (fst r)
     = out s ++ [OutBanner; OutCameraInit;
                 OutSystemError "camera cannot be opened"]
  /\ running (self (fst r)) = false
  /\ model (self (fst r)) = model (self s)
  /\ fps (self (fst r)) = fps (self s)
  /\ frame_buffer (self (fst r)) = frame_buffer (self s).
Proof.
  intros Hopen r. subst r.
  rewrite start_eq, start_body_eq, initialize_camera_eq, Hopen. cbn.
  rewrite <- !app_assoc. split_and!; reflexivity.
Qed.

(** X10. After a [start] that reports the system started, on an object
    with a positive frame rate that is not recording, the monitoring loop
    runs every pass to its end as long as the detector fails, if at all,
    with [Exception]s: the monitoring thread does not die. *)
Theorem monitoring_thread_survives_after_start dev hub mounts s ticks :
  0 < fps (self s) ->
  is_recording (self s) = false ->
  snd (start dev hub mounts s) = Ok Started ->
  failures_are_exceptions ticks ->
  exists l, snd (monitoring_loop ticks (fst (start dev hub mounts s))) = Ok l.
Proof.
  intros Hfps Hoff Hstart Hticks.
  assert (Hcons : consistent (self (fst (start dev hub mounts s)))).
  { rewrite start_eq in Hstart |- *.
    destruct (start_body_spec dev hub mounts (add_out OutBanner s))
      as (Hun & Hpos & _).
    cbn zeta in Hun, Hpos.
    destruct (start_body dev hub mounts (add_out OutBanner s)) as [s1 [o|e]];
      cbn [fst snd] in *.
    - destruct Hun as (Hrec & _). split; [exact (Hpos Hfps)|].
      rewrite Hrec. cbn. rewrite Hoff. discriminate.
    - destruct (is_Exception e); discriminate Hstart. }
  change (monitoring_loop ticks (fst (start dev hub mounts s)))
    with (iterations ticks (mkLoop 0 0)
            (add_out OutMonitoringStarted (fst (start dev hub mounts s)))).
  apply iterations_ok; [exact Hcons|exact Hticks].
Qed.

End Startup.

(** ** Invariants of the monitoring loop *)

Section LoopInvariants.
Context {Frame : Type} `{FrameLike Frame}.
Implicit Types (s : State Frame) (i : Tick Frame) (l : Loop).






(** *** [cleanup] while a pass is under way *)

Lemma ignores_cleanup_emit o : ignores_cleanup (Frame := Frame) (emit o).
Proof. intros s. open_state s; reflexivity. Qed.







(** *** Sample times *)

Lemma iteration_sample_times i l s l1 :
  snd (iteration i l s) = Ok l1 ->
  (last_detection_time (self s) <= loop_last_detection_time l)%Q ->
  (last_detection_time (self (fst (iteration i l s)))
   <= loop_last_detection_time l1)%Q
  /\ (loop_last_detection_time l <= loop_last_detection_time l1)%Q.
Proof.
  intros Hok Hle. destruct (ret i) eqn:Hret.
  2:{ rewrite iteration_read_failed in Hok |- * by exact Hret.
      cbn in *. injection Hok as <-. split; [exact Hle|lra]. }
  destruct (elapsed (t_now i) (loop_last_detection_time l) detection_interval)
    eqn:Hel.
  2:{ destruct (iteration_skipped i l s Hret Hel) as (Hc & Hl & _).
      apply core_inv in Hc as (_ & _ & -> & _). cbn.
      rewrite (Hl l1 Hok). split; [exact Hle|lra]. }
  pose proof Hel as Hel'. apply elapsed_later in Hel'; [|reflexivity].
  destruct (reported (model (self s)) (detector i)) as [b|] eqn:Hrep.
  - destruct (iteration_heard i l s b Hret Hel Hrep) as (Hc & Hl & _).
    apply core_inv in Hc as (_ & _ & -> & _). rewrite (Hl l1 Hok).
    destruct b.
    + destruct (seen_person_spec (t_now i) i
                  (heard (frame i) (detector i) (pushed (frame i) s)))
        as (_ & -> & _). split; lra.
    + destruct (seen_nobody_spec (t_now i) i
                  (heard (frame i) (detector i) (pushed (frame i) s)))
        as (_ & -> & _). rewrite heard_self. cbn. split; lra.
  - destruct (iteration_crashed i l s Hret Hel Hrep) as (e & He).
    rewrite He in Hok. discriminate Hok.
Qed.

(** X12. The time of the last detection kept in the object never runs
    ahead of the loop's own time of the last sample, and that time never
    goes back: both hold after every run of passes that ends normally, if
    the first holds before. *)
Theorem last_detection_never_ahead_of_the_last_sample
    (ticks : list (Tick Frame)) : forall l s l',
  (last_detection_time (self s) <= loop_last_detection_time l)%Q ->
  snd (iterations ticks l s) = Ok l' ->
  (last_detection_time (self (fst (iterations ticks l s)))
   <= loop_last_detection_time l')%Q
  /\ (loop_last_detection_time l <= loop_last_detection_time l')%Q.
Proof.
  induction ticks as [|i rest IH]; intros l s l' Hle Hok.
  - cbn in *. injection Hok as <-. split; [exact Hle|lra].
  - rewrite iterations_cons in Hok |- *.
    destruct (running (self s)).
    2:{ cbn in *. injection Hok as <-. split; [exact Hle|lra]. }
    pose proof (iteration_sample_times i l s) as Hstep.
    destruct (iteration i l s) as [s1 [l1|e]]; cbn [fst snd] in *;
      [|discriminate Hok].
    destruct (Hstep l1 eq_refl Hle) as (Hle1 & Hmono).
    destruct (IH l1 s1 l' Hle1 Hok) as (Hfin & Hmono').
    split; [exact Hfin|lra].
Qed.

(** *** Sessions and their threads *)

Lemma tally_same_view s s' :
  session_view s' = session_view s -> sessions_tally s -> sessions_tally s'.
Proof.
  unfold session_view, sessions_tally, started_count, stopped_count.
  intros E. injection E as Hr _ _ _ Hth Hev. rewrite Hr, Hth, Hev. trivial.
Qed.

Lemma iteration_tally i l s :
  sessions_tally s -> sessions_tally (fst (iteration i l s)).
Proof.
  intros Ht. destruct (ret i) eqn:Hret.
  2:{ rewrite iteration_read_failed by exact Hret.
      apply (tally_same_view s); [|exact Ht].
      apply session_view_core, core_add_out. reflexivity. }
  destruct (elapsed (t_now i) (loop_last_detection_time l) detection_interval)
    eqn:Hel.
  2:{ destruct (iteration_skipped i l s Hret Hel) as (Hc & _).
      apply (tally_same_view s); [|exact Ht].
      rewrite (session_view_core _ _ Hc). reflexivity. }
  destruct (reported (model (self s)) (detector i)) as [b|] eqn:Hrep.
  2:{ destruct (iteration_crashed i l s Hret Hel Hrep) as (e & ->). cbn.
      apply (tally_same_view s); [|exact Ht].
      exact (session_view_heard (frame i) (detector i) (pushed (frame i) s)). }
  destruct (iteration_heard i l s b Hret Hel Hrep) as (Hc & _).
  eapply tally_same_view; [exact (session_view_core _ _ Hc)|].
  destruct Ht as [Hth Hcount].
  unfold sessions_tally, started_count, stopped_count in *.
  assert (E1 : forall h, filter (fun o => is_start_line o = true)
                           [OutRecordingStarted h] = [OutRecordingStarted h])
    by reflexivity.
  assert (E2 : forall h, filter (fun o => is_stop_line o = true)
                           [OutRecordingStarted h] = []) by reflexivity.
  assert (E3 : filter (fun o => is_start_line o = true) [OutRecordingStopped]
               = []) by reflexivity.
  assert (E4 : filter (fun o => is_stop_line o = true) [OutRecordingStopped]
               = [OutRecordingStopped]) by reflexivity.
  destruct b.
  - destruct (seen_person_spec (t_now i) i
                (heard (frame i) (detector i) (pushed (frame i) s)))
      as (-> & _ & _ & -> & _ & _ & _ & -> & _).
    rewrite heard_session_events, heard_threads, heard_self.
    change (session_events (pushed (frame i) s)) with (session_events s).
    change (threads (pushed (frame i) s)) with (threads s).
    change (is_recording (self (pushed (frame i) s)))
      with (is_recording (self s)).
    destruct (is_recording (self s)).
    + rewrite app_nil_r. split; [exact Hth|exact Hcount].
    + rewrite !filter_app, !length_app, E1, E2. cbn [length].
      split; lia.
  - destruct (seen_nobody_spec (t_now i) i
                (heard (frame i) (detector i) (pushed (frame i) s)))
      as (-> & _ & _ & -> & -> & _).
    rewrite heard_session_events, heard_threads, !heard_self.
    change (session_events (pushed (frame i) s)) with (session_events s).
    change (threads (pushed (frame i) s)) with (threads s).
    change (is_recording (self (pushed (frame i) s)))
      with (is_recording (self s)).
    change (last_detection_time (self (pushed (frame i) s)))
      with (last_detection_time (self s)).
    change (recording_after_seconds (self (pushed (frame i) s)))
      with (recording_after_seconds (self s)).
    destruct (is_recording (self s)); cbn [andb negb].
    + destruct (elapsed (t_now i) (last_detection_time (self s))
                  (recording_after_seconds (self s))); cbn [andb negb].
      * rewrite !filter_app, !length_app, E3, E4. cbn [length]. split; lia.
      * rewrite !app_nil_r. split; [exact Hth|exact Hcount].
    + rewrite !app_nil_r. split; [exact Hth|exact Hcount].
Qed.

(** X13. Sessions do not overlap and every finished session has exactly one
    thread. If the log shows as many stop lines as there are threads, and
    one more start line than stop lines exactly while recording, then the
    same is true after any run of passes. *)
Theorem sessions_alternate_and_each_gets_one_thread
    (ticks : list (Tick Frame)) : forall l s,
  sessions_tally s -> sessions_tally (fst (iterations ticks l s)).
Proof.
  induction ticks as [|i rest IH]; intros l s Ht; [exact Ht|].
  rewrite iterations_cons. destruct (running (self s)); [|exact Ht].
  pose proof (iteration_tally i l s Ht) as Hstep.
  destruct (iteration i l s) as [s1 [l1|e]]; cbn [fst snd] in *;
    [apply IH; exact Hstep|exact Hstep].
Qed.

End LoopInvariants.

(** ** Saving, detecting, constructing *)

Section SaveMore.
Context {Frame : Type} `{FrameLike Frame}.
Implicit Types (s : State Frame) (sink : Sink Frame).

(** Where no write is lost, what is kept is what was offered. *)
Lemma kept_all sink (frames : list Frame) : forall idx,
  (forall k, write_lost sink k = false) -> kept sink idx frames = frames.
Proof.
  induction frames as [|f rest IH]; intros idx Hno; [reflexivity|].
  cbn [kept]. rewrite Hno, IH by exact Hno. reflexivity.
Qed.

(** X14. On a healthy medium [save_video] returns True and the file at the
    destination, [security_recordings/<filename>] under the directory that
    [find_usb_drive] returns, holds exactly the frames it was given, in
    their order, whatever was at that path before; the directory exists
    afterwards, every other file is as it was, and what is printed is the
    report of the save: the line with the file name and size, then the line
    with the directory. *)
Theorem save_video_stores_the_frames_in_order
    mounts sink (frames : list Frame) filename s usb_path :
  frames <> [] ->
  find_usb_drive mounts = Ok usb_path ->
  healthy sink ->
  let r := save_video mounts sink frames filename s in
  let video_path :=
    OsPath.join (OsPath.join usb_path "security_recordings") filename in
  snd r = Ok true
  /\ files (fs (fst r)) !! video_path = Some frames
  /\ OsPath.join usb_path "security_recordings" ∈ dirs (fs (fst r))
  /\ (forall q, q <> video_path ->
        files (fs (fst r)) !! q = files (fs s) !! q)
  /\ out (fst r)
     = out s ++ [OutSaved filename (encoded_size sink frames);
                 OutSavedTo (OsPath.join usb_path "security_recordings")]
  /\ threads (fst r) = threads s.
Proof.
  intros Hne Husb (Hmk & Hop & Hwr).
  destruct frames as [|first rest]; [contradiction|].
  intros r video_path. subst r.
  rewrite (save_video_eq mounts sink first rest filename s usb_path Husb).
  cbn zeta. rewrite Hmk, Hop.
  change (video_path_of usb_path filename) with video_path.
  change (save_dir_of usb_path)
    with (OsPath.join usb_path "security_recordings").
  clear Husb Hne.
  unfold try_. rewrite write_and_report_eq.
  match goal with
  | |- context [write_all sink video_path 0 (first :: rest) ?s3] =>
      destruct (write_all_spec sink video_path (first :: rest) 0%nat s3)
        as (Hself & Hout & Hth & Hd & Hq & _);
      destruct (write_all_ok sink video_path (first :: rest) 0%nat s3)
        as (Hr & Hp & _);
      [intros j _; apply Hwr|];
      destruct (write_all sink video_path 0 (first :: rest) s3) as [s4 r4]
  end.
  cbn [fst snd] in *. subst r4.
  rewrite kept_all in Hp by (intros k; apply Hwr).
  cbn in Hp, Hd, Hout, Hth, Hq. rewrite lookup_insert_eq in Hp. cbn in Hp.
  rewrite Hp. cbn.
  split_and!.
  - reflexivity.
  - exact Hp.
  - rewrite Hd. apply elem_of_union. right. apply elem_of_singleton. reflexivity.
  - intros q Hneq. rewrite (Hq q Hneq). apply lookup_insert_ne. congruence.
  - rewrite Hout, <- app_assoc. reflexivity.
  - exact Hth.
Qed.

(** X15. When the directory cannot be made, or the writer does not open,
    [save_video] returns False without writing a single frame: the files
    are exactly as before. In the first case it does not even try to open
    the writer. *)
Theorem save_video_writes_nothing_without_directory_or_writer
    mounts sink (frames : list Frame) filename s usb_path :
  frames <> [] ->
  find_usb_drive mounts = Ok usb_path ->
  (exists e, makedirs_error sink = Some e /\ is_Exception e = true)
  \/ (makedirs_error sink = None /\ writer_opens sink = false) ->
  let r := save_video mounts sink frames filename s in
  snd r = Ok false
  /\ files (fs (fst r)) = files (fs s)
  /\ write_indices (journal (fs (fst r))) = write_indices (journal (fs s))
  /\ (makedirs_error sink <> None ->
      dirs (fs (fst r)) = dirs (fs s)
      /\ filter (fun o => is_open_writer o = true) (journal (fs (fst r)))
         = filter (fun o => is_open_writer o = true) (journal (fs s))).
Proof.
  intros Hne Husb Hfail.
  destruct frames as [|first rest]; [contradiction|].
  intros r. subst r.
  rewrite (save_video_eq mounts sink first rest filename s usb_path Husb).
  cbn zeta. clear Husb Hne.
  destruct Hfail as [(e & -> & ->)|(-> & ->)]; cbn.
  - rewrite write_indices_app, filter_app. cbn. rewrite !app_nil_r.
    split_and!; try reflexivity. intros _. split; reflexivity.
  - rewrite <- app_assoc, write_indices_app. cbn. rewrite app_nil_r.
    split_and!; try reflexivity. intros Hcontra. contradiction.
Qed.

(** *** No buffer *)

Lemma thread_run_empty_job mounts sink k s :
  Forall (fun t => job_frames (th_job t) = []) (threads s) ->
  fs (fst (thread_run mounts sink k s)) = fs s.
Proof.
  intros Hall. unfold thread_run.
  destruct (threads s !! k) as [t|] eqn:Hk; [|reflexivity].
  destruct (th_done t); [reflexivity|].
  rewrite Forall_lookup in Hall. rewrite (Hall k t Hk). reflexivity.
Qed.

(** X16. With a buffer of capacity zero (which is what [buffer_seconds = 0]
    gives) the buffer never holds a frame, so every artifact handed to a
    thread is empty, and running such a thread leaves the file system as it
    is: sessions are detected and closed, and nothing is ever stored. *)
Theorem without_a_buffer_nothing_is_stored
    (ticks : list (Tick Frame)) l s mounts sink k :
  Deque.maxlen (frame_buffer (self s)) = 0 ->
  Deque.to_list (frame_buffer (self s)) = [] ->
  threads s = [] ->
  let s' := fst (iterations ticks l s) in
  Forall (fun t => job_frames (th_job t) = []) (threads s')
  /\ fs (fst (thread_run mounts sink k s')) = fs s'.
Proof.
  intros Hcap Hempty Hth s'.
  assert (Hall : Forall (fun t => job_frames (th_job t) = []) (threads s')).
  { subst s'.
    pose proof (artifacts_fit_the_buffer ticks l s 0 Hcap) as Hfit.
    eapply Forall_impl.
    - apply Hfit; [lia| |rewrite Hth; constructor].
      unfold Deque.len. unfold Deque.to_list in Hempty. rewrite Hempty.
      cbn. lia.
    - intros t Ht. cbn beta in Ht.
      destruct (job_frames (th_job t)); [reflexivity|cbn in Ht; lia]. }
  split; [exact Hall|]. apply thread_run_empty_job. exact Hall.
Qed.

(** *** The verdict of the detector *)

Lemma has_person_iff (classes : list Z) :
  has_person classes = true <-> 0 ∈ classes.
Proof.
  unfold has_person. cbn zeta.
  destruct (filter (fun c : Z => c = 0) classes) as [|c rest] eqn:Hf; cbn.
  - split; [discriminate|]. intros Hin.
    assert (Hc : 0 ∈ filter (fun c : Z => c = 0) classes)
      by (apply list_elem_of_filter; auto).
    rewrite Hf in Hc. inversion Hc.
  - split; [|reflexivity]. intros _.
    assert (Hc : c ∈ filter (fun c : Z => c = 0) classes)
      by (rewrite Hf; left).
    apply list_elem_of_filter in Hc as [-> Hin]. exact Hin.
Qed.

(** X17. With a model loaded and a detector that answers,
    [detect_person] returns True exactly when some detection has class 0,
    the person class, however many other detections there are; it calls
    the detector once and prints nothing. *)
Theorem detect_person_looks_for_class_zero (f : Frame) classes s m :
  model (self s) = Some m ->
  let r := detect_person f (DetResults classes) s in
  (snd r = Ok true <-> 0 ∈ classes)
  /\ (snd r = Ok false <-> 0 ∉ classes)
  /\ fst r = add_call f s.
Proof.
  intros Hm r. subst r. rewrite detect_person_eq, Hm. cbn [fst snd].
  pose proof (has_person_iff classes) as Hiff.
  destruct (has_person classes).
  - split_and!; [| |reflexivity].
    + split; [intros _; apply Hiff; reflexivity|reflexivity].
    + split; [intros E; discriminate E|].
      intros Hn. exfalso. apply Hn, Hiff. reflexivity.
  - split_and!; [| |reflexivity].
    + split; [intros E; discriminate E|].
      intros Hin. apply Hiff in Hin. discriminate Hin.
    + split; [|reflexivity]. intros _ Hin. apply Hiff in Hin.
      discriminate Hin.
Qed.

(** *** The constructor *)

(** X18. The constructor hands [30 * buffer_seconds] to [deque] as its
    bound and raises what [deque] raises: for a negative [buffer_seconds]
    (the ValueError, or the OverflowError far below zero) and for one whose
    thirtyfold does not fit a C [Py_ssize_t] (the OverflowError). For every value in between it returns
    an object that is idle and not running, has no model, runs at 30 frames
    per second with an empty buffer for [30 * buffer_seconds] frames, and is
    in a state the monitoring loop can start from. *)
Theorem constructor_rejects_what_deque_rejects
    (camera_index buffer_seconds : Z) (after : Q) (usb : string) :
  (buffer_seconds < 0 \/ PY_SSIZE_T_MAX < 30 * buffer_seconds ->
   exists e, __init__ (Frame := Frame) camera_index buffer_seconds after usb
             = Raise e
             /\ is_Exception e = true)
  /\ (0 <= buffer_seconds -> 30 * buffer_seconds <= PY_SSIZE_T_MAX ->
      exists c : Camera Frame,
        __init__ camera_index buffer_seconds after usb = Ok c
        /\ consistent c
        /\ is_recording c = false
        /\ running c = false
        /\ model c = None
        /\ fps c = 30
        /\ frame_buffer c = mkDeque [] (30 * buffer_seconds)).
Proof.
  unfold __init__.
  destruct (new_spec (A := Frame) (30 * buffer_seconds)) as [Hfits Hover].
  split.
  - intros Hbad. destruct Hover as [msg ->]; [lia|]. cbn.
    eexists. split; reflexivity.
  - intros Hpos Hle. rewrite Hfits by lia. cbn.
    eexists. split; [reflexivity|].
    split_and!; try reflexivity. split; [reflexivity|discriminate].
Qed.

End SaveMore.

(** ** Status lines, guards, and the length of sessions and artifacts *)

Section More.
Context {Frame : Type} `{FrameLike Frame}.
Implicit Types (s : State Frame) (i : Tick Frame) (l : Loop).

#[local] Arguments elapsed : simpl never.

(** X19. The status block prints at most one line per pass, and only when a
    second has gone by since the last status line. In a consistent state it
    never raises: when due, it prints the recording line, with the time
    since the session started, exactly while recording and the monitoring
    line otherwise, with the frame count it was given, notes the time and
    restarts the count at zero; when not due, it changes nothing and passes
    the count on. A recording flag without a start time makes it raise. *)
Theorem status_block_reports_once_a_second i now count s :
  (consistent (self s) ->
   let r := status_phase i now count s in
   (elapsed now (last_status_time (self s)) 1 = false -> r = (s, Ok count))
   /\ (elapsed now (last_status_time (self s)) 1 = true ->
       snd r = Ok 0
       /\ last_status_time (self (fst r)) = now
       /\ exists line,
            out (fst r) = out s ++ [line]
            /\ (is_recording (self s) = true ->
                exists t0, recording_start_time (self s) = Some t0
                           /\ line = OutStatusRecording (hms_status i)
                                       (Binary64.sub (t_status i) t0)
                                       count)
            /\ (is_recording (self s) = false ->
                line = OutStatusMonitoring (hms_status i) count)))
  /\ (is_recording (self s) = true ->
      recording_start_time (self s) = None ->
      elapsed now (last_status_time (self s)) 1 = true ->
      exists e, status_phase i now count s = (s, Raise e)).
Proof.
  unfold status_phase, display_status, mbind, M_bind, attr, gets, assign,
    modify, emit, raise, mret, M_ret.
  cbn. split.
  - intros [_ Hstart]. split.
    + intros ->. reflexivity.
    + intros ->. destruct (is_recording (self s)) eqn:Hrec; cbn.
      * destruct (recording_start_time (self s)) as [t0|] eqn:Ht0; cbn.
        -- split_and!; try reflexivity. eexists. split; [reflexivity|].
           split; [eauto|discriminate].
        -- exfalso. apply Hstart; reflexivity.
      * split_and!; try reflexivity. eexists. split; [reflexivity|].
        split; [discriminate|reflexivity].
  - intros Hrec Hnone ->. cbn. rewrite Hrec. cbn. rewrite Hnone. cbn. eauto.
Qed.

(** X20. The guards of the recording flag. Calling [start_recording] while
    recording changes nothing, so a session keeps its start time;
    [stop_recording] while idle changes nothing, so no thread is started
    without a session; and [stop_recording] right after [start_recording]
    on an idle object hands exactly the current buffer to one new thread
    and leaves the object idle again. *)
Theorem recording_guards i j s :
  fst (start_recording j (fst (start_recording i s)))
  = fst (start_recording i s)
  /\ (is_recording (self s) = false -> stop_recording i s = (s, Ok tt))
  /\ fst (stop_recording j (fst (stop_recording i s)))
     = fst (stop_recording i s)
  /\ (is_recording (self s) = false ->
      let s' := fst (stop_recording j (fst (start_recording i s))) in
      is_recording (self s') = false
      /\ threads s'
         = threads s
           ++ [mkThread (mkJob (Deque.to_list (frame_buffer (self s)))
                               ("security_" +:+ stamp j +:+ ".mp4")) false]).
Proof.
  split_and!.
  - rewrite !start_recording_eq. cbn.
    destruct (is_recording (self s)) eqn:E; cbn; [rewrite E|]; reflexivity.
  - intros Hoff. rewrite stop_recording_eq, Hoff. reflexivity.
  - rewrite !stop_recording_eq. cbn.
    destruct (is_recording (self s)) eqn:E; cbn; [|rewrite E]; reflexivity.
  - intros Hoff. cbn zeta. rewrite start_recording_eq, Hoff. cbn.
    rewrite stop_recording_eq. cbn. auto.
Qed.

(** X21. No artifact is longer than the buffer: after any run of passes
    from a state without threads, every thread holds at most
    [maxlen] frames, that is, at most [fps * buffer_seconds]. *)
Theorem every_artifact_fits_the_buffer (ticks : list (Tick Frame)) l s :
  0 <= Deque.maxlen (frame_buffer (self s)) ->
  Deque.len (frame_buffer (self s)) <= Deque.maxlen (frame_buffer (self s)) ->
  threads s = [] ->
  Forall (fun t => Z.of_nat (length (job_frames (th_job t)))
                   <= Deque.maxlen (frame_buffer (self s)))
         (threads (fst (iterations ticks l s))).
Proof.
  intros H0 Hlen Hth.
  apply artifacts_fit_the_buffer; [reflexivity|exact H0|exact Hlen|].
  rewrite Hth. constructor.
Qed.

(** *** How long a session lasts *)

Lemma iteration_detection_monotone i l s :
  (last_detection_time (self s) <= loop_last_detection_time l)%Q ->
  (last_detection_time (self s)
   <= last_detection_time (self (fst (iteration i l s))))%Q
  /\ recording_after_seconds (self (fst (iteration i l s)))
     = recording_after_seconds (self s).
Proof.
  intros Hle. destruct (ret i) eqn:Hret.
  2:{ rewrite iteration_read_failed by exact Hret. cbn. split; [lra|reflexivity]. }
  destruct (elapsed (t_now i) (loop_last_detection_time l) detection_interval)
    eqn:Hel.
  2:{ destruct (iteration_skipped i l s Hret Hel) as (Hc & _).
      apply core_inv in Hc as (_ & _ & -> & _ & _ & _ & _ & -> & _).
      cbn. split; [lra|reflexivity]. }
  pose proof Hel as Hel'. apply elapsed_later in Hel'; [|reflexivity].
  destruct (reported (model (self s)) (detector i)) as [b|] eqn:Hrep.
  - destruct (iteration_heard i l s b Hret Hel Hrep) as (Hc & _).
    apply core_inv in Hc as (_ & _ & -> & _ & _ & _ & _ & -> & _).
    destruct b.
    + destruct (seen_person_spec (t_now i) i
                  (heard (frame i) (detector i) (pushed (frame i) s)))
        as (_ & -> & _ & _ & _ & _ & -> & _).
      rewrite heard_self. cbn. split; [lra|reflexivity].
    + destruct (seen_nobody_spec (t_now i) i
                  (heard (frame i) (detector i) (pushed (frame i) s)))
        as (_ & -> & _ & _ & _ & _ & _ & -> & _).
      rewrite heard_self. cbn. split; [lra|reflexivity].
  - destruct (iteration_crashed i l s Hret Hel Hrep) as (e & ->).
    cbn. rewrite heard_self. cbn. split; [lra|reflexivity].
Qed.

Lemma iterations_detection_monotone (ticks : list (Tick Frame)) :
  forall l s l1,
    (last_detection_time (self s) <= loop_last_detection_time l)%Q ->
    snd (iterations ticks l s) = Ok l1 ->
    (last_detection_time (self s)
     <= last_detection_time (self (fst (iterations ticks l s))))%Q
    /\ recording_after_seconds (self (fst (iterations ticks l s)))
       = recording_after_seconds (self s).
Proof.
  induction ticks as [|i rest IH]; intros l s l1 Hle Hok.
  - cbn. split; [lra|reflexivity].
  - rewrite iterations_cons in Hok |- *.
    destruct (running (self s)); [|cbn; split; [lra|reflexivity]].
    destruct (iteration_detection_monotone i l s Hle) as (Hmono & Hafter).
    pose proof (iteration_sample_times i l s) as Htimes.
    destruct (iteration i l s) as [s1 [l2|e]]; cbn [fst snd] in *;
      [|discriminate Hok].
    destruct (Htimes l2 eq_refl Hle) as (Hle1 & _).
    destruct (IH l2 s1 l1 Hle1 Hok) as (Hmono' & Hafter').
    rewrite Hafter', Hafter. split; [lra|reflexivity].
Qed.

(** X22. A session is not closed early. Take any moment of a run at which
    the last detection is not ahead of the last sample, and any later pass
    that takes the program out of the recording state. The time from the
    last detection known at the first moment to that pass, stretched by the
    one rounding error [2^-53] of the float subtraction in the test, is at
    least [recording_after_seconds] (taken not negative): the session has
    lasted at least [recording_after_seconds / (1 + 2^-53)] after the
    detection that opened it. *)
Theorem a_session_lasts_at_least_the_post_event_time
    (ticks : list (Tick Frame)) i l s l1 :
  (last_detection_time (self s) <= loop_last_detection_time l)%Q ->
  snd (iterations ticks l s) = Ok l1 ->
  is_recording (self (fst (iterations ticks l s))) = true ->
  is_recording (self (fst (iteration i l1 (fst (iterations ticks l s)))))
  = false ->
  (0 <= recording_after_seconds (self s))%Q ->
  (recording_after_seconds (self s)
   <= (t_now i - last_detection_time (self s)) * (1 + Binary64.eps))%Q.
Proof.
  intros Hle Hok Hon Hoff Hpos.
  destruct (iterations_detection_monotone ticks l s l1 Hle Hok)
    as (Hmono & Hafter).
  destruct (recording_left_only_on_timeout i l1 _ Hon Hoff) as (_ & _ & Hgap).
  rewrite Hafter in Hgap. apply elapsed_gap in Hgap; [|exact Hpos].
  unfold Binary64.eps in *. lra.
Qed.

End More.

(** ** The further properties at concrete inputs *)

Lemma find_usb_drive_returns_a_writable_directory_witness :
  find_usb_drive Rig.usb_mounts = Ok "/media/pi/STICK"
  /\ ("/media/pi/STICK" = local_path Rig.usb_mounts
      \/ exists base_path names item,
           base_path ∈ possible_paths
           /\ path_exists Rig.usb_mounts base_path = true
           /\ listdir Rig.usb_mounts base_path = ListEntries names
           /\ item ∈ names
           /\ "/media/pi/STICK" = OsPath.join base_path item
           /\ isdir Rig.usb_mounts "/media/pi/STICK" = true
           /\ access_W_OK Rig.usb_mounts "/media/pi/STICK" = true).
Proof.
  assert (Hf : find_usb_drive Rig.usb_mounts = Ok "/media/pi/STICK")
    by reflexivity.
  refine (conj Hf _).
  exact (find_usb_drive_returns_a_writable_directory Rig.usb_mounts
           "/media/pi/STICK" Hf).
Defined.

Lemma find_usb_drive_takes_the_first_match_witness :
  possible_paths = ["/media/pi"] ++ "/mnt" :: ["/media"; "/Volumes"]
  /\ Forall (barren Rig.locked_mounts) ["/media/pi"]
  /\ path_exists Rig.locked_mounts "/mnt" = true
  /\ listdir Rig.locked_mounts "/mnt" = ListEntries ([] ++ "disk" :: [])
  /\ writable_dir Rig.locked_mounts (OsPath.join "/mnt" "disk") = true
  /\ find_usb_drive Rig.locked_mounts = Ok (OsPath.join "/mnt" "disk").
Proof.
  assert (H1 : possible_paths = ["/media/pi"] ++ "/mnt" :: ["/media"; "/Volumes"])
    by reflexivity.
  assert (H2 : Forall (barren Rig.locked_mounts) ["/media/pi"]).
  { constructor; [|constructor]. right. left. reflexivity. }
  assert (H3 : path_exists Rig.locked_mounts "/mnt" = true) by reflexivity.
  assert (H4 : listdir Rig.locked_mounts "/mnt" = ListEntries ([] ++ "disk" :: []))
    by reflexivity.
  assert (H5 : writable_dir Rig.locked_mounts (OsPath.join "/mnt" "disk") = true)
    by reflexivity.
  refine (conj H1 (conj H2 (conj H3 (conj H4 (conj H5 _))))).
  exact (find_usb_drive_takes_the_first_match Rig.locked_mounts
           ["/media/pi"] "/mnt" ["/media"; "/Volumes"] [] "disk" []
           H1 H2 H3 H4 (Forall_nil_2 _) H5).
Defined.

Lemma find_usb_drive_falls_back_to_the_local_directory_witness :
  listings_answer Demo.no_mounts
  /\ exists p, find_usb_drive Demo.no_mounts = Ok p.
Proof.
  assert (H1 : listings_answer Demo.no_mounts).
  { intros base_path e _ Hex. discriminate Hex. }
  refine (conj H1 _).
  exact (proj1 (find_usb_drive_falls_back_to_the_local_directory
                  Demo.no_mounts H1)).
Defined.

Lemma offline_loaders_fail_softly : loader_failures_are_exceptions Rig.hub_offline.
Proof. split; intros e E; injection E as <-; reflexivity. Defined.

Lemma no_mounts_fail_softly : listing_failures_are_exceptions Demo.no_mounts.
Proof. intros base_path e _ Hex. discriminate Hex. Defined.

Lemma initialize_yolo_reports_whether_a_model_is_loaded_witness :
  loader_failures_are_exceptions Rig.hub_offline
  /\ exists b,
       snd (initialize_yolo Rig.hub_offline Rig.fresh_state) = Ok b
       /\ (b = false ->
           model (self (fst (initialize_yolo Rig.hub_offline Rig.fresh_state)))
           = model (self Rig.fresh_state))
       /\ (b = true ->
           exists m,
             model (self (fst (initialize_yolo Rig.hub_offline Rig.fresh_state)))
             = Some m)
       /\ (model (self Rig.fresh_state) = None ->
           (b = true <->
            model (self (fst (initialize_yolo Rig.hub_offline Rig.fresh_state)))
            <> None)).
Proof.
  refine (conj offline_loaders_fail_softly _).
  exact (initialize_yolo_reports_whether_a_model_is_loaded Rig.hub_offline
           Rig.fresh_state offline_loaders_fail_softly).
Defined.

Lemma thresholds_are_set_on_a_local_model_only_witness :
  YOLO_AVAILABLE Rig.hub_broken_local = true
  /\ load_pretrained Rig.hub_broken_local = Ok (mkModel (25 # 100) (45 # 100))
  /\ model (self (fst (initialize_yolo Rig.hub_broken_local Rig.fresh_state)))
     = Some (mkModel (25 # 100) (45 # 100)).
Proof.
  assert (H1 : YOLO_AVAILABLE Rig.hub_broken_local = true) by reflexivity.
  assert (H2 : load_pretrained Rig.hub_broken_local
               = Ok (mkModel (25 # 100) (45 # 100))) by reflexivity.
  refine (conj H1 (conj H2 _)).
  exact (proj2 (proj2 (thresholds_are_set_on_a_local_model_only
                         Rig.hub_broken_local Rig.fresh_state
                         (mkModel (25 # 100) (45 # 100)) H1)
                  (or_intror (ex_intro _ (PyException "invalid checkpoint")
                                (conj eq_refl eq_refl)))
                  H2)).
Defined.

Lemma initialize_camera_follows_the_negotiated_rate_witness :
  dev_opens Rig.camera15 = true
  /\ 0 <= buffer_seconds (self Rig.fresh_state)
  /\ 0 < actual_fps Rig.camera15
  /\ actual_fps Rig.camera15 * buffer_seconds (self Rig.fresh_state)
     <= PY_SSIZE_T_MAX
  /\ frame_buffer (self (fst (initialize_camera Rig.camera15 Rig.fresh_state)))
     = mkDeque [] (15 * 5).
Proof.
  assert (H1 : dev_opens Rig.camera15 = true) by reflexivity.
  assert (H2 : 0 <= buffer_seconds (self Rig.fresh_state)) by (cbn; lia).
  assert (H3 : 0 < actual_fps Rig.camera15) by (cbn; lia).
  assert (H4 : actual_fps Rig.camera15 * buffer_seconds (self Rig.fresh_state)
               <= PY_SSIZE_T_MAX) by (vm_compute; discriminate).
  refine (conj H1 (conj H2 (conj H3 (conj H4 _)))).
  exact (proj2 (proj2 (proj1 (proj2 (proj2 (proj2
           (initialize_camera_follows_the_negotiated_rate
              Rig.camera15 Rig.fresh_state H1 H2)))) H3 H4))).
Defined.

Lemma start_returns_started_or_exit_code_1_witness :
  loader_failures_are_exceptions Rig.hub_offline
  /\ listing_failures_are_exceptions Demo.no_mounts
  /\ untouched_by_start Rig.fresh_state
       (fst (start Rig.camera_closed Rig.hub_offline Demo.no_mounts
               Rig.fresh_state)).
Proof.
  refine (conj offline_loaders_fail_softly (conj no_mounts_fail_softly _)).
  exact (proj1 (start_returns_started_or_exit_code_1 Rig.camera_closed
                  Rig.hub_offline Demo.no_mounts Rig.fresh_state
                  offline_loaders_fail_softly no_mounts_fail_softly)).
Defined.

Lemma start_succeeds_whatever_the_detector_witness :
  dev_opens Demo.camera30 = true
  /\ 0 <= buffer_seconds (self Rig.fresh_state)
  /\ actual_fps Demo.camera30 * buffer_seconds (self Rig.fresh_state)
     <= PY_SSIZE_T_MAX
  /\ loader_failures_are_exceptions Rig.hub_offline
  /\ find_usb_drive Demo.no_mounts = Ok "recordings"
  /\ snd (start Demo.camera30 Rig.hub_offline Demo.no_mounts Rig.fresh_state)
     = Ok Started.
Proof.
  assert (H1 : dev_opens Demo.camera30 = true) by reflexivity.
  assert (H2 : 0 <= buffer_seconds (self Rig.fresh_state)) by (cbn; lia).
  assert (H3 : actual_fps Demo.camera30
               * buffer_seconds (self Rig.fresh_state) <= PY_SSIZE_T_MAX)
    by (vm_compute; discriminate).
  assert (H4 : find_usb_drive Demo.no_mounts = Ok "recordings") by reflexivity.
  refine (conj H1 (conj H2 (conj H3
            (conj offline_loaders_fail_softly (conj H4 _))))).
  exact (proj1 (start_succeeds_whatever_the_detector Demo.camera30
                  Rig.hub_offline Demo.no_mounts Rig.fresh_state "recordings"
                  H1 H2 H3 offline_loaders_fail_softly H4)).
Defined.

Lemma start_gives_up_when_the_camera_does_not_open_witness :
  dev_opens Rig.camera_closed = false
  /\ snd (start Rig.camera_closed Demo.hub_ok Demo.no_mounts Rig.fresh_state)
     = Ok (Exited 1).
Proof.
  assert (H1 : dev_opens Rig.camera_closed = false) by reflexivity.
  refine (conj H1 _).
  exact (proj1 (start_gives_up_when_the_camera_does_not_open
                  Rig.camera_closed Demo.hub_ok Demo.no_mounts
                  Rig.fresh_state H1)).
Defined.

Lemma monitoring_thread_survives_after_start_witness :
  let ticks := [Demo.pass_raising 1000 0 (PyException "inference failed");
                Demo.pass_at 1001 1 [0]] in
  0 < fps (self Rig.fresh_state)
  /\ is_recording (self Rig.fresh_state) = false
  /\ snd (start Demo.camera30 Demo.hub_ok Demo.no_mounts Rig.fresh_state)
     = Ok Started
  /\ failures_are_exceptions ticks
  /\ exists l,
       snd (monitoring_loop ticks
              (fst (start Demo.camera30 Demo.hub_ok Demo.no_mounts
                      Rig.fresh_state)))
       = Ok l.
Proof.
  intros ticks.
  assert (H1 : 0 < fps (self Rig.fresh_state)) by (cbn; lia).
  assert (H2 : is_recording (self Rig.fresh_state) = false) by reflexivity.
  assert (H3 : snd (start Demo.camera30 Demo.hub_ok Demo.no_mounts
                      Rig.fresh_state) = Ok Started)
    by (vm_compute; reflexivity).
  assert (H4 : failures_are_exceptions ticks).
  { constructor; [|constructor; [|constructor]].
    - intros e E. injection E as <-. reflexivity.
    - intros e E. discriminate E. }
  refine (conj H1 (conj H2 (conj H3 (conj H4 _)))).
  exact (monitoring_thread_survives_after_start Demo.camera30 Demo.hub_ok
           Demo.no_mounts Rig.fresh_state ticks H1 H2 H3 H4).
Defined.


Lemma last_detection_never_ahead_of_the_last_sample_witness :
  let ticks := [Demo.pass_at 1000 0 [0]; Demo.pass_at 1001 1 []] in
  let l := mkLoop 0 0 in
  let s := Demo.idle_state in
  (last_detection_time (self s) <= loop_last_detection_time l)%Q
  /\ snd (iterations ticks l s) = Ok (mkLoop 1001 0)
  /\ (last_detection_time (self (fst (iterations ticks l s))) <= 1001)%Q.
Proof.
  intros ticks l s.
  assert (H1 : (last_detection_time (self s) <= loop_last_detection_time l)%Q)
    by (vm_compute; discriminate).
  assert (H2 : snd (iterations ticks l s) = Ok (mkLoop 1001 0))
    by (vm_compute; reflexivity).
  refine (conj H1 (conj H2 _)).
  exact (proj1 (last_detection_never_ahead_of_the_last_sample ticks l s
                  (mkLoop 1001 0) H1 H2)).
Defined.

Lemma sessions_alternate_and_each_gets_one_thread_witness :
  let ticks := [Demo.pass_at 1000 0 [0]; Demo.pass_at 1005 1 [];
                Demo.pass_at 1006 2 [0]] in
  sessions_tally Demo.idle_state
  /\ sessions_tally (fst (iterations ticks (mkLoop 0 0) Demo.idle_state)).
Proof.
  intros ticks.
  assert (H1 : sessions_tally Demo.idle_state) by (split; reflexivity).
  refine (conj H1 _).
  exact (sessions_alternate_and_each_gets_one_thread ticks (mkLoop 0 0)
           Demo.idle_state H1).
Defined.

Lemma good_sink_is_healthy : healthy Demo.good_sink.
Proof.
  split_and!; [reflexivity|reflexivity|intros k; split; reflexivity].
Defined.

Lemma save_video_stores_the_frames_in_order_witness :
  let frames := [1; 2; 3; 4]%nat in
  let filename := "security_2024-01-01_12-00-00.mp4" in
  frames <> []
  /\ find_usb_drive Demo.no_mounts = Ok "recordings"
  /\ healthy Demo.good_sink
  /\ files (fs (fst (save_video Demo.no_mounts Demo.good_sink frames filename
                       Demo.idle_state)))
       !! "recordings/security_recordings/security_2024-01-01_12-00-00.mp4"
     = Some frames.
Proof.
  intros frames filename.
  assert (H1 : frames <> []) by discriminate.
  assert (H2 : find_usb_drive Demo.no_mounts = Ok "recordings") by reflexivity.
  refine (conj H1 (conj H2 (conj good_sink_is_healthy _))).
  exact (proj1 (proj2 (save_video_stores_the_frames_in_order Demo.no_mounts
                         Demo.good_sink frames filename Demo.idle_state
                         "recordings" H1 H2 good_sink_is_healthy))).
Defined.

Lemma save_video_writes_nothing_without_directory_or_writer_witness :
  let frames := [1; 2; 3; 4]%nat in
  let filename := "security_2024-01-01_12-00-00.mp4" in
  frames <> []
  /\ find_usb_drive Demo.no_mounts = Ok "recordings"
  /\ (makedirs_error Rig.no_writer_sink = None
      /\ writer_opens Rig.no_writer_sink = false)
  /\ snd (save_video Demo.no_mounts Rig.no_writer_sink frames filename
            Demo.idle_state)
     = Ok false.
Proof.
  intros frames filename.
  assert (H1 : frames <> []) by discriminate.
  assert (H2 : find_usb_drive Demo.no_mounts = Ok "recordings") by reflexivity.
  assert (H3 : makedirs_error Rig.no_writer_sink = None
               /\ writer_opens Rig.no_writer_sink = false)
    by (split; reflexivity).
  refine (conj H1 (conj H2 (conj H3 _))).
  exact (proj1 (save_video_writes_nothing_without_directory_or_writer
                  Demo.no_mounts Rig.no_writer_sink frames filename
                  Demo.idle_state "recordings" H1 H2 (or_intror H3))).
Defined.

Lemma without_a_buffer_nothing_is_stored_witness :
  let ticks := [Demo.pass_at 1000 0 [0]; Demo.pass_at 1005 1 []] in
  let s := Rig.bufferless_state in
  Deque.maxlen (frame_buffer (self s)) = 0
  /\ Deque.to_list (frame_buffer (self s)) = []
  /\ threads s = []
  /\ Forall (fun t => job_frames (th_job t) = [])
            (threads (fst (iterations ticks (mkLoop 0 0) s))).
Proof.
  intros ticks s.
  assert (H1 : Deque.maxlen (frame_buffer (self s)) = 0) by reflexivity.
  assert (H2 : Deque.to_list (frame_buffer (self s)) = []) by reflexivity.
  assert (H3 : threads s = []) by reflexivity.
  refine (conj H1 (conj H2 (conj H3 _))).
  exact (proj1 (without_a_buffer_nothing_is_stored ticks (mkLoop 0 0) s
                  Demo.no_mounts Demo.good_sink 0%nat H1 H2 H3)).
Defined.

Lemma detect_person_looks_for_class_zero_witness :
  model (self Demo.idle_state) = Some (mkModel (25 # 100) (45 # 100))
  /\ (snd (detect_person 7%nat (DetResults [16; 0; 2]) Demo.idle_state)
      = Ok true
      <-> 0 ∈ [16; 0; 2]).
Proof.
  assert (H1 : model (self Demo.idle_state) = Some (mkModel (25 # 100) (45 # 100)))
    by reflexivity.
  refine (conj H1 _).
  exact (proj1 (detect_person_looks_for_class_zero 7%nat [16; 0; 2]
                  Demo.idle_state (mkModel (25 # 100) (45 # 100)) H1)).
Defined.

Lemma constructor_rejects_what_deque_rejects_witness :
  (-1 < 0 \/ PY_SSIZE_T_MAX < 30 * -1)
  /\ exists e, __init__ (Frame := nat) 0 (-1) 5 "/media/pi" = Raise e
               /\ is_Exception e = true.
Proof.
  assert (H1 : -1 < 0 \/ PY_SSIZE_T_MAX < 30 * -1) by (left; lia).
  refine (conj H1 _).
  exact (proj1 (constructor_rejects_what_deque_rejects (Frame := nat)
                  0 (-1) 5 "/media/pi") H1).
Defined.

Lemma status_block_reports_once_a_second_witness :
  let i := Demo.pass_at 1003 4 [] in
  consistent (self Demo.recording_state)
  /\ elapsed 1003 (last_status_time (self Demo.recording_state)) 1 = true
  /\ snd (status_phase i 1003 30 Demo.recording_state) = Ok 0.
Proof.
  intros i.
  assert (H1 : consistent (self Demo.recording_state))
    by (split; [reflexivity|discriminate]).
  assert (H2 : elapsed 1003 (last_status_time (self Demo.recording_state)) 1
               = true) by reflexivity.
  refine (conj H1 (conj H2 _)).
  exact (proj1 (proj2 (proj1 (status_block_reports_once_a_second i 1003 30
                                Demo.recording_state) H1) H2)).
Defined.

Lemma recording_guards_witness :
  let i := Demo.pass_at 1000 0 [0] in
  is_recording (self Demo.idle_state) = false
  /\ stop_recording i Demo.idle_state = (Demo.idle_state, Ok tt).
Proof.
  intros i.
  assert (H1 : is_recording (self Demo.idle_state) = false) by reflexivity.
  refine (conj H1 _).
  exact (proj1 (proj2 (recording_guards i i Demo.idle_state)) H1).
Defined.

Lemma every_artifact_fits_the_buffer_witness :
  let ticks := [Demo.pass_at 1000 0 [0]; Demo.pass_at 1005 1 []] in
  let s := Demo.idle_state in
  0 <= Deque.maxlen (frame_buffer (self s))
  /\ Deque.len (frame_buffer (self s)) <= Deque.maxlen (frame_buffer (self s))
  /\ threads s = []
  /\ Forall (fun t => Z.of_nat (length (job_frames (th_job t))) <= 150)
            (threads (fst (iterations ticks (mkLoop 0 0) s))).
Proof.
  intros ticks s.
  assert (H1 : 0 <= Deque.maxlen (frame_buffer (self s))) by (cbn; lia).
  assert (H2 : Deque.len (frame_buffer (self s))
               <= Deque.maxlen (frame_buffer (self s)))
    by (unfold Deque.len; cbn; lia).
  assert (H3 : threads s = []) by reflexivity.
  refine (conj H1 (conj H2 (conj H3 _))).
  exact (every_artifact_fits_the_buffer ticks (mkLoop 0 0) s H1 H2 H3).
Defined.

Lemma a_session_lasts_at_least_the_post_event_time_witness :
  let ticks := [Demo.pass_at 1002 1 []] in
  let i := Demo.pass_at 1005 2 [] in
  let l := mkLoop 1000 0 in
  let s := Demo.recording_state in
  (last_detection_time (self s) <= loop_last_detection_time l)%Q
  /\ snd (iterations ticks l s) = Ok (mkLoop 1002 0)
  /\ is_recording (self (fst (iterations ticks l s))) = true
  /\ is_recording
       (self (fst (iteration i (mkLoop 1002 0) (fst (iterations ticks l s)))))
     = false
  /\ (0 <= recording_after_seconds (self s))%Q
  /\ (recording_after_seconds (self s)
      <= (t_now i - last_detection_time (self s)) * (1 + Binary64.eps))%Q.
Proof.
  intros ticks i l s.
  assert (H1 : (last_detection_time (self s) <= loop_last_detection_time l)%Q)
    by (vm_compute; discriminate).
  assert (H2 : snd (iterations ticks l s) = Ok (mkLoop 1002 0))
    by (vm_compute; reflexivity).
  assert (H3 : is_recording (self (fst (iterations ticks l s))) = true)
    by (vm_compute; reflexivity).
  assert (H4 : is_recording
                 (self (fst (iteration i (mkLoop 1002 0)
                               (fst (iterations ticks l s))))) = false)
    by (vm_compute; reflexivity).
  assert (H5 : (0 <= recording_after_seconds (self s))%Q)
    by (vm_compute; discriminate).
  refine (conj H1 (conj H2 (conj H3 (conj H4 (conj H5 _))))).
  exact (a_session_lasts_at_least_the_post_event_time ticks i l s
           (mkLoop 1002 0) H1 H2 H3 H4 H5).
Defined.
